(** * The ListenBrainz scrobbler of Strawberry: submission, retry and session

  A shallow embedding of [src/scrobbler/listenbrainzscrobbler.cpp].  The
  object's member variables form a record, every member function is a
  function from state to state, and the collaborators the object talks to
  (the scrobbler cache, the settings store, the network, the timers, the
  emitted signals) are part of the same state so that their effects can be
  observed.  Cache items are shared pointers in the source: the cache and a
  batch in flight refer to the same objects, so items live in a store keyed
  by address and both the cache and a batch hold addresses.  Log output is
  left out, and so is the JSON rendering of a track: a posted request
  carries the metadata itself. *)

From Stdlib Require Import ZArith Lia Bool.
From stdpp Require Import base option strings list gmap pretty.

(** ** Integers *)

(** [static_cast<int>] of a 64-bit value: reduction modulo 2^32 into the signed
  range. *)
Definition to_int (z : Z) : Z := ((z + 2147483648) mod 4294967296 - 2147483648)%Z.

Definition INT_MAX : Z := 2147483647%Z.

(** Seconds since the epoch and the 64-bit sums and products formed from
    them are exact integers here: they stay far below 2^63, beyond which the
    source language leaves the result undefined.  Only the conversion to
    [int], which the source writes out, is modelled as a reduction. *)

(** Modelled from the spec: [utilities/timeconstants.h] is not part of the
  sources at hand; timer lengths are seconds multiplied by [kMsecPerSec] to
  give the milliseconds of a [QTimer], and a duration in seconds multiplied
  by [kNsecPerSec] gives a length in nanoseconds.  Both are 64-bit
  constants. *)
Definition kMsecPerSec : Z := 1000%Z.
Definition kNsecPerSec : Z := 1000000000%Z.

Definition kScrobblesPerRequest : nat := 10.

(** [QString::isEmpty]. *)
Definition isEmpty (s : string) : bool := bool_decide (s = "").

(** ASCII lower-casing, for [QString::compare(..., Qt::CaseInsensitive)]. *)
Definition lower_ascii (c : Ascii.ascii) : Ascii.ascii :=
  let n := Ascii.nat_of_ascii c in
  if (65 <=? n)%nat && (n <=? 90)%nat then Ascii.ascii_of_nat (n + 32) else c.

Fixpoint lower (s : string) : string :=
  match s with
  | EmptyString => EmptyString
  | String c r => String (lower_ascii c) (lower r)
  end.

(** ** Songs and scrobble metadata *)

(** Modelled from the spec: class [Song] ([core/song.h]) is not part of the
  sources at hand.  A song carries its identity and locator, whether its
  metadata is adequate, whether it is a live/radio-type item, and a length;
  [set_length_nanosec] changes the length only. *)
Module Song.
Record t := mk {
  id : Z;
  url : string;
  is_valid : bool;
  is_metadata_good : bool;
  is_radio : bool;
  artist : string;
  album : string;
  title : string;
  length_nanosec : Z;
  musicbrainz_recording_id : string
}.

Definition set_length_nanosec (v : Z) (s : t) : t :=
  mk (id s) (url s) (is_valid s) (is_metadata_good s) (is_radio s)
     (artist s) (album s) (title s) v (musicbrainz_recording_id s).

(** The default-constructed song. *)
Definition empty : t := mk (-1) "" false false false "" "" "" (-1) "".
End Song.

(** Modelled from the spec: [ScrobbleMetadata] is the immutable track identity
  of a queued record (artist, album, title, duration, identifiers), built
  from a song. *)
Module ScrobbleMetadata.
Record t := mk {
  artist : string;
  album : string;
  title : string;
  length_nanosec : Z;
  musicbrainz_recording_id : string
}.

Definition of_song (s : Song.t) : t :=
  mk (Song.artist s) (Song.album s) (Song.title s) (Song.length_nanosec s)
     (Song.musicbrainz_recording_id s).

Definition effective_albumartist (m : t) : string := artist m.
End ScrobbleMetadata.

(** ** The durable queue *)

Module ScrobblerCacheItem.
Record t := mk {
  metadata : ScrobbleMetadata.t;
  timestamp : Z;
  sent : bool;
  error : bool
}.

Definition set_sent (b : bool) (i : t) : t := mk (metadata i) (timestamp i) b (error i).
Definition set_error (b : bool) (i : t) : t := mk (metadata i) (timestamp i) (sent i) b.
End ScrobblerCacheItem.

(** Addresses of cache items ([ScrobblerCacheItemPtr]) are natural numbers. *)

Module ScrobblerCache.
(** [objects] holds the items behind the shared pointers, [scrobbler_cache_]
    is the queue in insertion order, [fresh] the next unused address. *)
Record t := mk {
  objects : gmap nat ScrobblerCacheItem.t;
  scrobbler_cache_ : list nat;
  fresh : nat
}.

Definition empty : t := mk ∅ [] 0.

(** Modelled from the spec: [ScrobblerCache] is not part of the sources at
    hand.  [Add] appends a new unsent record. *)
Definition Add (song : Song.t) (timestamp : Z) (c : t) : t :=
  mk (<[fresh c := ScrobblerCacheItem.mk (ScrobbleMetadata.of_song song) timestamp false false]>
        (objects c))
     (scrobbler_cache_ c ++ [fresh c])
     (S (fresh c)).

(** Modelled from the spec: [List] returns all records in insertion order,
    the already sent ones included. *)
Definition List (c : t) : list nat := scrobbler_cache_ c.

(** Modelled from the spec: [Count] is the number of records not yet
    confirmed delivered. *)
Definition Count (c : t) : nat := length (scrobbler_cache_ c).

(** Modelled from the spec: [Flush] permanently removes the given records
    from the queue. *)
Definition Flush (cache_items : list nat) (c : t) : t :=
  mk (objects c)
     (filter (λ p, p ∉ cache_items) (scrobbler_cache_ c))
     (fresh c).

(** Modelled from the spec: [SetError] marks the given records
    [error = true]. *)
Definition SetError (cache_items : list nat) (c : t) : t :=
  mk (foldr (λ p o, alter (ScrobblerCacheItem.set_error true) p o) (objects c) cache_items)
     (scrobbler_cache_ c)
     (fresh c).

(** Modelled from the spec: [ClearSent] resets [sent = false] on the given
    records. *)
Definition ClearSent (cache_items : list nat) (c : t) : t :=
  mk (foldr (λ p o, alter (ScrobblerCacheItem.set_sent false) p o) (objects c) cache_items)
     (scrobbler_cache_ c)
     (fresh c).

(** Writing through a shared pointer. *)
Definition write (p : nat) (i : ScrobblerCacheItem.t) (c : t) : t :=
  mk (<[p := i]> (objects c)) (scrobbler_cache_ c) (fresh c).

(** Every queued address is live, no address is queued twice, and unused
    addresses are unused. *)
Definition wf (c : t) : Prop :=
  NoDup (scrobbler_cache_ c) ∧
  (∀ p, p ∈ scrobbler_cache_ c → is_Some (objects c !! p)) ∧
  (∀ p, is_Some (objects c !! p) → p < fresh c).
End ScrobblerCache.

(** ** Collaborators from Qt and from the application *)

(** A single-shot [QTimer]: an interval in milliseconds and whether it is
    running. *)
Module QTimer.
Record t := mk { interval : Z; isActive : bool }.

Definition setInterval (msec : Z) (tm : t) : t := mk msec (isActive tm).
Definition start (tm : t) : t := mk (interval tm) true.
Definition stop (tm : t) : t := mk (interval tm) false.
Definition idle : t := mk 0 false.
End QTimer.

(** [QVariant] values of the settings store. *)
Inductive QVariant :=
| VString (s : string)
| VInt (z : Z)
| VBool (b : bool).

Module Variant.
Definition toString (v : option QVariant) : string :=
  match v with
  | Some (VString s) => s
  | Some (VInt z) => pretty z
  | Some (VBool true) => "true"
  | Some (VBool false) => "false"
  | None => ""
  end.

(** Strings stored under numeric keys do not occur: the values are written
    as integers by [AuthenticateReplyFinished]; a string converts to 0. *)
Definition toLongLong (v : option QVariant) : Z :=
  match v with
  | Some (VInt z) => z
  | Some (VBool true) => 1
  | _ => 0
  end.

Definition toInt (v : option QVariant) : Z := to_int (toLongLong v).

Definition toBool (v : option QVariant) : bool :=
  match v with
  | Some (VBool b) => b
  | Some (VInt z) => negb (z =? 0)%Z
  | Some (VString s) => negb (isEmpty s || bool_decide (s = "0") || bool_decide (s = "false"))
  | None => false
  end.
End Variant.

(** [Settings::value(key, default)] inside the group of the scrobbler. *)
Definition value (store : gmap string QVariant) (key : string) (default : option QVariant)
  : option QVariant :=
  match store !! key with
  | Some v => Some v
  | None => default
  end.

(** The scrobbler settings shared by all services ([settings_]). *)
Module ScrobblerSettings.
Record t := mk {
  offline : bool;
  submit_delay : Z;
  show_error_dialog : bool
}.
End ScrobblerSettings.

(** JSON as the reply handlers look at it. *)
Inductive QJsonValue :=
| JString (s : string)
| JNumber (z : Z)
| JOther.

Module Json.
Definition toString (v : option QJsonValue) : string :=
  match v with
  | Some (JString s) => s
  | _ => ""
  end.

Definition toInt (v : option QJsonValue) : Z :=
  match v with
  | Some (JNumber z) => if (-2147483648 <=? z)%Z && (z <=? 2147483647)%Z then z else 0
  | _ => 0
  end.

Definition contains (o : gmap string QJsonValue) (key : string) : bool :=
  bool_decide (is_Some (o !! key)).
End Json.

(** What [readAll] delivers, as [ExtractJsonObj] of the base class (not part
    of the sources at hand) classifies it: nothing, bytes that are not a JSON
    object (with the description [ExtractJsonObj] reports), or an object. *)
Inductive ReplyData :=
| DataEmpty
| DataInvalid (error_description : string)
| DataObject (json_obj : gmap string QJsonValue).

(** [QNetworkReply::NetworkError], by its numeric value. *)
Definition NoError : Z := 0.
Definition ContentAccessDenied : Z := 201.
Definition ContentOperationNotPermittedError : Z := 202.
Definition AuthenticationRequiredError : Z := 204.

Module QNetworkReply.
Record t := mk {
  error : Z;
  errorString : string;
  HttpStatusCode : Z;
  readAll : ReplyData
}.
End QNetworkReply.

Module QUrl.
Record t := mk {
  isValid : bool;
  toString : string;
  query : list (string * string)
}.

Definition isEmpty (u : t) : bool := bool_decide (toString u = "").
Definition empty : t := mk false "" [].

Definition hasQueryItem (u : t) (key : string) : bool :=
  bool_decide (key ∈ (query u).*1).

Definition queryItemValue (u : t) (key : string) : string :=
  default "" ((λ r, (snd r).2) <$> list_find (λ kv, kv.1 = key) (query u)).
End QUrl.

(** The redirect listener, as [RedirectArrived] reads it. *)
Module LocalRedirectServer.
Record t := mk { error : string; request_url : QUrl.t }.
End LocalRedirectServer.

Inductive ReplyResult := Success | ServerError | APIError.

#[global] Instance ReplyResult_eq_dec : EqDecision ReplyResult.
Proof. solve_decision. Defined.

(** What a request carries. *)
Inductive Payload :=
| TokenRequest (params : list (string * string))
| PlayingNow (metadata : ScrobbleMetadata.t)
| Import (listens : list (Z * ScrobbleMetadata.t))
| RecordingFeedback (recording_mbid : string).

Record Request := mkRequest {
  request_url : string;
  request_payload : Payload
}.

(** The slot connected to the [finished] signal of a reply, with what its
    closure captured. *)
Inductive Slot :=
| AuthenticateReplyFinishedSlot
| UpdateNowPlayingRequestFinishedSlot
| ScrobbleRequestFinishedSlot (cache_items_sent : list nat)
| LoveRequestFinishedSlot.

Inductive Signal :=
| AuthenticationComplete (success : bool) (error : string)
| ErrorMessage (error : string)
| ShowConfig.

(** ** The scrobbler object *)

(** The session: the token fields and the time of login. *)
Record Session := mkSession {
  access_token_ : string;
  expires_in_ : Z;
  token_type_ : string;
  refresh_token_ : string;
  login_time_ : Z
}.

(** The tracked item: what is playing, whether it has been scrobbled, and
    when it started. *)
Record Playback := mkPlayback {
  song_playing_ : Song.t;
  scrobbled_ : bool;
  timestamp_ : Z
}.

(** The member variables of [ListenBrainzScrobbler], followed by the state of
    the collaborators it acts on: the slots connected to outstanding
    replies, the requests posted to the network and the next reply address,
    the shared scrobbler settings, the settings group [ListenBrainz] of the
    persistent store, and the signals emitted so far. *)
Record ListenBrainzScrobbler := mkScrobbler {
  cache_ : ScrobblerCache.t;
  server_ : option LocalRedirectServer.t;
  enabled_ : bool;
  user_token_ : string;
  session_ : Session;
  submitted_ : bool;
  playback_ : Playback;
  submit_error_ : bool;
  prefer_albumartist_ : bool;
  refresh_login_timer_ : QTimer.t;
  timer_submit_ : QTimer.t;
  replies_ : list nat;
  connected : gmap nat Slot;
  posted : list Request;
  next_reply : nat;
  settings_ : ScrobblerSettings.t;
  store : gmap string QVariant;
  emitted : list Signal
}.

Definition set_cache_ (v : ScrobblerCache.t) (s : ListenBrainzScrobbler) : ListenBrainzScrobbler :=
  mkScrobbler v (server_ s) (enabled_ s) (user_token_ s) (session_ s) (submitted_ s)
    (playback_ s) (submit_error_ s) (prefer_albumartist_ s) (refresh_login_timer_ s)
    (timer_submit_ s) (replies_ s) (connected s) (posted s) (next_reply s) (settings_ s)
    (store s) (emitted s).

Definition set_server_ (v : option LocalRedirectServer.t) (s : ListenBrainzScrobbler) : ListenBrainzScrobbler :=
  mkScrobbler (cache_ s) v (enabled_ s) (user_token_ s) (session_ s) (submitted_ s)
    (playback_ s) (submit_error_ s) (prefer_albumartist_ s) (refresh_login_timer_ s)
    (timer_submit_ s) (replies_ s) (connected s) (posted s) (next_reply s) (settings_ s)
    (store s) (emitted s).

Definition set_enabled_ (v : bool) (s : ListenBrainzScrobbler) : ListenBrainzScrobbler :=
  mkScrobbler (cache_ s) (server_ s) v (user_token_ s) (session_ s) (submitted_ s)
    (playback_ s) (submit_error_ s) (prefer_albumartist_ s) (refresh_login_timer_ s)
    (timer_submit_ s) (replies_ s) (connected s) (posted s) (next_reply s) (settings_ s)
    (store s) (emitted s).

Definition set_user_token_ (v : string) (s : ListenBrainzScrobbler) : ListenBrainzScrobbler :=
  mkScrobbler (cache_ s) (server_ s) (enabled_ s) v (session_ s) (submitted_ s)
    (playback_ s) (submit_error_ s) (prefer_albumartist_ s) (refresh_login_timer_ s)
    (timer_submit_ s) (replies_ s) (connected s) (posted s) (next_reply s) (settings_ s)
    (store s) (emitted s).

Definition set_session_ (v : Session) (s : ListenBrainzScrobbler) : ListenBrainzScrobbler :=
  mkScrobbler (cache_ s) (server_ s) (enabled_ s) (user_token_ s) v (submitted_ s)
    (playback_ s) (submit_error_ s) (prefer_albumartist_ s) (refresh_login_timer_ s)
    (timer_submit_ s) (replies_ s) (connected s) (posted s) (next_reply s) (settings_ s)
    (store s) (emitted s).

Definition set_submitted_ (v : bool) (s : ListenBrainzScrobbler) : ListenBrainzScrobbler :=
  mkScrobbler (cache_ s) (server_ s) (enabled_ s) (user_token_ s) (session_ s) v
    (playback_ s) (submit_error_ s) (prefer_albumartist_ s) (refresh_login_timer_ s)
    (timer_submit_ s) (replies_ s) (connected s) (posted s) (next_reply s) (settings_ s)
    (store s) (emitted s).

Definition set_playback_ (v : Playback) (s : ListenBrainzScrobbler) : ListenBrainzScrobbler :=
  mkScrobbler (cache_ s) (server_ s) (enabled_ s) (user_token_ s) (session_ s)
    (submitted_ s) v (submit_error_ s) (prefer_albumartist_ s) (refresh_login_timer_ s)
    (timer_submit_ s) (replies_ s) (connected s) (posted s) (next_reply s) (settings_ s)
    (store s) (emitted s).

Definition set_submit_error_ (v : bool) (s : ListenBrainzScrobbler) : ListenBrainzScrobbler :=
  mkScrobbler (cache_ s) (server_ s) (enabled_ s) (user_token_ s) (session_ s)
    (submitted_ s) (playback_ s) v (prefer_albumartist_ s) (refresh_login_timer_ s)
    (timer_submit_ s) (replies_ s) (connected s) (posted s) (next_reply s) (settings_ s)
    (store s) (emitted s).

Definition set_prefer_albumartist_ (v : bool) (s : ListenBrainzScrobbler) : ListenBrainzScrobbler :=
  mkScrobbler (cache_ s) (server_ s) (enabled_ s) (user_token_ s) (session_ s)
    (submitted_ s) (playback_ s) (submit_error_ s) v (refresh_login_timer_ s)
    (timer_submit_ s) (replies_ s) (connected s) (posted s) (next_reply s) (settings_ s)
    (store s) (emitted s).

Definition set_refresh_login_timer_ (v : QTimer.t) (s : ListenBrainzScrobbler) : ListenBrainzScrobbler :=
  mkScrobbler (cache_ s) (server_ s) (enabled_ s) (user_token_ s) (session_ s)
    (submitted_ s) (playback_ s) (submit_error_ s) (prefer_albumartist_ s) v
    (timer_submit_ s) (replies_ s) (connected s) (posted s) (next_reply s) (settings_ s)
    (store s) (emitted s).

Definition set_timer_submit_ (v : QTimer.t) (s : ListenBrainzScrobbler) : ListenBrainzScrobbler :=
  mkScrobbler (cache_ s) (server_ s) (enabled_ s) (user_token_ s) (session_ s)
    (submitted_ s) (playback_ s) (submit_error_ s) (prefer_albumartist_ s)
    (refresh_login_timer_ s) v (replies_ s) (connected s) (posted s) (next_reply s)
    (settings_ s) (store s) (emitted s).

Definition set_replies_ (v : list nat) (s : ListenBrainzScrobbler) : ListenBrainzScrobbler :=
  mkScrobbler (cache_ s) (server_ s) (enabled_ s) (user_token_ s) (session_ s)
    (submitted_ s) (playback_ s) (submit_error_ s) (prefer_albumartist_ s)
    (refresh_login_timer_ s) (timer_submit_ s) v (connected s) (posted s) (next_reply s)
    (settings_ s) (store s) (emitted s).

Definition set_connected (v : gmap nat Slot) (s : ListenBrainzScrobbler) : ListenBrainzScrobbler :=
  mkScrobbler (cache_ s) (server_ s) (enabled_ s) (user_token_ s) (session_ s)
    (submitted_ s) (playback_ s) (submit_error_ s) (prefer_albumartist_ s)
    (refresh_login_timer_ s) (timer_submit_ s) (replies_ s) v (posted s) (next_reply s)
    (settings_ s) (store s) (emitted s).

Definition set_posted (v : list Request) (s : ListenBrainzScrobbler) : ListenBrainzScrobbler :=
  mkScrobbler (cache_ s) (server_ s) (enabled_ s) (user_token_ s) (session_ s)
    (submitted_ s) (playback_ s) (submit_error_ s) (prefer_albumartist_ s)
    (refresh_login_timer_ s) (timer_submit_ s) (replies_ s) (connected s) v
    (next_reply s) (settings_ s) (store s) (emitted s).

Definition set_next_reply (v : nat) (s : ListenBrainzScrobbler) : ListenBrainzScrobbler :=
  mkScrobbler (cache_ s) (server_ s) (enabled_ s) (user_token_ s) (session_ s)
    (submitted_ s) (playback_ s) (submit_error_ s) (prefer_albumartist_ s)
    (refresh_login_timer_ s) (timer_submit_ s) (replies_ s) (connected s) (posted s) v
    (settings_ s) (store s) (emitted s).

Definition set_settings_ (v : ScrobblerSettings.t) (s : ListenBrainzScrobbler) : ListenBrainzScrobbler :=
  mkScrobbler (cache_ s) (server_ s) (enabled_ s) (user_token_ s) (session_ s)
    (submitted_ s) (playback_ s) (submit_error_ s) (prefer_albumartist_ s)
    (refresh_login_timer_ s) (timer_submit_ s) (replies_ s) (connected s) (posted s)
    (next_reply s) v (store s) (emitted s).

Definition set_store (v : gmap string QVariant) (s : ListenBrainzScrobbler) : ListenBrainzScrobbler :=
  mkScrobbler (cache_ s) (server_ s) (enabled_ s) (user_token_ s) (session_ s)
    (submitted_ s) (playback_ s) (submit_error_ s) (prefer_albumartist_ s)
    (refresh_login_timer_ s) (timer_submit_ s) (replies_ s) (connected s) (posted s)
    (next_reply s) (settings_ s) v (emitted s).

Definition set_emitted (v : list Signal) (s : ListenBrainzScrobbler) : ListenBrainzScrobbler :=
  mkScrobbler (cache_ s) (server_ s) (enabled_ s) (user_token_ s) (session_ s)
    (submitted_ s) (playback_ s) (submit_error_ s) (prefer_albumartist_ s)
    (refresh_login_timer_ s) (timer_submit_ s) (replies_ s) (connected s) (posted s)
    (next_reply s) (settings_ s) (store s) v.

(** ** Member functions *)

Definition kOAuthAccessTokenUrl : string := "https://musicbrainz.org/oauth2/token".
Definition kApiUrl : string := "https://api.listenbrainz.org".
(** [QByteArray::fromBase64] of [kClientIDB64] and [kClientSecretB64]. *)
Definition kClientID : string := "oeAUNwqSQer0er09Fiqi0Q".
Definition kClientSecret : string := "ROFghkeQ3F3oPyEhqiyWPA".

Definition emit (sig : Signal) (s : ListenBrainzScrobbler) : ListenBrainzScrobbler :=
  set_emitted (emitted s ++ [sig]) s.

Definition AuthError (error : string) (s : ListenBrainzScrobbler) : ListenBrainzScrobbler :=
  emit (AuthenticationComplete false error) s.

Definition Error (error : string) (s : ListenBrainzScrobbler) : ListenBrainzScrobbler :=
  if ScrobblerSettings.show_error_dialog (settings_ s)
  then emit (ErrorMessage ("ListenBrainz error: " +:+ error)) s
  else s.

(** [ReloadSettings]; [albumartist] is the value read from the settings group
    of the scrobbler settings page. *)
Definition ReloadSettings (albumartist : option QVariant) (s : ListenBrainzScrobbler)
  : ListenBrainzScrobbler :=
  let s := set_enabled_ (Variant.toBool (value (store s) "enabled" (Some (VBool false)))) s in
  let s := set_user_token_ (Variant.toString (value (store s) "user_token" None)) s in
  set_prefer_albumartist_
    (Variant.toBool (match albumartist with Some v => Some v | None => Some (VBool false) end)) s.

(** [LoadSession]; [now] is [QDateTime::currentDateTime().toSecsSinceEpoch()]. *)
Definition LoadSession (now : Z) (s : ListenBrainzScrobbler) : ListenBrainzScrobbler :=
  let st := store s in
  let s := set_session_
    (mkSession (Variant.toString (value st "access_token" None))
               (Variant.toInt (value st "expires_in" (Some (VInt (-1)))))
               (Variant.toString (value st "token_type" None))
               (Variant.toString (value st "refresh_token" None))
               (Variant.toLongLong (value st "login_time" None))) s in
  if negb (isEmpty (refresh_token_ (session_ s))) then
    let time := (expires_in_ (session_ s) - (now - login_time_ (session_ s)))%Z in
    let time := if (time <? 6)%Z then 6%Z else time in
    set_refresh_login_timer_
      (QTimer.start
         (QTimer.setInterval (to_int (time * kMsecPerSec)) (refresh_login_timer_ s))) s
  else s.

Definition Logout (s : ListenBrainzScrobbler) : ListenBrainzScrobbler :=
  let s := set_session_ (mkSession "" (-1) "" "" 0) s in
  set_store
    (delete "refresh_token"
       (delete "token_type" (delete "expires_in" (delete "access_token" (store s))))) s.

(** [network_->post] together with [replies_ << reply]: the reply is a new
    address. *)
Definition CreateReply (req : Request) (s : ListenBrainzScrobbler)
  : nat * ListenBrainzScrobbler :=
  let reply := next_reply s in
  (reply,
   set_replies_ (replies_ s ++ [reply])
     (set_next_reply (S reply) (set_posted (posted s ++ [req]) s))).

(** [QObject::connect(reply, &QNetworkReply::finished, this, slot)]. *)
Definition connect (reply : nat) (slot : Slot) (s : ListenBrainzScrobbler)
  : ListenBrainzScrobbler :=
  set_connected (<[reply := slot]> (connected s)) s.

(** The opening of every reply handler: [replies_.removeAll(reply)] and
    [QObject::disconnect(reply, nullptr, this, nullptr)]. *)
Definition take_reply (reply : nat) (s : ListenBrainzScrobbler) : ListenBrainzScrobbler :=
  set_connected (delete reply (connected s))
    (set_replies_ (filter (λ r, r ≠ reply) (replies_ s)) s).

Definition GetJsonObject (reply : QNetworkReply.t) (s : ListenBrainzScrobbler)
  : ReplyResult * gmap string QJsonValue * string * ListenBrainzScrobbler :=
  let err := QNetworkReply.error reply in
  let '(reply_error_type, error_description) :=
    if (err =? NoError)%Z then
      if (QNetworkReply.HttpStatusCode reply =? 200)%Z then (Success, "")
      else (ServerError, "Received HTTP code " +:+ pretty (QNetworkReply.HttpStatusCode reply))
    else (ServerError, QNetworkReply.errorString reply +:+ " (" +:+ pretty err +:+ ")") in
  if (err =? NoError)%Z || (200 <=? err)%Z then
    let '(reply_error_type, json_obj, error_description) :=
      match QNetworkReply.readAll reply with
      | DataEmpty => (reply_error_type, ∅, error_description)
      | DataInvalid e => (reply_error_type, ∅, e)
      | DataObject json_obj =>
        if Json.contains json_obj "error" && Json.contains json_obj "error_description" then
          (APIError, json_obj, Json.toString (json_obj !! "error_description"))
        else if Json.contains json_obj "code" && Json.contains json_obj "error" then
          (APIError, json_obj,
           Json.toString (json_obj !! "error") +:+ " (" +:+
             pretty (Json.toInt (json_obj !! "code")) +:+ ")")
        else (reply_error_type, json_obj, error_description)
      end in
    let s :=
      if (err =? ContentAccessDenied)%Z || (err =? ContentOperationNotPermittedError)%Z
         || (err =? AuthenticationRequiredError)%Z
      then Logout s (* Session is probably expired *)
      else s in
    (reply_error_type, json_obj, error_description, s)
  else (reply_error_type, ∅, error_description, s).

(** The loop of [Submit] over [all_cache_items]: [continue] moves on to the
    rest of the list, [break] returns.  An address without an object cannot
    occur behind a shared pointer; the loop passes over it. *)
Fixpoint Submit_loop (all_cache_items : list nat) (c : ScrobblerCache.t)
    (cache_items_sent : list nat) (array : list (Z * ScrobbleMetadata.t))
  : ScrobblerCache.t * list nat * list (Z * ScrobbleMetadata.t) :=
  match all_cache_items with
  | [] => (c, cache_items_sent, array)
  | cache_item :: rest =>
    match ScrobblerCache.objects c !! cache_item with
    | None => Submit_loop rest c cache_items_sent array
    | Some item =>
      if ScrobblerCacheItem.sent item then Submit_loop rest c cache_items_sent array
      else if ScrobblerCacheItem.error item && (0 <? length cache_items_sent) then
        (c, cache_items_sent, array)
      else
        let c := ScrobblerCache.write cache_item (ScrobblerCacheItem.set_sent true item) c in
        let cache_items_sent := cache_items_sent ++ [cache_item] in
        let array :=
          array ++ [(ScrobblerCacheItem.timestamp item, ScrobblerCacheItem.metadata item)] in
        if (kScrobblesPerRequest <=? length cache_items_sent) || ScrobblerCacheItem.error item
        then (c, cache_items_sent, array)
        else Submit_loop rest c cache_items_sent array
    end
  end.

Section Members.

(** [authenticated()] is declared in the header, which is not part of the
    sources at hand; it is a parameter of the development. *)
Variable authenticated : ListenBrainzScrobbler → bool.

(** The default value of the parameter [initial] of [StartSubmit], given in
    the header as well. *)
Variable initial_default : bool.

Definition enabled (s : ListenBrainzScrobbler) : bool := enabled_ s.

Definition Submit (s : ListenBrainzScrobbler) : ListenBrainzScrobbler :=
  if negb (enabled s) || negb (authenticated s) || ScrobblerSettings.offline (settings_ s)
  then s
  else
    let '(c, cache_items_sent, array) :=
      Submit_loop (ScrobblerCache.List (cache_ s)) (cache_ s) [] [] in
    let s := set_cache_ c s in
    if (length cache_items_sent <=? 0) then s
    else
      let s := set_submitted_ true s in
      let '(reply, s) :=
        CreateReply (mkRequest (kApiUrl +:+ "/1/submit-listens") (Import array)) s in
      connect reply (ScrobbleRequestFinishedSlot cache_items_sent) s.

Definition StartSubmit (initial : bool) (s : ListenBrainzScrobbler) : ListenBrainzScrobbler :=
  if negb (submitted_ s) && (0 <? ScrobblerCache.Count (cache_ s)) then
    if initial && (ScrobblerSettings.submit_delay (settings_ s) <=? 0)%Z
       && negb (submit_error_ s) then
      let s :=
        if QTimer.isActive (timer_submit_ s)
        then set_timer_submit_ (QTimer.stop (timer_submit_ s)) s
        else s in
      Submit s
    else if negb (QTimer.isActive (timer_submit_ s)) then
      let submit_delay :=
        to_int (Z.max (ScrobblerSettings.submit_delay (settings_ s))
                      (if submit_error_ s then 30 else 5) * kMsecPerSec) in
      set_timer_submit_ (QTimer.start (QTimer.setInterval submit_delay (timer_submit_ s))) s
    else s
  else s.

Definition RequestAccessToken (redirect_url : QUrl.t) (code : string)
    (s : ListenBrainzScrobbler) : ListenBrainzScrobbler :=
  let s := set_refresh_login_timer_ (QTimer.stop (refresh_login_timer_ s)) s in
  let params := [("client_id", kClientID); ("client_secret", kClientSecret)] in
  let grant :=
    if negb (isEmpty code) && negb (QUrl.isEmpty redirect_url) then
      Some [("grant_type", "authorization_code"); ("code", code);
            ("redirect_uri", QUrl.toString redirect_url)]
    else if negb (isEmpty (refresh_token_ (session_ s))) && enabled_ s then
      Some [("grant_type", "refresh_token");
            ("refresh_token", refresh_token_ (session_ s))]
    else None in
  match grant with
  | None => s
  | Some g =>
    let '(reply, s) := CreateReply (mkRequest kOAuthAccessTokenUrl (TokenRequest (params ++ g))) s in
    connect reply AuthenticateReplyFinishedSlot s
  end.

(** Modelled from the spec: [RequestNewAccessToken], the slot of the refresh
    timer, is defined in the header: if a refresh token is held and the
    service is enabled it repeats the exchange with the refresh token,
    otherwise it does nothing. *)
Definition RequestNewAccessToken (s : ListenBrainzScrobbler) : ListenBrainzScrobbler :=
  RequestAccessToken QUrl.empty "" s.

Definition RedirectArrived (s : ListenBrainzScrobbler) : ListenBrainzScrobbler :=
  match server_ s with
  | None => s
  | Some server =>
    let s :=
      if isEmpty (LocalRedirectServer.error server) then
        let url := LocalRedirectServer.request_url server in
        if QUrl.isValid url then
          if QUrl.hasQueryItem url "error" then
            AuthError (QUrl.queryItemValue url "error") s
          else if QUrl.hasQueryItem url "code" then
            RequestAccessToken url (QUrl.queryItemValue url "code") s
          else AuthError "Redirect missing token code!" s
        else AuthError "Received invalid reply from web browser." s
      else AuthError (LocalRedirectServer.error server) s in
    set_server_ None s
  end.

(** [Authenticate]: [listening] is the redirect server once [Listen] has been
    called on it and [listen_ok] what [Listen] returned.  Opening the browser
    leaves the object as it is. *)
Definition Authenticate (listening : LocalRedirectServer.t) (listen_ok : bool)
    (s : ListenBrainzScrobbler) : ListenBrainzScrobbler :=
  match server_ s with
  | Some _ => s
  | None =>
    if negb listen_ok then
      set_server_ None (AuthError (LocalRedirectServer.error listening) (set_server_ (Some listening) s))
    else set_server_ (Some listening) s
  end.

Definition AuthenticateReplyFinished (reply : nat) (r : QNetworkReply.t) (now : Z)
    (s : ListenBrainzScrobbler) : ListenBrainzScrobbler :=
  if negb (bool_decide (reply ∈ replies_ s)) then s
  else
    let s := take_reply reply s in
    let '(result, json_obj, error_message, s) := GetJsonObject r s in
    if negb (bool_decide (result = Success)) then AuthError error_message s
    else if negb (Json.contains json_obj "access_token")
            || negb (Json.contains json_obj "expires_in")
            || negb (Json.contains json_obj "token_type") then
      AuthError "Json access_token, expires_in or token_type is missing." s
    else
      let session :=
        mkSession (Json.toString (json_obj !! "access_token"))
                  (Json.toInt (json_obj !! "expires_in"))
                  (Json.toString (json_obj !! "token_type"))
                  (if Json.contains json_obj "refresh_token"
                   then Json.toString (json_obj !! "refresh_token")
                   else refresh_token_ (session_ s))
                  now in
      let s := set_session_ session s in
      let s :=
        set_store
          (<["login_time" := VInt (login_time_ session)]>
             (<["refresh_token" := VString (refresh_token_ session)]>
                (<["token_type" := VString (token_type_ session)]>
                   (<["expires_in" := VInt (expires_in_ session)]>
                      (<["access_token" := VString (access_token_ session)]> (store s)))))) s in
      let s :=
        if (0 <? expires_in_ session)%Z then
          set_refresh_login_timer_
            (QTimer.start
               (QTimer.setInterval (to_int (expires_in_ session * kMsecPerSec))
                                   (refresh_login_timer_ s))) s
        else s in
      let s := emit (AuthenticationComplete true "") s in
      StartSubmit initial_default s.

Definition Scrobble (song : Song.t) (s : ListenBrainzScrobbler) : ListenBrainzScrobbler :=
  let playing := song_playing_ (playback_ s) in
  if negb (Song.id song =? Song.id playing)%Z
     || negb (bool_decide (Song.url song = Song.url playing))
     || negb (Song.is_metadata_good song) then s
  else
    let s := set_playback_ (mkPlayback playing true (timestamp_ (playback_ s))) s in
    let s := set_cache_ (ScrobblerCache.Add song (timestamp_ (playback_ s)) (cache_ s)) s in
    if ScrobblerSettings.offline (settings_ s) || negb (authenticated s) then s
    else StartSubmit initial_default s.

Definition CheckScrobblePrevSong (now : Z) (s : ListenBrainzScrobbler)
  : ListenBrainzScrobbler :=
  let duration := (now - timestamp_ (playback_ s))%Z in
  let duration := if (duration <? 0)%Z then 0%Z else duration in
  let playing := song_playing_ (playback_ s) in
  if negb (scrobbled_ (playback_ s)) && Song.is_metadata_good playing
     && Song.is_radio playing && (30 <? duration)%Z then
    let song := Song.set_length_nanosec (duration * kNsecPerSec) playing in
    Scrobble song s
  else s.

Definition UpdateNowPlaying (song : Song.t) (now : Z) (s : ListenBrainzScrobbler)
  : ListenBrainzScrobbler :=
  let s := CheckScrobblePrevSong now s in
  let s := set_playback_ (mkPlayback song false now) s in
  if negb (Song.is_metadata_good song) || negb (authenticated s)
     || ScrobblerSettings.offline (settings_ s) then s
  else
    let '(reply, s) :=
      CreateReply (mkRequest (kApiUrl +:+ "/1/submit-listens")
                             (PlayingNow (ScrobbleMetadata.of_song song))) s in
    connect reply UpdateNowPlayingRequestFinishedSlot s.

Definition UpdateNowPlayingRequestFinished (reply : nat) (r : QNetworkReply.t)
    (s : ListenBrainzScrobbler) : ListenBrainzScrobbler :=
  if negb (bool_decide (reply ∈ replies_ s)) then s
  else
    let s := take_reply reply s in
    let '(result, json_obj, error_description, s) := GetJsonObject r s in
    if negb (bool_decide (result = Success)) then Error error_description s
    else if negb (Json.contains json_obj "status") then
      Error "Now playing request is missing status from server." s
    else
      let status := Json.toString (json_obj !! "status") in
      if negb (bool_decide (lower status = "ok")) then
        Error ("Received " +:+ status +:+ " status for now playing.") s
      else s.

Definition ClearPlaying (now : Z) (s : ListenBrainzScrobbler) : ListenBrainzScrobbler :=
  let s := CheckScrobblePrevSong now s in
  set_playback_ (mkPlayback Song.empty false 0) s.

Definition ScrobbleRequestFinished (reply : nat) (r : QNetworkReply.t)
    (cache_items : list nat) (s : ListenBrainzScrobbler) : ListenBrainzScrobbler :=
  if negb (bool_decide (reply ∈ replies_ s)) then s
  else
    let s := take_reply reply s in
    let s := set_submitted_ false s in
    let '(reply_result, json_obj, error_message, s) := GetJsonObject r s in
    let s :=
      if bool_decide (reply_result = Success) then
        let s := set_cache_ (ScrobblerCache.Flush cache_items (cache_ s)) s in
        set_submit_error_ false s
      else
        let s := set_submit_error_ true s in
        if bool_decide (reply_result = APIError) then
          if (length cache_items =? 1) then
            let metadata :=
              ScrobblerCacheItem.metadata <$>
                (head cache_items ≫= λ p, ScrobblerCache.objects (cache_ s) !! p) in
            let s :=
              Error ("Unable to scrobble " +:+
                     default "" (ScrobbleMetadata.effective_albumartist <$> metadata) +:+ " - " +:+
                     default "" (ScrobbleMetadata.title <$> metadata) +:+
                     " because of error: " +:+ error_message) s in
            set_cache_ (ScrobblerCache.Flush cache_items (cache_ s)) s
          else
            let s := Error error_message s in
            let s := set_cache_ (ScrobblerCache.SetError cache_items (cache_ s)) s in
            set_cache_ (ScrobblerCache.ClearSent cache_items (cache_ s)) s
        else
          let s := Error error_message s in
          set_cache_ (ScrobblerCache.ClearSent cache_items (cache_ s)) s in
    StartSubmit initial_default s.

Definition Love (s : ListenBrainzScrobbler) : ListenBrainzScrobbler :=
  let playing := song_playing_ (playback_ s) in
  if negb (Song.is_valid playing) || negb (Song.is_metadata_good playing) then s
  else
    let s := if negb (authenticated s) then emit ShowConfig s else s in
    if isEmpty (Song.musicbrainz_recording_id playing) then
      Error ("Missing MusicBrainz recording ID for " +:+ Song.artist playing +:+ " " +:+
             Song.album playing +:+ " " +:+ Song.title playing) s
    else
      let '(reply, s) :=
        CreateReply (mkRequest (kApiUrl +:+ "/1/feedback/recording-feedback")
                               (RecordingFeedback (Song.musicbrainz_recording_id playing))) s in
      connect reply LoveRequestFinishedSlot s.

Definition LoveRequestFinished (reply : nat) (r : QNetworkReply.t)
    (s : ListenBrainzScrobbler) : ListenBrainzScrobbler :=
  if negb (bool_decide (reply ∈ replies_ s)) then s
  else
    let s := take_reply reply s in
    let '(result, json_obj, error_message, s) := GetJsonObject r s in
    if negb (bool_decide (result = Success)) then Error error_message s
    else s.

(** ** Events *)

(** What can happen to the object: a call of one of its public members, a
    timer running out, or a reply finishing.  A finished reply runs the slot
    connected to it. *)
Inductive Event :=
| CallReloadSettings (albumartist : option QVariant)
| CallLoadSession (now : Z)
| CallLogout
| CallAuthenticate (listening : LocalRedirectServer.t) (listen_ok : bool)
| ServerFinished (server : LocalRedirectServer.t)
| RefreshLoginTimeout
| CallUpdateNowPlaying (song : Song.t) (now : Z)
| CallClearPlaying (now : Z)
| CallScrobble (song : Song.t)
| CallStartSubmit (initial : bool)
| CallSubmit
| SubmitTimeout
| CallLove
| ReplyFinished (reply : nat) (r : QNetworkReply.t) (now : Z).

Definition handle (e : Event) (s : ListenBrainzScrobbler) : ListenBrainzScrobbler :=
  match e with
  | CallReloadSettings albumartist => ReloadSettings albumartist s
  | CallLoadSession now => LoadSession now s
  | CallLogout => Logout s
  | CallAuthenticate listening listen_ok => Authenticate listening listen_ok s
  | ServerFinished server =>
    match server_ s with
    | None => s
    | Some _ => RedirectArrived (set_server_ (Some server) s)
    end
  | RefreshLoginTimeout =>
    if QTimer.isActive (refresh_login_timer_ s) then
      RequestNewAccessToken
        (set_refresh_login_timer_ (QTimer.stop (refresh_login_timer_ s)) s)
    else s
  | CallUpdateNowPlaying song now => UpdateNowPlaying song now s
  | CallClearPlaying now => ClearPlaying now s
  | CallScrobble song => Scrobble song s
  | CallStartSubmit initial => StartSubmit initial s
  | CallSubmit => Submit s
  | SubmitTimeout =>
    if QTimer.isActive (timer_submit_ s) then
      Submit (set_timer_submit_ (QTimer.stop (timer_submit_ s)) s)
    else s
  | CallLove => Love s
  | ReplyFinished reply r now =>
    match connected s !! reply with
    | Some AuthenticateReplyFinishedSlot => AuthenticateReplyFinished reply r now s
    | Some UpdateNowPlayingRequestFinishedSlot => UpdateNowPlayingRequestFinished reply r s
    | Some (ScrobbleRequestFinishedSlot cache_items) =>
      ScrobbleRequestFinished reply r cache_items s
    | Some LoveRequestFinishedSlot => LoveRequestFinished reply r s
    | None => s
    end
  end.

Definition run (events : list Event) (s : ListenBrainzScrobbler) : ListenBrainzScrobbler :=
  foldl (λ s e, handle e s) s events.

(** The preconditions of [Submit]: the service is enabled, the session is
    authenticated, and the user has not declared offline mode. *)
Definition can_submit (s : ListenBrainzScrobbler) : Prop :=
  enabled s = true ∧ authenticated s = true ∧ ScrobblerSettings.offline (settings_ s) = false.

End Members.

(** ** The batch as the specification words it *)

(** The queue as pairs of an address and the record behind it. *)
Definition entries_of (c : ScrobblerCache.t) (l : list nat)
  : list (nat * ScrobblerCacheItem.t) :=
  omap (λ p, (λ i, (p, i)) <$> ScrobblerCache.objects c !! p) l.

Definition entries (c : ScrobblerCache.t) : list (nat * ScrobblerCacheItem.t) :=
  entries_of c (ScrobblerCache.List c).

Fixpoint take_while {A} (f : A → bool) (l : list A) : list A :=
  match l with
  | [] => []
  | x :: r => if f x then x :: take_while f r else []
  end.

Definition unsent (e : nat * ScrobblerCacheItem.t) : bool := negb (ScrobblerCacheItem.sent e.2).
Definition flagged (e : nat * ScrobblerCacheItem.t) : bool := ScrobblerCacheItem.error e.2.

(** The eligible records are the unsent ones, in queue order.  If the first
    eligible record is error-flagged it is the whole batch; otherwise the
    batch is the longest run of eligible records without an error flag, cut
    at ten. *)
Definition batch_spec (queue : list (nat * ScrobblerCacheItem.t)) : list nat :=
  let eligible := filter (λ e, unsent e = true) queue in
  match eligible with
  | [] => []
  | first :: _ =>
    if flagged first then [first.1]
    else (take 10 (take_while (λ e, negb (flagged e)) eligible)).*1
  end.

(** What the loop still adds once [n] records are in the batch. *)
Definition batch_more (n : nat) (queue : list (nat * ScrobblerCacheItem.t)) : list nat :=
  match n with
  | 0 => batch_spec queue
  | _ => (take (10 - n)
            (take_while (λ e, negb (flagged e)) (filter (λ e, unsent e = true) queue))).*1
  end.

(** The batch [Submit] assembles from a cache. *)
Definition Submit_batch (c : ScrobblerCache.t) : list nat :=
  (Submit_loop (ScrobblerCache.List c) c [] []).1.2.

(** The transport errors that invalidate the session: access denied,
    operation not permitted, authentication required. *)
Definition is_auth_error (r : QNetworkReply.t) : bool :=
  (QNetworkReply.error r =? ContentAccessDenied)%Z
  || (QNetworkReply.error r =? ContentOperationNotPermittedError)%Z
  || (QNetworkReply.error r =? AuthenticationRequiredError)%Z.

(** The fields a log-out leaves alone. *)
Definition same_but_session (s s' : ListenBrainzScrobbler) : Prop :=
  cache_ s' = cache_ s ∧ submitted_ s' = submitted_ s ∧ playback_ s' = playback_ s
  ∧ submit_error_ s' = submit_error_ s ∧ timer_submit_ s' = timer_submit_ s
  ∧ settings_ s' = settings_ s ∧ replies_ s' = replies_ s ∧ connected s' = connected s
  ∧ posted s' = posted s ∧ emitted s' = emitted s ∧ enabled_ s' = enabled_ s.

(** The tracked item, the error flag of the last submission and the number
    of records ever enqueued are as before, and the cache is still well
    formed. *)
Definition quiet (s s' : ListenBrainzScrobbler) : Prop :=
  playback_ s' = playback_ s ∧ submit_error_ s' = submit_error_ s
  ∧ ScrobblerCache.fresh (cache_ s') = ScrobblerCache.fresh (cache_ s)
  ∧ (ScrobblerCache.wf (cache_ s) → ScrobblerCache.wf (cache_ s')).

(** [Scrobble] accepts a song that matches the tracked item by identity and
    locator and has adequate metadata. *)
Definition accepts (song : Song.t) (s : ListenBrainzScrobbler) : bool :=
  (Song.id song =? Song.id (song_playing_ (playback_ s)))%Z
  && bool_decide (Song.url song = Song.url (song_playing_ (playback_ s)))
  && Song.is_metadata_good song.

(** The events that replace the tracked item. *)
Definition replaces_tracking (e : Event) : bool :=
  match e with
  | CallUpdateNowPlaying _ _ | CallClearPlaying _ => true
  | _ => false
  end.

Definition is_explicit_scrobble (e : Event) : bool :=
  match e with
  | CallScrobble _ => true
  | _ => false
  end.

(** A redirect that carries no usable code: the listener reports an error,
    the URL is invalid, the query carries an error, or it carries no code. *)
Definition redirect_failed (server : LocalRedirectServer.t) : Prop :=
  let url := LocalRedirectServer.request_url server in
  LocalRedirectServer.error server ≠ ""
  ∨ QUrl.isValid url = false
  ∨ QUrl.hasQueryItem url "error" = true
  ∨ QUrl.hasQueryItem url "code" = false.

(** A reply of the token endpoint that is no success or lacks a required
    field. *)
Definition token_reply_failed (r : QNetworkReply.t) (s : ListenBrainzScrobbler) : Prop :=
  let result := (GetJsonObject r s).1.1.1 in
  let json_obj := (GetJsonObject r s).1.1.2 in
  result ≠ Success
  ∨ Json.contains json_obj "access_token" = false
  ∨ Json.contains json_obj "expires_in" = false
  ∨ Json.contains json_obj "token_type" = false.

(** The events that make a token exchange fail. *)
Inductive exchange_fails (s : ListenBrainzScrobbler) : Event → Prop :=
| redirect_fails (server : LocalRedirectServer.t) :
    is_Some (server_ s) → redirect_failed server →
    exchange_fails s (ServerFinished server)
| token_reply_fails (reply : nat) (r : QNetworkReply.t) (now : Z) :
    connected s !! reply = Some AuthenticateReplyFinishedSlot →
    reply ∈ replies_ s →
    token_reply_failed r s →
    exchange_fails s (ReplyFinished reply r now).

(** Whether a reply belongs to a submission batch. *)
Definition is_batch_reply (s : ListenBrainzScrobbler) (reply : nat) : bool :=
  match connected s !! reply with
  | Some (ScrobbleRequestFinishedSlot _) => true
  | _ => false
  end.

(** The outstanding replies that belong to a submission batch. *)
Definition batches_in_flight (s : ListenBrainzScrobbler) : list nat :=
  filter (λ reply, is_batch_reply s reply = true) (replies_ s).

(** Single flight: [submitted_] says whether a batch is in flight, there is
    exactly one such batch then and none otherwise, and the timer is not
    running while a batch is in flight.  Replies have addresses below the
    next one. *)
Definition single_flight (s : ListenBrainzScrobbler) : Prop :=
  (submitted_ s = true → QTimer.isActive (timer_submit_ s) = false)
  ∧ (if submitted_ s then ∃ reply, batches_in_flight s = [reply]
     else batches_in_flight s = [])
  ∧ (∀ reply, reply ∈ replies_ s → reply < next_reply s).

Definition calls_Submit (e : Event) : bool :=
  match e with
  | CallSubmit => true
  | _ => false
  end.

(** ** Further notions *)

(** What a batch request carries for a record: the time of listening and
    the metadata. *)
Definition listen_of (c : ScrobblerCache.t) (p : nat) : option (Z * ScrobbleMetadata.t) :=
  (λ i, (ScrobblerCacheItem.timestamp i, ScrobblerCacheItem.metadata i))
    <$> ScrobblerCache.objects c !! p.

(** The record behind every address is still there, with its metadata and
    its timestamp. *)
Definition keeps_records (c c' : ScrobblerCache.t) : Prop :=
  ∀ p i, ScrobblerCache.objects c !! p = Some i →
    ∃ i', ScrobblerCache.objects c' !! p = Some i'
          ∧ ScrobblerCacheItem.metadata i' = ScrobblerCacheItem.metadata i
          ∧ ScrobblerCacheItem.timestamp i' = ScrobblerCacheItem.timestamp i.


(** The session after [Logout], and the store after it. *)
Definition logged_out : Session := mkSession "" (-1) "" "" 0.

Definition without_tokens (store : gmap string QVariant) : gmap string QVariant :=
  delete "refresh_token"
    (delete "token_type" (delete "expires_in" (delete "access_token" store))).

(** The token endpoint's reply carries the three fields that are required. *)
Definition has_token_fields (json_obj : gmap string QJsonValue) : bool :=
  Json.contains json_obj "access_token" && Json.contains json_obj "expires_in"
  && Json.contains json_obj "token_type".

(** A redirect that brings a code: no listener error, a valid URL that is
    not empty, no error in the query, and a code that is not empty. *)
Definition brings_code (server : LocalRedirectServer.t) : Prop :=
  let url := LocalRedirectServer.request_url server in
  LocalRedirectServer.error server = ""
  ∧ QUrl.isValid url = true
  ∧ QUrl.isEmpty url = false
  ∧ QUrl.hasQueryItem url "error" = false
  ∧ QUrl.hasQueryItem url "code" = true
  ∧ QUrl.queryItemValue url "code" ≠ "".

(** The request that exchanges a code for tokens. *)
Definition code_request (url : QUrl.t) (code : string) : Request :=
  mkRequest kOAuthAccessTokenUrl
    (TokenRequest [("client_id", kClientID); ("client_secret", kClientSecret);
                   ("grant_type", "authorization_code"); ("code", code);
                   ("redirect_uri", QUrl.toString url)]).

(** The request that exchanges a refresh token for tokens. *)
Definition refresh_request (refresh_token : string) : Request :=
  mkRequest kOAuthAccessTokenUrl
    (TokenRequest [("client_id", kClientID); ("client_secret", kClientSecret);
                   ("grant_type", "refresh_token"); ("refresh_token", refresh_token)]).

(** [QString::split(sep)] with the default behaviour, which keeps empty
    parts: the parts between the separators, one more than the separators. *)
Fixpoint split (sep : Ascii.ascii) (s : string) : list string :=
  match s with
  | EmptyString => [EmptyString]
  | String c rest =>
      if Ascii.eqb c sep then EmptyString :: split sep rest
      else match split sep rest with
           | [] => [String c EmptyString]
           | part :: parts => String c part :: parts
           end
  end.

(** [QStringList::join(sep)]. *)
Fixpoint join (sep : Ascii.ascii) (parts : list string) : string :=
  match parts with
  | [] => EmptyString
  | [part] => part
  | part :: parts => part +:+ String sep (join sep parts)
  end.





(** ** Examples *)

(** A stand-in for [authenticated()]: an access token is held. *)
Definition has_access_token (s : ListenBrainzScrobbler) : bool :=
  negb (isEmpty (access_token_ (session_ s))).

Definition fresh_scrobbler : ListenBrainzScrobbler :=
  mkScrobbler ScrobblerCache.empty None false "" (mkSession "" (-1) "" "" 0) false
    (mkPlayback Song.empty false 0) false false QTimer.idle QTimer.idle []
    ∅ [] 0 (ScrobblerSettings.mk false 0 true) ∅ [].

(** A scrobbler that is enabled and logged in since second 1000. *)
Definition logged_in : ListenBrainzScrobbler :=
  set_enabled_ true
    (set_user_token_ "user"
       (set_session_ (mkSession "access" 3600 "Bearer" "refresh" 1000)
          (set_store
             (<["login_time" := VInt 1000]>
                (<["refresh_token" := VString "refresh"]>
                   (<["token_type" := VString "Bearer"]>
                      (<["expires_in" := VInt 3600]>
                         (<["access_token" := VString "access"]>
                            (<["user_token" := VString "user"]>
                               (<["enabled" := VBool true]> ∅)))))))
             fresh_scrobbler))).

Definition track : Song.t :=
  Song.mk 7 "file:///music/track.flac" true true false "Artist" "Album" "Title" 200000000000 "".

Definition stream : Song.t :=
  Song.mk 8 "http://radio.example/stream" true true true "Station" "" "Live" (-1) "".

Definition ok_item (t : Z) : ScrobblerCacheItem.t :=
  ScrobblerCacheItem.mk (ScrobbleMetadata.of_song track) t false false.

Definition error_item (t : Z) : ScrobblerCacheItem.t :=
  ScrobblerCacheItem.mk (ScrobbleMetadata.of_song track) t false true.

(** A cache holding the given records at the addresses 0, 1, 2, ... *)
Definition cache_of (items : list ScrobblerCacheItem.t) : ScrobblerCache.t :=
  ScrobblerCache.mk (list_to_map (zip (seq 0 (length items)) items))
                    (seq 0 (length items)) (length items).

Definition with_queue (items : list ScrobblerCacheItem.t) (s : ListenBrainzScrobbler)
  : ListenBrainzScrobbler :=
  set_cache_ (cache_of items) s.

(** A stored track and a radio stream are played; their scrobbles go through
    the scheduler, whose parameter [initial] defaults to [false] here. *)
Definition step (e : Event) (s : ListenBrainzScrobbler) : ListenBrainzScrobbler :=
  handle has_access_token false e s.

(** The track has been scrobbled, the timer has run out and the batch with
    the one record is in flight: reply 0 belongs to the now-playing request,
    reply 1 to the batch. *)
Definition in_flight : ListenBrainzScrobbler :=
  run has_access_token false
    [CallUpdateNowPlaying track 100; CallScrobble track; SubmitTimeout] logged_in.

(** A second scrobble arrives while the batch is in flight. *)
Definition in_flight_with_unsent : ListenBrainzScrobbler :=
  step (CallScrobble track) in_flight.

Definition connection_refused : QNetworkReply.t :=
  QNetworkReply.mk 1 "Connection refused" 0 DataEmpty.

Definition authentication_required : QNetworkReply.t :=
  QNetworkReply.mk 204 "Host requires authentication" 401 DataEmpty.

(** A configured delay of 2147484 seconds, a little under 25 days. *)
Definition long_delay : ListenBrainzScrobbler :=
  set_settings_ (ScrobblerSettings.mk false 2147484 true)
    (with_queue [ok_item 1] logged_in).

(** The token stored at second 1000 expires after 2147484 seconds. *)
Definition long_expiry : ListenBrainzScrobbler :=
  set_store (<["expires_in" := VInt 2147484]> (store logged_in)) logged_in.

Definition listening_server : LocalRedirectServer.t :=
  LocalRedirectServer.mk "" QUrl.empty.

Definition denied_redirect : LocalRedirectServer.t :=
  LocalRedirectServer.mk ""
    (QUrl.mk true "http://localhost:1234/?error=access_denied" [("error", "access_denied")]).

Definition code_redirect : LocalRedirectServer.t :=
  LocalRedirectServer.mk ""
    (QUrl.mk true "http://localhost:1234/?code=abc" [("code", "abc")]).

(** The user has been sent to the browser; then the redirect has brought a
    code and the exchange is on its way as reply 0. *)
Definition awaiting_redirect : ListenBrainzScrobbler :=
  step (CallAuthenticate listening_server true) logged_in.

Definition exchanging : ListenBrainzScrobbler :=
  step (ServerFinished code_redirect) awaiting_redirect.

(** The stream is tracked since second 1000. *)
Definition listening : ListenBrainzScrobbler :=
  step (CallUpdateNowPlaying stream 1000) logged_in.

(** The track is tracked since second 100. *)
Definition playing_track : ListenBrainzScrobbler :=
  step (CallUpdateNowPlaying track 100) logged_in.

(** The token endpoint grants a new access token for two hours. *)
Definition token_reply : QNetworkReply.t :=
  QNetworkReply.mk 0 "" 200
    (DataObject (<["access_token" := JString "new"]>
                   (<["expires_in" := JNumber 7200]>
                      (<["token_type" := JString "Bearer"]> ∅)))).

(** Two records wait in the queue of a scrobbler that is logged in. *)
Definition two_queued : ListenBrainzScrobbler :=
  with_queue [ok_item 1; ok_item 2] logged_in.

(** Closing a goal that says that nothing [quiet] speaks of has changed. *)
Ltac quiet_tac := unfold quiet; split_and!; solve [auto].

(** Deciding a decidable proposition by evaluation. *)
Ltac by_evaluation := apply (bool_decide_unpack _); vm_compute; exact I.

(** * Properties *)

(** ** Integers *)

Lemma to_int_small (z : Z) : (-2147483648 ≤ z ≤ INT_MAX)%Z → to_int z = z.
Proof.
  unfold to_int, INT_MAX. intros Hz.
  rewrite Z.mod_small by lia. lia.
Qed.

(** ** The cache *)

Lemma cache_eq (c c' : ScrobblerCache.t) :
  ScrobblerCache.objects c' = ScrobblerCache.objects c →
  ScrobblerCache.scrobbler_cache_ c' = ScrobblerCache.scrobbler_cache_ c →
  ScrobblerCache.fresh c' = ScrobblerCache.fresh c →
  c' = c.
Proof. destruct c, c'; simpl; congruence. Qed.

Lemma entries_of_write (p : nat) (i : ScrobblerCacheItem.t) (c : ScrobblerCache.t)
    (l : list nat) :
  p ∉ l → entries_of (ScrobblerCache.write p i c) l = entries_of c l.
Proof.
  induction l as [|q l IH]; intros Hp; [done|].
  apply not_elem_of_cons in Hp as [Hne Hp].
  specialize (IH Hp). unfold entries_of in *. cbn [omap list_omap].
  rewrite IH. simpl ScrobblerCache.objects.
  by rewrite lookup_insert_ne.
Qed.

Lemma lookup_alter_all (f : ScrobblerCacheItem.t → ScrobblerCacheItem.t)
    (Hf : ∀ i, f (f i) = f i)
    (o : gmap nat ScrobblerCacheItem.t) (l : list nat) (p : nat) :
  foldr (λ q o, alter f q o) o l !! p = (if bool_decide (p ∈ l) then f else id) <$> o !! p.
Proof.
  induction l as [|q l IH]; simpl.
  - by destruct (o !! p).
  - destruct (decide (q = p)) as [->|Hne].
    + rewrite lookup_alter_eq, IH.
      rewrite (bool_decide_eq_true_2 (p ∈ p :: l)) by (by left).
      case_bool_decide; destruct (o !! p); simpl; by rewrite ?Hf.
    + rewrite lookup_alter_ne, IH by done.
      assert (p ∈ q :: l ↔ p ∈ l) as Hiff.
      { rewrite elem_of_cons. split; [intros [->|Hp]; done|by right]. }
      by rewrite (bool_decide_ext _ _ Hiff).
Qed.

Lemma SetError_lookup (l : list nat) (c : ScrobblerCache.t) (p : nat) :
  ScrobblerCache.objects (ScrobblerCache.SetError l c) !! p =
  (if bool_decide (p ∈ l) then ScrobblerCacheItem.set_error true else id)
    <$> ScrobblerCache.objects c !! p.
Proof. by apply lookup_alter_all. Qed.

Lemma ClearSent_lookup (l : list nat) (c : ScrobblerCache.t) (p : nat) :
  ScrobblerCache.objects (ScrobblerCache.ClearSent l c) !! p =
  (if bool_decide (p ∈ l) then ScrobblerCacheItem.set_sent false else id)
    <$> ScrobblerCache.objects c !! p.
Proof. by apply lookup_alter_all. Qed.

Lemma Flush_elem_of (l : list nat) (c : ScrobblerCache.t) (p : nat) :
  p ∈ ScrobblerCache.List (ScrobblerCache.Flush l c) ↔ p ∈ ScrobblerCache.List c ∧ p ∉ l.
Proof. unfold ScrobblerCache.List, ScrobblerCache.Flush. simpl. rewrite list_elem_of_filter. tauto. Qed.

(** Well-formedness of the cache is kept by its operations. *)
Lemma wf_empty : ScrobblerCache.wf ScrobblerCache.empty.
Proof.
  split_and!; [constructor| |].
  - intros p Hp. inversion Hp.
  - intros p [i Hi]. simpl in Hi. by rewrite lookup_empty in Hi.
Qed.

Lemma wf_Add (song : Song.t) (t : Z) (c : ScrobblerCache.t) :
  ScrobblerCache.wf c → ScrobblerCache.wf (ScrobblerCache.Add song t c).
Proof.
  intros (Hnd & Hlive & Hfresh). unfold ScrobblerCache.Add. split_and!; simpl.
  - apply NoDup_app. split_and!; [done| |apply NoDup_singleton].
    intros p Hp ->%list_elem_of_singleton.
    specialize (Hfresh _ (Hlive _ Hp)). lia.
  - intros p [Hp| ->%list_elem_of_singleton]%elem_of_app.
    + destruct (decide (ScrobblerCache.fresh c = p)) as [->|Hne].
      * rewrite lookup_insert_eq. by eexists.
      * rewrite lookup_insert_ne by done. by apply Hlive.
    + rewrite lookup_insert_eq. by eexists.
  - intros p Hp. destruct (decide (ScrobblerCache.fresh c = p)) as [->|Hne]; [lia|].
    rewrite lookup_insert_ne in Hp by done. specialize (Hfresh _ Hp). lia.
Qed.

Lemma wf_Flush (l : list nat) (c : ScrobblerCache.t) :
  ScrobblerCache.wf c → ScrobblerCache.wf (ScrobblerCache.Flush l c).
Proof.
  intros (Hnd & Hlive & Hfresh). unfold ScrobblerCache.Flush. split_and!; simpl.
  - by apply NoDup_filter.
  - intros p [_ Hp]%list_elem_of_filter. by apply Hlive.
  - done.
Qed.

Lemma wf_same_domain (c c' : ScrobblerCache.t) :
  ScrobblerCache.scrobbler_cache_ c' = ScrobblerCache.scrobbler_cache_ c →
  ScrobblerCache.fresh c' = ScrobblerCache.fresh c →
  (∀ p, is_Some (ScrobblerCache.objects c' !! p) ↔ is_Some (ScrobblerCache.objects c !! p)) →
  ScrobblerCache.wf c → ScrobblerCache.wf c'.
Proof.
  intros Hl Hf Hdom (Hnd & Hlive & Hfresh). unfold ScrobblerCache.wf.
  rewrite Hl, Hf. split_and!; [done| |].
  - intros p Hp. apply Hdom. by apply Hlive.
  - intros p Hp. apply Hfresh. by apply Hdom.
Qed.

Lemma wf_SetError (l : list nat) (c : ScrobblerCache.t) :
  ScrobblerCache.wf c → ScrobblerCache.wf (ScrobblerCache.SetError l c).
Proof.
  apply wf_same_domain; [done|done|].
  intros p. rewrite SetError_lookup. by rewrite fmap_is_Some.
Qed.

Lemma wf_ClearSent (l : list nat) (c : ScrobblerCache.t) :
  ScrobblerCache.wf c → ScrobblerCache.wf (ScrobblerCache.ClearSent l c).
Proof.
  apply wf_same_domain; [done|done|].
  intros p. rewrite ClearSent_lookup. by rewrite fmap_is_Some.
Qed.

(** ** The loop of [Submit] *)

(** The loop leaves the queue as a list alone; it marks the records it adds to
    the batch, which were unsent, and touches no other record. *)
Lemma Submit_loop_effect (l : list nat) :
  ∀ (c : ScrobblerCache.t) (acc : list nat) (arr : list (Z * ScrobbleMetadata.t)),
  ∃ added : list nat,
    (Submit_loop l c acc arr).1.2 = acc ++ added ∧
    ScrobblerCache.scrobbler_cache_ (Submit_loop l c acc arr).1.1 =
      ScrobblerCache.scrobbler_cache_ c ∧
    ScrobblerCache.fresh (Submit_loop l c acc arr).1.1 = ScrobblerCache.fresh c ∧
    (∀ p, p ∈ added →
       p ∈ l ∧
       ∃ i, ScrobblerCache.objects c !! p = Some i ∧ ScrobblerCacheItem.sent i = false ∧
            ScrobblerCache.objects (Submit_loop l c acc arr).1.1 !! p =
              Some (ScrobblerCacheItem.set_sent true i)) ∧
    (∀ p, p ∉ added →
       ScrobblerCache.objects (Submit_loop l c acc arr).1.1 !! p =
       ScrobblerCache.objects c !! p).
Proof.
  induction l as [|q l IH]; intros c acc arr; cbn [Submit_loop].
  { exists []. rewrite app_nil_r. split_and!; try done. intros p Hp. inversion Hp. }
  destruct (ScrobblerCache.objects c !! q) as [item|] eqn:Hq.
  2:{ destruct (IH c acc arr) as (added & ? & ? & ? & Hin & Hout).
      exists added. split_and!; try done. intros p Hp. destruct (Hin p Hp).
      split; [by right|done]. }
  destruct (ScrobblerCacheItem.sent item) eqn:Hsent.
  { destruct (IH c acc arr) as (added & ? & ? & ? & Hin & Hout).
    exists added. split_and!; try done. intros p Hp. destruct (Hin p Hp).
    split; [by right|done]. }
  destruct (ScrobblerCacheItem.error item && (0 <? length acc)) eqn:Hbrk.
  { exists []. rewrite app_nil_r. split_and!; try done. intros p Hp. inversion Hp. }
  set (c1 := ScrobblerCache.write q (ScrobblerCacheItem.set_sent true item) c).
  destruct ((kScrobblesPerRequest <=? length (acc ++ [q])) || ScrobblerCacheItem.error item).
  { exists [q]. simpl. split_and!; try done.
    - intros p ->%list_elem_of_singleton. split; [by left|].
      exists item. by rewrite lookup_insert_eq.
    - intros p Hp%not_elem_of_cons. rewrite lookup_insert_ne; [done|]. by intros ->; destruct Hp. }
  destruct (IH c1 (acc ++ [q])
              (arr ++ [(ScrobblerCacheItem.timestamp item, ScrobblerCacheItem.metadata item)]))
    as (added & Hb & Hl & Hf & Hin & Hout).
  assert (q ∉ added) as Hqa.
  { intros Hqa. destruct (Hin q Hqa) as (_ & i & Hi & Hs & _).
    unfold c1 in Hi. simpl in Hi. rewrite lookup_insert_eq in Hi.
    injection Hi as <-. done. }
  exists (q :: added). split_and!.
  - rewrite Hb. by rewrite <- app_assoc.
  - by rewrite Hl.
  - by rewrite Hf.
  - intros p [->|Hp]%elem_of_cons.
    + split; [by left|]. exists item. split_and!; [done..|].
      rewrite (Hout _ Hqa). unfold c1. simpl. by rewrite lookup_insert_eq.
    + destruct (Hin p Hp) as (Hpl & i & Hi & Hs & Hafter).
      split; [by right|]. exists i. split_and!; [|done..].
      unfold c1 in Hi. simpl in Hi. rewrite lookup_insert_ne in Hi; [done|].
      intros ->. done.
  - intros p Hp. apply not_elem_of_cons in Hp as [Hne Hp].
    rewrite (Hout _ Hp). unfold c1. simpl. by rewrite lookup_insert_ne.
Qed.

(** An empty batch means that nothing was marked. *)
Lemma Submit_loop_empty (c : ScrobblerCache.t) :
  Submit_batch c = [] → (Submit_loop (ScrobblerCache.List c) c [] []).1.1 = c.
Proof.
  unfold Submit_batch. intros Hb.
  destruct (Submit_loop_effect (ScrobblerCache.List c) c [] [])
    as (added & Hadd & Hl & Hf & _ & Hout).
  rewrite Hb in Hadd. simpl in Hadd. subst added.
  apply cache_eq; [|done..].
  apply map_eq. intros p. apply Hout. intros Hp. inversion Hp.
Qed.

Lemma wf_Submit_loop (c : ScrobblerCache.t) :
  ScrobblerCache.wf c →
  ScrobblerCache.wf (Submit_loop (ScrobblerCache.List c) c [] []).1.1.
Proof.
  destruct (Submit_loop_effect (ScrobblerCache.List c) c [] [])
    as (added & _ & Hl & Hf & Hin & Hout).
  apply wf_same_domain; [done|done|].
  intros p. destruct (decide (p ∈ added)) as [Hp|Hp].
  - destruct (Hin p Hp) as (_ & i & -> & _ & ->). split; by eexists.
  - by rewrite (Hout p Hp).
Qed.

(** The batch is what the specification describes, also when the loop is
    entered with records already in the batch. *)
Lemma Submit_loop_batch (l : list nat) :
  ∀ (c : ScrobblerCache.t) (acc : list nat) (arr : list (Z * ScrobbleMetadata.t)),
  NoDup l → length acc < 10 →
  (Submit_loop l c acc arr).1.2 = acc ++ batch_more (length acc) (entries_of c l).
Proof.
  induction l as [|q l IH]; intros c acc arr Hnd Hlen.
  { simpl. destruct (length acc); unfold batch_more, batch_spec; simpl;
      rewrite ?take_nil; simpl; by rewrite app_nil_r. }
  apply NoDup_cons in Hnd as [Hq Hnd].
  cbn [Submit_loop]. unfold entries_of. cbn [omap list_omap].
  destruct (ScrobblerCache.objects c !! q) as [item|] eqn:Hobj; simpl fmap; cbv iota beta.
  2:{ by apply IH. }
  destruct (ScrobblerCacheItem.sent item) eqn:Hsent.
  { rewrite IH by done. f_equal.
    unfold batch_more, batch_spec. rewrite filter_cons_False; [done|].
    unfold unsent. simpl. by rewrite Hsent. }
  assert (filter (λ e, unsent e = true)
            ((q, item) :: omap (λ p, (λ i, (p, i)) <$> ScrobblerCache.objects c !! p) l) =
          (q, item) :: filter (λ e, unsent e = true) (entries_of c l)) as Hfil.
  { rewrite filter_cons_True; [done|]. unfold unsent. simpl. by rewrite Hsent. }
  destruct (ScrobblerCacheItem.error item) eqn:Herr; cbn [andb orb].
  - destruct acc as [|a acc]; cbn [length Nat.ltb Nat.leb app fst snd].
    + unfold batch_more, batch_spec. rewrite Hfil. unfold flagged. cbn [snd fst]. by rewrite Herr.
    + unfold batch_more. rewrite Hfil.
      cbn [take_while]. unfold flagged. cbn [snd]. rewrite Herr. cbn [negb].
      rewrite take_nil. by rewrite app_nil_r.
  - rewrite orb_false_r.
    destruct (0 <? length acc) eqn:H0.
    + rewrite length_app. cbn [length].
      destruct (kScrobblesPerRequest <=? length acc + 1) eqn:Hcap.
      * apply Nat.leb_le in Hcap. unfold kScrobblesPerRequest in Hcap.
        assert (length acc = 9) as Hn by lia.
        cbn [fst snd]. rewrite Hn. unfold batch_more. rewrite Hfil.
        cbn [take_while]. unfold flagged. cbn [snd]. rewrite Herr. cbn [negb].
        done.
      * apply Nat.leb_gt in Hcap. unfold kScrobblesPerRequest in Hcap.
        rewrite IH; [|done|rewrite length_app; simpl; lia].
        rewrite entries_of_write by done. rewrite length_app. cbn [length].
        rewrite <- app_assoc. f_equal. cbn [app].
        apply Nat.ltb_lt in H0.
        destruct (length acc) as [|n] eqn:Hn; [lia|].
        unfold batch_more. replace (S n + 1) with (S (S n)) by lia.
        rewrite Hfil.
        cbn [take_while]. unfold flagged at 2. cbn [snd]. rewrite Herr. cbn [negb].
        replace (10 - S n) with (S (10 - S (S n))) by lia. done.
    + apply Nat.ltb_ge in H0. destruct acc; [|simpl in H0; lia].
      cbn [app length]. unfold kScrobblesPerRequest. cbn [Nat.leb].
      rewrite (IH _ [q]); [|done|simpl; lia].
      rewrite entries_of_write by done. cbn [length app].
      unfold batch_more, batch_spec. rewrite Hfil.
      cbn [take_while]. unfold flagged at 2 3. cbn [snd]. rewrite Herr. cbn [negb].
      done.
Qed.

Lemma take_while_all {A} (f : A → bool) (l : list A) :
  (∀ x, x ∈ l → f x = true) → take_while f l = l.
Proof.
  induction l as [|x l IH]; intros H; [done|].
  simpl. rewrite (H x) by (by left). f_equal. apply IH. intros y Hy. apply H. by right.
Qed.

Lemma filter_all {A} (P : A → Prop) `{∀ x, Decision (P x)} (l : list A) :
  (∀ x, x ∈ l → P x) → filter P l = l.
Proof.
  induction l as [|x l IH]; intros HP; [done|].
  rewrite filter_cons_True by (apply HP; by left).
  f_equal. apply IH. intros y Hy. apply HP. by right.
Qed.

Lemma entries_of_live (c : ScrobblerCache.t) (l : list nat) :
  (∀ p, p ∈ l → is_Some (ScrobblerCache.objects c !! p)) →
  (entries_of c l).*1 = l.
Proof.
  induction l as [|p l IH]; intros Hl; [done|].
  unfold entries_of in *. cbn [omap list_omap].
  destruct (Hl p) as [i Hi]; [by left|]. rewrite Hi. cbn [fmap option_fmap option_map].
  rewrite fmap_cons. cbn [fst]. f_equal. apply IH. intros r Hr. apply Hl. by right.
Qed.

Lemma elem_of_entries_of (c : ScrobblerCache.t) (l : list nat) (e : nat * ScrobblerCacheItem.t) :
  e ∈ entries_of c l ↔ e.1 ∈ l ∧ ScrobblerCache.objects c !! e.1 = Some e.2.
Proof.
  unfold entries_of. rewrite list_elem_of_omap. destruct e as [p i]. simpl. split.
  - intros (q & Hq & Heq). destruct (ScrobblerCache.objects c !! q) eqn:E; [|done].
    simpl in Heq. injection Heq as -> ->. done.
  - intros [Hp Hi]. exists p. split; [done|]. by rewrite Hi.
Qed.

Lemma filter_ext_in {A} (P Q : A → Prop) `{!∀ x, Decision (P x), !∀ x, Decision (Q x)}
    (l : list A) :
  (∀ x, x ∈ l → P x ↔ Q x) → filter P l = filter Q l.
Proof.
  induction l as [|a l IH]; intros Hext; [done|].
  assert (filter P l = filter Q l) as Hl.
  { apply IH. intros x Hx. apply Hext. by right. }
  destruct (decide (P a)) as [Ha|Ha].
  - rewrite !filter_cons_True; [by rewrite Hl|by apply Hext; [left|]|done].
  - rewrite !filter_cons_False; [done| |done]. intros Hq. apply Ha, Hext; [by left|done].
Qed.

(** ** The member functions *)

Section Properties.

Variable authenticated : ListenBrainzScrobbler → bool.
Variable initial_default : bool.

Lemma set_cache_id (s : ListenBrainzScrobbler) : set_cache_ (cache_ s) s = s.
Proof. by destruct s. Qed.

Lemma Submit_unfold (s : ListenBrainzScrobbler) :
  can_submit authenticated s →
  Submit authenticated s =
    match Submit_batch (cache_ s) with
    | [] => s
    | batch =>
      let s1 := set_submitted_ true
                  (set_cache_ (Submit_loop (ScrobblerCache.List (cache_ s)) (cache_ s) [] []).1.1 s) in
      connect (next_reply s) (ScrobbleRequestFinishedSlot batch)
        (CreateReply
           (mkRequest (kApiUrl +:+ "/1/submit-listens")
              (Import (Submit_loop (ScrobblerCache.List (cache_ s)) (cache_ s) [] []).2))
           s1).2
    end.
Proof.
  intros (He & Ha & Ho). unfold Submit. rewrite He, Ha, Ho. cbn [negb orb].
  pose proof (Submit_loop_empty (cache_ s)) as Hempty. unfold Submit_batch in *.
  destruct (Submit_loop (ScrobblerCache.List (cache_ s)) (cache_ s) [] []) as [[c b] a].
  cbn [fst snd] in *. destruct b as [|p b]; cbn [length Nat.leb].
  - rewrite Hempty by done. apply set_cache_id.
  - done.
Qed.

(** C2.  With the preconditions of [Submit] met and no record queued twice,
    the batch [Submit] assembles is the one the specification describes: the
    queue is scanned in insertion order, records already sent are skipped, and
    accumulation stops at ten records, or before an error-flagged record when
    the batch is not empty, or right after an error-flagged record that is
    the first eligible one.  A non-empty batch is handed to the slot of the
    request [Submit] posts.  A queue of at least eleven unsent records without
    error flag gives a batch of exactly ten, its first ten; a queue
    [A(ok); B(ok); C(error)] gives the batch [A; B]. *)
Theorem Submit_batch_as_specified (s : ListenBrainzScrobbler) :
  can_submit authenticated s →
  NoDup (ScrobblerCache.List (cache_ s)) →
  let c := cache_ s in
  let batch := Submit_batch c in
  batch = batch_spec (entries c)
  ∧ (batch ≠ [] →
       connected (Submit authenticated s) !! next_reply s =
         Some (ScrobbleRequestFinishedSlot batch))
  ∧ ((∀ p, p ∈ ScrobblerCache.List c →
        ∃ i, ScrobblerCache.objects c !! p = Some i
             ∧ ScrobblerCacheItem.sent i = false ∧ ScrobblerCacheItem.error i = false) →
     11 ≤ ScrobblerCache.Count c →
     batch = take 10 (ScrobblerCache.List c) ∧ length batch = 10)
  ∧ (∀ a b x ia ib ix,
       ScrobblerCache.List c = [a; b; x] →
       ScrobblerCache.objects c !! a = Some ia →
       ScrobblerCache.objects c !! b = Some ib →
       ScrobblerCache.objects c !! x = Some ix →
       ScrobblerCacheItem.sent ia = false → ScrobblerCacheItem.error ia = false →
       ScrobblerCacheItem.sent ib = false → ScrobblerCacheItem.error ib = false →
       ScrobblerCacheItem.sent ix = false → ScrobblerCacheItem.error ix = true →
       batch = [a; b]).
Proof.
  intros Hcan Hnd c batch.
  assert (batch = batch_spec (entries c)) as Hspec.
  { unfold batch, Submit_batch. rewrite Submit_loop_batch by (done || simpl; lia). done. }
  split_and!; [done| | |].
  - intros Hne. rewrite (Submit_unfold _ Hcan). fold c. fold batch.
    destruct batch; [done|]. unfold connect. simpl. by rewrite lookup_insert_eq.
  - intros Hall Hcount. rewrite Hspec. unfold batch_spec, entries.
    rewrite filter_all.
    2:{ intros e [Hin Hobj]%elem_of_entries_of. destruct (Hall _ Hin) as (i & Hi & Hs & _).
        unfold unsent. rewrite Hobj in Hi. injection Hi as ->. by rewrite Hs. }
    assert (Hlive : (entries_of c (ScrobblerCache.List c)).*1 = ScrobblerCache.List c).
    { apply entries_of_live. intros p Hp. destruct (Hall p Hp) as (i & -> & _). done. }
    destruct (entries_of c (ScrobblerCache.List c)) as [|e es] eqn:Hes.
    { unfold ScrobblerCache.Count in Hcount. fold (ScrobblerCache.List c) in Hcount.
      rewrite <- Hlive in Hcount. simpl in Hcount. lia. }
    assert (∀ e', e' ∈ e :: es → flagged e' = false) as Hok.
    { intros e'. rewrite <- Hes. intros [Hin Hobj]%elem_of_entries_of.
      destruct (Hall _ Hin) as (i & Hi & _ & He). unfold flagged.
      rewrite Hobj in Hi. injection Hi as ->. done. }
    rewrite (Hok e) by (by left).
    rewrite take_while_all.
    2:{ intros e' He'. by rewrite (Hok e' He'). }
    rewrite fmap_take, Hlive. split; [done|].
    rewrite length_take. unfold ScrobblerCache.Count in Hcount.
    fold (ScrobblerCache.List c) in Hcount. lia.
  - intros a b x ia ib ix Hl Ha Hb Hx Hsa Hea Hsb Heb Hsx Hex.
    rewrite Hspec. unfold entries, entries_of. rewrite Hl. cbn [omap list_omap].
    rewrite Ha, Hb, Hx. cbn [fmap option_fmap option_map].
    unfold batch_spec.
    rewrite !filter_cons_True by (unfold unsent; simpl; by rewrite ?Hsa, ?Hsb, ?Hsx).
    rewrite filter_nil. unfold flagged. cbn [snd take_while]. rewrite Hea, Heb, Hex. done.
Qed.
(** What [GetJsonObject] reports depends on the reply alone, and the only
    thing it does to the object is to log out. *)
Lemma GetJsonObject_result (r : QNetworkReply.t) (s s' : ListenBrainzScrobbler) :
  (GetJsonObject r s).1 = (GetJsonObject r s').1.
Proof.
  unfold GetJsonObject.
  repeat match goal with
         | |- context [if ?b then _ else _] => destruct b
         | |- context [match ?d with DataEmpty => _ | _ => _ end] => destruct d
         end; reflexivity.
Qed.

Lemma GetJsonObject_state (r : QNetworkReply.t) (s : ListenBrainzScrobbler) :
  (GetJsonObject r s).2 = if is_auth_error r then Logout s else s.
Proof.
  unfold GetJsonObject, is_auth_error.
  unfold ContentAccessDenied, ContentOperationNotPermittedError,
    AuthenticationRequiredError, NoError.
  destruct (QNetworkReply.error r =? 201)%Z eqn:E1;
  destruct (QNetworkReply.error r =? 202)%Z eqn:E2;
  destruct (QNetworkReply.error r =? 204)%Z eqn:E3;
  destruct (QNetworkReply.error r =? 0)%Z eqn:E0;
  destruct (200 <=? QNetworkReply.error r)%Z eqn:E200;
  try lia; cbn [orb];
  repeat match goal with
         | |- context [if ?b then _ else _] => destruct b
         | |- context [match ?d with DataEmpty => _ | _ => _ end] => destruct d
         end; reflexivity.
Qed.

Lemma GetJsonObject_frame (r : QNetworkReply.t) (s : ListenBrainzScrobbler) :
  same_but_session s (GetJsonObject r s).2.
Proof.
  rewrite GetJsonObject_state. destruct (is_auth_error r); by repeat split.
Qed.

Lemma Submit_frame (s : ListenBrainzScrobbler) :
  let s' := Submit authenticated s in
  ScrobblerCache.scrobbler_cache_ (cache_ s') = ScrobblerCache.scrobbler_cache_ (cache_ s)
  ∧ ScrobblerCache.fresh (cache_ s') = ScrobblerCache.fresh (cache_ s)
  ∧ playback_ s' = playback_ s ∧ submit_error_ s' = submit_error_ s
  ∧ session_ s' = session_ s ∧ store s' = store s ∧ emitted s' = emitted s
  ∧ timer_submit_ s' = timer_submit_ s ∧ settings_ s' = settings_ s.
Proof.
  unfold Submit.
  destruct (negb (enabled s) || negb (authenticated s)
            || ScrobblerSettings.offline (settings_ s)); [by repeat split|].
  destruct (Submit_loop_effect (ScrobblerCache.List (cache_ s)) (cache_ s) [] [])
    as (added & _ & Hl & Hf & _).
  destruct (Submit_loop (ScrobblerCache.List (cache_ s)) (cache_ s) [] []) as [[c b] a].
  cbn [fst snd] in *.
  destruct (length b <=? 0); by repeat split.
Qed.

Lemma StartSubmit_frame (initial : bool) (s : ListenBrainzScrobbler) :
  let s' := StartSubmit authenticated initial s in
  ScrobblerCache.scrobbler_cache_ (cache_ s') = ScrobblerCache.scrobbler_cache_ (cache_ s)
  ∧ ScrobblerCache.fresh (cache_ s') = ScrobblerCache.fresh (cache_ s)
  ∧ playback_ s' = playback_ s ∧ submit_error_ s' = submit_error_ s
  ∧ session_ s' = session_ s ∧ store s' = store s ∧ emitted s' = emitted s
  ∧ settings_ s' = settings_ s.
Proof.
  unfold StartSubmit.
  destruct (negb (submitted_ s) && (0 <? ScrobblerCache.Count (cache_ s)));
    [|by repeat split].
  destruct (initial && (ScrobblerSettings.submit_delay (settings_ s) <=? 0)%Z
            && negb (submit_error_ s)).
  - match goal with |- context [Submit _ ?x] => pose proof (Submit_frame x) as H end.
    destruct (QTimer.isActive (timer_submit_ s)); simpl in *; tauto.
  - destruct (negb (QTimer.isActive (timer_submit_ s))); by repeat split.
Qed.

(** After an error the scheduler never submits at once: all it can do is to
    start the timer, with the floor of 30 seconds. *)
Lemma StartSubmit_errored (initial : bool) (s : ListenBrainzScrobbler) :
  submit_error_ s = true →
  StartSubmit authenticated initial s =
    if negb (submitted_ s) && (0 <? ScrobblerCache.Count (cache_ s))
       && negb (QTimer.isActive (timer_submit_ s))
    then set_timer_submit_
           (QTimer.mk (to_int (Z.max (ScrobblerSettings.submit_delay (settings_ s)) 30
                               * kMsecPerSec)) true) s
    else s.
Proof.
  intros He. unfold StartSubmit. rewrite He. rewrite andb_false_r.
  destruct (negb (submitted_ s) && (0 <? ScrobblerCache.Count (cache_ s))); [|done].
  destruct (negb (QTimer.isActive (timer_submit_ s))); done.
Qed.

Lemma Submit_loop_all_sent (c : ScrobblerCache.t) (l : list nat) :
  ∀ (acc : list nat) (arr : list (Z * ScrobbleMetadata.t)),
  (∀ p i, p ∈ l → ScrobblerCache.objects c !! p = Some i → ScrobblerCacheItem.sent i = true) →
  Submit_loop l c acc arr = (c, acc, arr).
Proof.
  induction l as [|q l IH]; intros acc arr Hall; [done|].
  cbn [Submit_loop].
  destruct (ScrobblerCache.objects c !! q) as [item|] eqn:Hq.
  - rewrite (Hall q item) by (done || by left).
    apply IH. intros p i Hp. apply Hall. by right.
  - apply IH. intros p i Hp. apply Hall. by right.
Qed.

(** C1, as amended.  While a batch is in flight, a call of [Submit] never puts
    a record into its batch that is already marked sent, so no record of
    the batch in flight is sent twice; when every queued record is marked
    sent, the batch is empty and the call changes nothing: no record is
    marked, no request is posted, the state is the same.  The scheduler
    [StartSubmit] does nothing at all while a batch is in flight. *)
Theorem Submit_in_flight (s : ListenBrainzScrobbler) :
  submitted_ s = true →
  (∀ p, p ∈ Submit_batch (cache_ s) →
     ∃ i, ScrobblerCache.objects (cache_ s) !! p = Some i ∧ ScrobblerCacheItem.sent i = false)
  ∧ ((∀ p i, p ∈ ScrobblerCache.List (cache_ s) →
        ScrobblerCache.objects (cache_ s) !! p = Some i → ScrobblerCacheItem.sent i = true) →
     Submit_batch (cache_ s) = [] ∧ Submit authenticated s = s)
  ∧ (∀ initial, StartSubmit authenticated initial s = s).
Proof.
  intros Hsub. split_and!.
  - intros p Hp. unfold Submit_batch in Hp.
    destruct (Submit_loop_effect (ScrobblerCache.List (cache_ s)) (cache_ s) [] [])
      as (added & Hb & _ & _ & Hin & _).
    rewrite Hb in Hp. destruct (Hin p Hp) as (_ & i & Hi & Hs & _). eauto.
  - intros Hall. unfold Submit_batch, Submit.
    rewrite (Submit_loop_all_sent _ _ [] [] Hall). cbn [fst snd length Nat.leb].
    split; [done|].
    destruct (negb (enabled s) || negb (authenticated s)
              || ScrobblerSettings.offline (settings_ s)); [done|].
    apply set_cache_id.
  - intros initial. unfold StartSubmit. by rewrite Hsub.
Qed.

(** C3.  When the reply to a batch arrives, a queued record leaves the queue
    exactly if it belongs to the batch and the reply is a success, or an
    API error for a batch of one.  After an API error for a batch of any other
    size every record of the batch has [error = true] and [sent = false];
    after a transport or server error every record of the batch has
    [sent = false] and its error flag as before.  A reply that is no success
    leaves the records outside the batch as they are. *)
Theorem ScrobbleRequestFinished_outcome (reply : nat) (r : QNetworkReply.t)
    (cache_items : list nat) (s : ListenBrainzScrobbler) :
  reply ∈ replies_ s →
  let result := (GetJsonObject r s).1.1.1 in
  let s' := ScrobbleRequestFinished authenticated initial_default reply r cache_items s in
  (∀ p, p ∈ ScrobblerCache.List (cache_ s) →
     (p ∉ ScrobblerCache.List (cache_ s') ↔
      p ∈ cache_items ∧
      (result = Success ∨ (result = APIError ∧ length cache_items = 1))))
  ∧ (result = APIError → length cache_items ≠ 1 →
     ∀ p, p ∈ cache_items →
       ScrobblerCache.objects (cache_ s') !! p =
       (λ i, ScrobblerCacheItem.set_sent false (ScrobblerCacheItem.set_error true i))
         <$> ScrobblerCache.objects (cache_ s) !! p)
  ∧ (result = ServerError →
     ∀ p, p ∈ cache_items →
       ScrobblerCache.objects (cache_ s') !! p =
       ScrobblerCacheItem.set_sent false <$> ScrobblerCache.objects (cache_ s) !! p)
  ∧ (result ≠ Success →
     ∀ p, p ∉ cache_items →
       ScrobblerCache.objects (cache_ s') !! p = ScrobblerCache.objects (cache_ s) !! p).
Proof.
  intros Hreply result. cbv zeta.
  unfold ScrobbleRequestFinished.
  rewrite (bool_decide_eq_true_2 _ Hreply). cbn [negb].
  set (s0 := set_submitted_ false (take_reply reply s)).
  assert (result = (GetJsonObject r s0).1.1.1) as Hres.
  { unfold result. by rewrite (GetJsonObject_result r s s0). }
  pose proof (GetJsonObject_frame r s0) as (Hc & _).
  destruct (GetJsonObject r s0) as [[[res obj] msg] s1] eqn:HG.
  cbn [fst snd] in Hres, Hc. subst res.
  assert (cache_ s1 = cache_ s) as Hcache by (rewrite Hc; done).
  clearbody result.
  destruct result; simpl bool_decide; cbv iota.
  - (* success *)
    match goal with |- context [StartSubmit _ _ ?x] =>
      pose proof (StartSubmit_frame initial_default x) as (Hl & _) end.
    unfold ScrobblerCache.List. cbn [cache_ set_submit_error_ set_cache_] in Hl.
    split_and!; try done.
    intros p Hp. rewrite Hl. rewrite Hcache.
    change (filter _ _) with (ScrobblerCache.List (ScrobblerCache.Flush cache_items (cache_ s))).
    rewrite Flush_elem_of. split.
    + intros Hn. split; [|by left].
      destruct (decide (p ∈ cache_items)); [done|]. destruct Hn. done.
    + intros [Hin _] [_ Hn]. done.
  - (* transport or server error *)
    unfold Error.
    match goal with |- context [ScrobblerSettings.show_error_dialog ?x] =>
      destruct (ScrobblerSettings.show_error_dialog x) end.
    all: rewrite StartSubmit_errored by done.
    all: match goal with |- context [if ?b then _ else _] => destruct b end.
    all: cbn [cache_ set_timer_submit_ set_cache_ set_submit_error_ emit set_emitted];
      rewrite Hcache; unfold ScrobblerCache.List; cbn [ScrobblerCache.ClearSent
        ScrobblerCache.scrobbler_cache_];
      (split_and!; [|done| |]);
      [ intros p Hp; split; [done| intros [_ [?|[? _]]]; done]
      | intros _ p Hp; rewrite ClearSent_lookup; by rewrite (bool_decide_eq_true_2 _ Hp)
      | intros _ p Hp; rewrite ClearSent_lookup; rewrite (bool_decide_eq_false_2 _ Hp);
        by destruct (ScrobblerCache.objects (cache_ s) !! p) ].
  - (* API error *)
    unfold Error.
    destruct (length cache_items =? 1) eqn:Hone.
    + apply Nat.eqb_eq in Hone.
      match goal with |- context [ScrobblerSettings.show_error_dialog ?x] =>
        destruct (ScrobblerSettings.show_error_dialog x) end.
      all: rewrite StartSubmit_errored by done.
      all: match goal with |- context [if ?b then _ else _] => destruct b end.
      all: cbn [cache_ set_timer_submit_ set_cache_ set_submit_error_ emit set_emitted];
        rewrite Hcache;
        (split_and!; [|done|done|done]);
        intros p Hp; rewrite Flush_elem_of; split;
        [ intros Hn; split; [|by right];
          destruct (decide (p ∈ cache_items)); [done|]; destruct Hn; done
        | intros [Hin _] [_ Hn]; done ].
    + apply Nat.eqb_neq in Hone.
      match goal with |- context [ScrobblerSettings.show_error_dialog ?x] =>
        destruct (ScrobblerSettings.show_error_dialog x) end.
      all: rewrite StartSubmit_errored by done.
      all: match goal with |- context [if ?b then _ else _] => destruct b end.
      all: cbn [cache_ set_timer_submit_ set_cache_ set_submit_error_ emit set_emitted];
        rewrite Hcache; unfold ScrobblerCache.List; cbn [ScrobblerCache.ClearSent
          ScrobblerCache.SetError ScrobblerCache.scrobbler_cache_];
        (split_and!; [| |done|]);
        [ intros p Hp; split; [done| intros [_ [?|[_ ?]]]; done]
        | intros _ _ p Hp; rewrite ClearSent_lookup, SetError_lookup;
          rewrite !(bool_decide_eq_true_2 _ Hp);
          by destruct (ScrobblerCache.objects (cache_ s) !! p)
        | intros _ p Hp; rewrite ClearSent_lookup, SetError_lookup;
          rewrite !(bool_decide_eq_false_2 _ Hp);
          by destruct (ScrobblerCache.objects (cache_ s) !! p) ].
Qed.
Lemma quiet_refl (s : ListenBrainzScrobbler) : quiet s s.
Proof. quiet_tac. Qed.

Lemma wf_Submit (s : ListenBrainzScrobbler) :
  ScrobblerCache.wf (cache_ s) → ScrobblerCache.wf (cache_ (Submit authenticated s)).
Proof.
  intros Hwf. unfold Submit.
  destruct (negb (enabled s) || negb (authenticated s)
            || ScrobblerSettings.offline (settings_ s)); [done|].
  pose proof (wf_Submit_loop _ Hwf) as H.
  destruct (Submit_loop (ScrobblerCache.List (cache_ s)) (cache_ s) [] []) as [[c b] a].
  cbn [fst snd] in *. by destruct (length b <=? 0).
Qed.

Lemma quiet_trans (s1 s2 s3 : ListenBrainzScrobbler) :
  quiet s1 s2 → quiet s2 s3 → quiet s1 s3.
Proof.
  unfold quiet. intros (-> & -> & -> & H1) (-> & -> & -> & H2).
  split_and!; auto.
Qed.

Lemma quiet_Submit (s : ListenBrainzScrobbler) : quiet s (Submit authenticated s).
Proof.
  pose proof (Submit_frame s). pose proof (wf_Submit s). unfold quiet. simpl in *. tauto.
Qed.

Lemma quiet_StartSubmit (initial : bool) (s : ListenBrainzScrobbler) :
  quiet s (StartSubmit authenticated initial s).
Proof.
  pose proof (StartSubmit_frame initial s) as H. unfold quiet. simpl in H.
  split_and!; [tauto..|].
  unfold StartSubmit.
  repeat match goal with |- context [if ?b then _ else _] => destruct b end; try done.
  - apply (wf_Submit (set_timer_submit_ _ s)).
  - apply wf_Submit.
Qed.

Lemma quiet_GetJsonObject (r : QNetworkReply.t) (s : ListenBrainzScrobbler) :
  quiet s (GetJsonObject r s).2.
Proof.
  destruct (GetJsonObject_frame r s) as (Hc & _ & Hp & He & _).
  unfold quiet. by rewrite Hc, Hp, He.
Qed.

Lemma quiet_Error (e : string) (s : ListenBrainzScrobbler) : quiet s (Error e s).
Proof. unfold Error. destruct (ScrobblerSettings.show_error_dialog _); quiet_tac. Qed.

Lemma quiet_RequestAccessToken (u : QUrl.t) (code : string) (s : ListenBrainzScrobbler) :
  quiet s (RequestAccessToken u code s).
Proof.
  unfold RequestAccessToken.
  repeat match goal with |- context [if ?b then _ else _] => destruct b end;
    quiet_tac.
Qed.

Lemma quiet_RedirectArrived (s : ListenBrainzScrobbler) : quiet s (RedirectArrived s).
Proof.
  unfold RedirectArrived. destruct (server_ s) as [server|]; [|apply quiet_refl].
  repeat match goal with |- context [if ?b then _ else _] => destruct b end;
    try quiet_tac.
  pose proof (quiet_RequestAccessToken (LocalRedirectServer.request_url server)
    (QUrl.queryItemValue (LocalRedirectServer.request_url server) "code") s) as H.
  unfold quiet in *. simpl. tauto.
Qed.

Lemma quiet_AuthenticateReplyFinished (reply : nat) (r : QNetworkReply.t) (now : Z)
    (s : ListenBrainzScrobbler) :
  quiet s (AuthenticateReplyFinished authenticated initial_default reply r now s).
Proof.
  unfold AuthenticateReplyFinished.
  destruct (negb (bool_decide (reply ∈ replies_ s))); [apply quiet_refl|].
  pose proof (quiet_GetJsonObject r (take_reply reply s)) as HG.
  destruct (GetJsonObject r (take_reply reply s)) as [[[res obj] msg] s1].
  cbn [snd] in HG.
  destruct (negb (bool_decide (res = Success))); [exact HG|].
  match goal with |- context [if ?b then _ else _] => destruct b end; [exact HG|].
  eapply quiet_trans; [|apply quiet_StartSubmit].
  destruct (0 <? _)%Z; exact HG.
Qed.

Lemma quiet_UpdateNowPlayingRequestFinished (reply : nat) (r : QNetworkReply.t)
    (s : ListenBrainzScrobbler) :
  quiet s (UpdateNowPlayingRequestFinished reply r s).
Proof.
  unfold UpdateNowPlayingRequestFinished.
  destruct (negb (bool_decide (reply ∈ replies_ s))); [apply quiet_refl|].
  pose proof (quiet_GetJsonObject r (take_reply reply s)) as HG.
  destruct (GetJsonObject r (take_reply reply s)) as [[[res obj] msg] s1].
  cbn [snd] in HG.
  repeat match goal with |- context [if ?b then _ else _] => destruct b end;
    try exact HG; (eapply quiet_trans; [|apply quiet_Error]); exact HG.
Qed.

Lemma quiet_LoveRequestFinished (reply : nat) (r : QNetworkReply.t)
    (s : ListenBrainzScrobbler) :
  quiet s (LoveRequestFinished reply r s).
Proof.
  unfold LoveRequestFinished.
  destruct (negb (bool_decide (reply ∈ replies_ s))); [apply quiet_refl|].
  pose proof (quiet_GetJsonObject r (take_reply reply s)) as HG.
  destruct (GetJsonObject r (take_reply reply s)) as [[[res obj] msg] s1].
  cbn [snd] in HG.
  destruct (negb (bool_decide (res = Success))); [|exact HG].
  eapply quiet_trans; [|apply quiet_Error]. exact HG.
Qed.

Lemma quiet_Love (s : ListenBrainzScrobbler) : quiet s (Love authenticated s).
Proof.
  unfold Love.
  destruct (negb _ || negb _); [apply quiet_refl|].
  destruct (isEmpty _).
  - eapply quiet_trans; [|apply quiet_Error]. destruct (negb (authenticated s)); quiet_tac.
  - destruct (negb (authenticated s)); quiet_tac.
Qed.

(** When the reply to a batch has been handled, the error flag says whether
    the reply was a success; the tracked item and the number of records ever
    enqueued are as before. *)
Lemma ScrobbleRequestFinished_flag (reply : nat) (r : QNetworkReply.t)
    (cache_items : list nat) (s : ListenBrainzScrobbler) :
  reply ∈ replies_ s →
  let s' := ScrobbleRequestFinished authenticated initial_default reply r cache_items s in
  submit_error_ s' = negb (bool_decide ((GetJsonObject r s).1.1.1 = Success))
  ∧ playback_ s' = playback_ s
  ∧ ScrobblerCache.fresh (cache_ s') = ScrobblerCache.fresh (cache_ s).
Proof.
  intros Hreply. cbv zeta. unfold ScrobbleRequestFinished.
  rewrite (bool_decide_eq_true_2 _ Hreply). cbn [negb].
  set (s0 := set_submitted_ false (take_reply reply s)).
  rewrite (GetJsonObject_result r s s0).
  pose proof (quiet_GetJsonObject r s0) as (Hp & He & Hf & _).
  destruct (GetJsonObject r s0) as [[[res obj] msg] s1].
  cbn [fst snd] in *.
  match goal with |- context [StartSubmit _ _ ?x] =>
    destruct (quiet_StartSubmit initial_default x) as (Hp' & He' & Hf' & _) end.
  rewrite Hp', He', Hf'. clear Hp' He' Hf'.
  destruct (bool_decide (res = Success)); [by repeat split|].
  unfold Error.
  repeat match goal with |- context [if ?b then _ else _] => destruct b end;
    by repeat split.
Qed.

Lemma Submit_lookup (s : ListenBrainzScrobbler) (p : nat) (i : ScrobblerCacheItem.t) :
  ScrobblerCache.objects (cache_ s) !! p = Some i →
  ∃ i', ScrobblerCache.objects (cache_ (Submit authenticated s)) !! p = Some i'
        ∧ ScrobblerCacheItem.metadata i' = ScrobblerCacheItem.metadata i
        ∧ ScrobblerCacheItem.timestamp i' = ScrobblerCacheItem.timestamp i.
Proof.
  intros Hi. unfold Submit.
  destruct (negb (enabled s) || negb (authenticated s)
            || ScrobblerSettings.offline (settings_ s)); [eauto|].
  destruct (Submit_loop_effect (ScrobblerCache.List (cache_ s)) (cache_ s) [] [])
    as (added & _ & _ & _ & Hin & Hout).
  destruct (Submit_loop (ScrobblerCache.List (cache_ s)) (cache_ s) [] []) as [[c b] a].
  cbn [fst snd] in *.
  assert (∃ i', ScrobblerCache.objects c !! p = Some i'
                ∧ ScrobblerCacheItem.metadata i' = ScrobblerCacheItem.metadata i
                ∧ ScrobblerCacheItem.timestamp i' = ScrobblerCacheItem.timestamp i) as H.
  { destruct (decide (p ∈ added)) as [Hp|Hp].
    - destruct (Hin p Hp) as (_ & j & Hj & _ & Hafter). rewrite Hi in Hj. injection Hj as <-.
      eauto.
    - rewrite (Hout p Hp). eauto. }
  destruct (length b <=? 0); exact H.
Qed.

Lemma StartSubmit_lookup (initial : bool) (s : ListenBrainzScrobbler) (p : nat)
    (i : ScrobblerCacheItem.t) :
  ScrobblerCache.objects (cache_ s) !! p = Some i →
  ∃ i', ScrobblerCache.objects (cache_ (StartSubmit authenticated initial s)) !! p = Some i'
        ∧ ScrobblerCacheItem.metadata i' = ScrobblerCacheItem.metadata i
        ∧ ScrobblerCacheItem.timestamp i' = ScrobblerCacheItem.timestamp i.
Proof.
  intros Hi. unfold StartSubmit.
  destruct (negb (submitted_ s) && (0 <? ScrobblerCache.Count (cache_ s))); [|eauto].
  destruct (initial && (ScrobblerSettings.submit_delay (settings_ s) <=? 0)%Z
            && negb (submit_error_ s)).
  - apply Submit_lookup. by destruct (QTimer.isActive (timer_submit_ s)).
  - destruct (negb (QTimer.isActive (timer_submit_ s))); eauto.
Qed.

Lemma Scrobble_rejected (song : Song.t) (s : ListenBrainzScrobbler) :
  accepts song s = false → Scrobble authenticated initial_default song s = s.
Proof.
  unfold accepts, Scrobble. intros H.
  destruct (Song.id song =? _)%Z, (bool_decide (Song.url song = _)),
    (Song.is_metadata_good song); done.
Qed.

(** An accepted scrobble sets the flag, appends one record that carries the
    song and the start time of the tracked item, and leaves the error flag
    of the last submission alone. *)
Lemma Scrobble_accepted (song : Song.t) (s : ListenBrainzScrobbler) :
  accepts song s = true →
  let s' := Scrobble authenticated initial_default song s in
  playback_ s' =
    mkPlayback (song_playing_ (playback_ s)) true (timestamp_ (playback_ s))
  ∧ submit_error_ s' = submit_error_ s
  ∧ ScrobblerCache.fresh (cache_ s') = S (ScrobblerCache.fresh (cache_ s))
  ∧ ScrobblerCache.List (cache_ s') =
      ScrobblerCache.List (cache_ s) ++ [ScrobblerCache.fresh (cache_ s)]
  ∧ ∃ item, ScrobblerCache.objects (cache_ s') !! ScrobblerCache.fresh (cache_ s) = Some item
            ∧ ScrobblerCacheItem.metadata item = ScrobbleMetadata.of_song song
            ∧ ScrobblerCacheItem.timestamp item = timestamp_ (playback_ s).
Proof.
  unfold accepts, Scrobble. intros H.
  destruct (Song.id song =? _)%Z, (bool_decide (Song.url song = _)),
    (Song.is_metadata_good song); try done.
  cbn [negb orb]. clear H.
  set (s1 := set_cache_ _ _).
  assert (ScrobblerCache.objects (cache_ s1) !! ScrobblerCache.fresh (cache_ s) =
          Some (ScrobblerCacheItem.mk (ScrobbleMetadata.of_song song)
                  (timestamp_ (playback_ s)) false false)) as Hnew.
  { unfold s1. simpl. by rewrite lookup_insert_eq. }
  destruct (ScrobblerSettings.offline (settings_ s1) || negb (authenticated s1)).
  { cbv zeta. split_and!; try done. eauto. }
  cbv zeta.
  destruct (StartSubmit_frame initial_default s1)
    as (Hl & Hf & Hp & He & _).
  destruct (StartSubmit_lookup initial_default s1 _ _ Hnew) as (i' & Hi' & Hm & Ht).
  unfold ScrobblerCache.List. rewrite Hl, Hf, Hp, He.
  split_and!; try done. exists i'. done.
Qed.

Lemma CheckScrobblePrevSong_unfold (now : Z) (s : ListenBrainzScrobbler) :
  let playing := song_playing_ (playback_ s) in
  let elapsed := Z.max (now - timestamp_ (playback_ s)) 0 in
  CheckScrobblePrevSong authenticated initial_default now s =
    if negb (scrobbled_ (playback_ s)) && Song.is_metadata_good playing
       && Song.is_radio playing && (30 <? elapsed)%Z
    then Scrobble authenticated initial_default
           (Song.set_length_nanosec (elapsed * kNsecPerSec) playing) s
    else s.
Proof.
  cbv zeta. unfold CheckScrobblePrevSong.
  replace (if (now - timestamp_ (playback_ s) <? 0)%Z then 0%Z
           else (now - timestamp_ (playback_ s))%Z)
    with (Z.max (now - timestamp_ (playback_ s)) 0); [done|].
  destruct (Z.ltb_spec (now - timestamp_ (playback_ s)) 0); lia.
Qed.

Lemma accepts_playing (len : Z) (s : ListenBrainzScrobbler) :
  Song.is_metadata_good (song_playing_ (playback_ s)) = true →
  accepts (Song.set_length_nanosec len (song_playing_ (playback_ s))) s = true.
Proof.
  intros Hg. unfold accepts. simpl. rewrite Z.eqb_refl, Hg.
  by rewrite bool_decide_eq_true_2.
Qed.

Lemma CheckScrobblePrevSong_scrobbled (now : Z) (s : ListenBrainzScrobbler) :
  scrobbled_ (playback_ s) = true →
  CheckScrobblePrevSong authenticated initial_default now s = s.
Proof. intros H. rewrite CheckScrobblePrevSong_unfold. cbv zeta. by rewrite H. Qed.

Lemma CheckScrobblePrevSong_frame (now : Z) (s : ListenBrainzScrobbler) :
  let s' := CheckScrobblePrevSong authenticated initial_default now s in
  submit_error_ s' = submit_error_ s
  ∧ ScrobblerCache.fresh (cache_ s') ≤ S (ScrobblerCache.fresh (cache_ s)).
Proof.
  cbv zeta. rewrite CheckScrobblePrevSong_unfold. cbv zeta.
  destruct (negb (scrobbled_ (playback_ s))); [|split; [done|simpl; lia]].
  destruct (Song.is_metadata_good (song_playing_ (playback_ s))) eqn:Hg;
    [|split; [done|simpl; lia]].
  destruct (Song.is_radio (song_playing_ (playback_ s))); [|split; [done|simpl; lia]].
  destruct (30 <? _)%Z; [|split; [done|simpl; lia]].
  cbn [negb andb].
  destruct (Scrobble_accepted _ s (accepts_playing
              (Z.max (now - timestamp_ (playback_ s)) 0 * kNsecPerSec) s Hg))
    as (_ & He & Hf & _).
  rewrite He, Hf. split; [done|lia].
Qed.

(** What [UpdateNowPlaying] and [ClearPlaying] do after looking at the
    previous item touches neither the cache nor the error flag. *)
Lemma UpdateNowPlaying_cache (song : Song.t) (now : Z) (s : ListenBrainzScrobbler) :
  cache_ (UpdateNowPlaying authenticated initial_default song now s) =
    cache_ (CheckScrobblePrevSong authenticated initial_default now s)
  ∧ submit_error_ (UpdateNowPlaying authenticated initial_default song now s) =
    submit_error_ (CheckScrobblePrevSong authenticated initial_default now s).
Proof.
  unfold UpdateNowPlaying.
  match goal with |- context [if ?b then _ else _] => destruct b end; done.
Qed.

Lemma ClearPlaying_cache (now : Z) (s : ListenBrainzScrobbler) :
  cache_ (ClearPlaying authenticated initial_default now s) =
    cache_ (CheckScrobblePrevSong authenticated initial_default now s)
  ∧ submit_error_ (ClearPlaying authenticated initial_default now s) =
    submit_error_ (CheckScrobblePrevSong authenticated initial_default now s).
Proof. done. Qed.

(** C8.  Let the tracked item be of radio type with adequate metadata and not
    scrobbled, and let [elapsed] be the time since it started, floored at 0.
    When [ClearPlaying] or [UpdateNowPlaying] looks at it, a record is
    enqueued exactly if [elapsed] exceeds 30 seconds: then the queue grows by
    one record whose metadata is that of the tracked song with a length of
    [elapsed] seconds and whose timestamp is the start of tracking; otherwise
    the cache is as before.  At 45 seconds a record with a length of 45
    seconds is enqueued, at 10 seconds nothing is. *)
Theorem derived_scrobble (now : Z) (s s' : ListenBrainzScrobbler) :
  let playing := song_playing_ (playback_ s) in
  let elapsed := Z.max (now - timestamp_ (playback_ s)) 0 in
  let enqueued (len : Z) :=
    ScrobblerCache.List (cache_ s') =
      ScrobblerCache.List (cache_ s) ++ [ScrobblerCache.fresh (cache_ s)]
    ∧ ∃ item,
        ScrobblerCache.objects (cache_ s') !! ScrobblerCache.fresh (cache_ s) = Some item
        ∧ ScrobblerCacheItem.metadata item =
            ScrobbleMetadata.of_song (Song.set_length_nanosec len playing)
        ∧ ScrobbleMetadata.length_nanosec (ScrobblerCacheItem.metadata item) = len
        ∧ ScrobblerCacheItem.timestamp item = timestamp_ (playback_ s) in
  Song.is_radio playing = true →
  Song.is_metadata_good playing = true →
  scrobbled_ (playback_ s) = false →
  (s' = ClearPlaying authenticated initial_default now s
   ∨ ∃ song, s' = UpdateNowPlaying authenticated initial_default song now s) →
  ((30 < elapsed)%Z → enqueued (elapsed * kNsecPerSec)%Z)
  ∧ ((elapsed ≤ 30)%Z → cache_ s' = cache_ s)
  ∧ (elapsed = 45%Z → enqueued 45000000000%Z)
  ∧ (elapsed = 10%Z → cache_ s' = cache_ s).
Proof.
  intros playing elapsed enqueued Hradio Hgood Hnot Hs'.
  assert (cache_ s' = cache_ (CheckScrobblePrevSong authenticated initial_default now s))
    as Hc.
  { destruct Hs' as [->|[song ->]];
      [apply ClearPlaying_cache|apply UpdateNowPlaying_cache]. }
  rewrite CheckScrobblePrevSong_unfold in Hc. cbv zeta in Hc.
  fold playing elapsed in Hc. rewrite Hnot, Hradio, Hgood in Hc. cbn [negb andb] in Hc.
  assert ((30 < elapsed)%Z → enqueued (elapsed * kNsecPerSec)%Z) as Hlong.
  { intros Hlt. apply Z.ltb_lt in Hlt. rewrite Hlt in Hc.
    destruct (Scrobble_accepted _ s (accepts_playing (elapsed * kNsecPerSec) s Hgood))
      as (_ & _ & _ & Hl & item & Hi & Hm & Ht).
    unfold enqueued. rewrite Hc. split; [done|].
    exists item. split_and!; try done. by rewrite Hm. }
  assert ((elapsed ≤ 30)%Z → cache_ s' = cache_ s) as Hshort.
  { intros Hle. apply Z.ltb_ge in Hle. by rewrite Hle in Hc. }
  split_and!; [done|done| |].
  - intros H45. replace 45000000000%Z with (elapsed * kNsecPerSec)%Z
      by (rewrite H45; done). apply Hlong. lia.
  - intros H10. apply Hshort. lia.
Qed.

Lemma ScrobbleRequestFinished_unknown (reply : nat) (r : QNetworkReply.t)
    (cache_items : list nat) (s : ListenBrainzScrobbler) :
  reply ∉ replies_ s →
  ScrobbleRequestFinished authenticated initial_default reply r cache_items s = s.
Proof.
  intros H. unfold ScrobbleRequestFinished. by rewrite (bool_decide_eq_false_2 _ H).
Qed.

(** Events other than an explicit scrobble and those that replace the tracked
    item leave the tracked item and the number of records ever enqueued alone. *)
Lemma handle_keeps_tracking (e : Event) (s : ListenBrainzScrobbler) :
  replaces_tracking e = false → is_explicit_scrobble e = false →
  playback_ (handle authenticated initial_default e s) = playback_ s
  ∧ ScrobblerCache.fresh (cache_ (handle authenticated initial_default e s)) =
    ScrobblerCache.fresh (cache_ s).
Proof.
  intros Hr He.
  assert (∀ s', quiet s s' →
            playback_ s' = playback_ s
            ∧ ScrobblerCache.fresh (cache_ s') = ScrobblerCache.fresh (cache_ s)) as Hq.
  { intros s' (? & _ & ? & _). done. }
  destruct e; try discriminate; cbn [handle].
  - by unfold ReloadSettings.
  - unfold LoadSession. by destruct (negb (isEmpty _)).
  - done.
  - unfold Authenticate. destruct (server_ s); [done|]. by destruct (negb listen_ok).
  - destruct (server_ s); [|done].
    destruct (quiet_RedirectArrived (set_server_ (Some server) s)) as (? & _ & ? & _). done.
  - destruct (QTimer.isActive (refresh_login_timer_ s)); [|done].
    match goal with |- context [RequestNewAccessToken ?x] =>
      destruct (quiet_RequestAccessToken QUrl.empty "" x) as (? & _ & ? & _) end. done.
  - apply Hq, quiet_StartSubmit.
  - apply Hq, quiet_Submit.
  - destruct (QTimer.isActive (timer_submit_ s)); [|done].
    match goal with |- context [Submit _ ?x] =>
      destruct (quiet_Submit x) as (? & _ & ? & _) end. done.
  - apply Hq, quiet_Love.
  - destruct (connected s !! reply) as [[]|]; [| | | |done].
    + apply Hq, quiet_AuthenticateReplyFinished.
    + apply Hq, quiet_UpdateNowPlayingRequestFinished.
    + destruct (decide (reply ∈ replies_ s)) as [Hin|Hout].
      * destruct (ScrobbleRequestFinished_flag reply r cache_items_sent s Hin) as (_ & ? & ?).
        done.
      * by rewrite ScrobbleRequestFinished_unknown.
    + apply Hq, quiet_LoveRequestFinished.
Qed.

(** No event other than the reply to a batch touches the error flag of the
    last submission. *)
Lemma handle_keeps_flag (e : Event) (s : ListenBrainzScrobbler) :
  (∀ reply r now cache_items,
     e = ReplyFinished reply r now →
     connected s !! reply = Some (ScrobbleRequestFinishedSlot cache_items) →
     reply ∉ replies_ s) →
  submit_error_ (handle authenticated initial_default e s) = submit_error_ s.
Proof.
  intros Hnot.
  assert (∀ s', quiet s s' → submit_error_ s' = submit_error_ s) as Hq.
  { intros s' (_ & ? & _). done. }
  destruct e; cbn [handle].
  - by unfold ReloadSettings.
  - unfold LoadSession. by destruct (negb (isEmpty _)).
  - done.
  - unfold Authenticate. destruct (server_ s); [done|]. by destruct (negb listen_ok).
  - destruct (server_ s); [|done].
    destruct (quiet_RedirectArrived (set_server_ (Some server) s)) as (_ & ? & _). done.
  - destruct (QTimer.isActive (refresh_login_timer_ s)); [|done].
    match goal with |- context [RequestNewAccessToken ?x] =>
      destruct (quiet_RequestAccessToken QUrl.empty "" x) as (_ & ? & _) end. done.
  - destruct (UpdateNowPlaying_cache song now s) as (_ & ->).
    apply CheckScrobblePrevSong_frame.
  - destruct (ClearPlaying_cache now s) as (_ & ->).
    apply CheckScrobblePrevSong_frame.
  - destruct (accepts song s) eqn:Ha.
    + by destruct (Scrobble_accepted song s Ha) as (_ & ? & _).
    + by rewrite Scrobble_rejected.
  - apply Hq, quiet_StartSubmit.
  - apply Hq, quiet_Submit.
  - destruct (QTimer.isActive (timer_submit_ s)); [|done].
    match goal with |- context [Submit _ ?x] =>
      destruct (quiet_Submit x) as (_ & ? & _) end. done.
  - apply Hq, quiet_Love.
  - destruct (connected s !! reply) as [[]|] eqn:Hslot; [| | | |done].
    + apply Hq, quiet_AuthenticateReplyFinished.
    + apply Hq, quiet_UpdateNowPlayingRequestFinished.
    + rewrite ScrobbleRequestFinished_unknown; [done|]. by eapply Hnot.
    + apply Hq, quiet_LoveRequestFinished.
Qed.

Lemma handle_enqueues_at_most_one (e : Event) (s : ListenBrainzScrobbler) :
  ScrobblerCache.fresh (cache_ (handle authenticated initial_default e s))
  ≤ S (ScrobblerCache.fresh (cache_ s)).
Proof.
  destruct (replaces_tracking e) eqn:Hr; [|destruct (is_explicit_scrobble e) eqn:He].
  - destruct e; try discriminate; cbn [handle].
    + destruct (UpdateNowPlaying_cache song now s) as (-> & _).
      apply CheckScrobblePrevSong_frame.
    + destruct (ClearPlaying_cache now s) as (-> & _).
      apply CheckScrobblePrevSong_frame.
  - destruct e; try discriminate; cbn [handle].
    destruct (accepts song s) eqn:Ha.
    + destruct (Scrobble_accepted song s Ha) as (_ & _ & -> & _). lia.
    + rewrite Scrobble_rejected by done. lia.
  - destruct (handle_keeps_tracking e s Hr He) as (_ & ->). lia.
Qed.

Lemma run_keeps_scrobbled (events : list Event) :
  ∀ s : ListenBrainzScrobbler,
  forallb (λ e, negb (replaces_tracking e)) events = true →
  scrobbled_ (playback_ s) = true →
  playback_ (run authenticated initial_default events s) = playback_ s.
Proof.
  induction events as [|e events IH]; intros s Hev Hs; [done|].
  cbn [forallb] in Hev. apply andb_true_iff in Hev as [He Hev].
  apply negb_true_iff in He.
  change (run authenticated initial_default (e :: events) s)
    with (run authenticated initial_default events (handle authenticated initial_default e s)).
  assert (playback_ (handle authenticated initial_default e s) = playback_ s) as Hstep.
  { destruct (is_explicit_scrobble e) eqn:Hx.
    - destruct e; try discriminate. cbn [handle].
      destruct (accepts song s) eqn:Ha.
      + destruct (Scrobble_accepted song s Ha) as (-> & _).
        destruct (playback_ s); simpl in *; by subst.
      + by rewrite Scrobble_rejected.
    - by destruct (handle_keeps_tracking e s He Hx). }
  rewrite IH; [done|done|by rewrite Hstep].
Qed.

(** The cache stays well formed whatever happens; in particular no address
    is ever queued twice. *)
Lemma wf_Scrobble (song : Song.t) (s : ListenBrainzScrobbler) :
  ScrobblerCache.wf (cache_ s) →
  ScrobblerCache.wf (cache_ (Scrobble authenticated initial_default song s)).
Proof.
  intros Hwf. unfold Scrobble.
  match goal with |- context [if ?b then _ else _] => destruct b end; [done|].
  set (s1 := set_cache_ _ _).
  assert (ScrobblerCache.wf (cache_ s1)) as Hwf1 by (by apply wf_Add).
  destruct (ScrobblerSettings.offline (settings_ s1) || negb (authenticated s1)); [done|].
  by apply quiet_StartSubmit.
Qed.

Lemma wf_CheckScrobblePrevSong (now : Z) (s : ListenBrainzScrobbler) :
  ScrobblerCache.wf (cache_ s) →
  ScrobblerCache.wf (cache_ (CheckScrobblePrevSong authenticated initial_default now s)).
Proof.
  intros Hwf. rewrite CheckScrobblePrevSong_unfold. cbv zeta.
  match goal with |- context [if ?b then _ else _] => destruct b end; [|done].
  by apply wf_Scrobble.
Qed.

Lemma wf_ScrobbleRequestFinished (reply : nat) (r : QNetworkReply.t)
    (cache_items : list nat) (s : ListenBrainzScrobbler) :
  ScrobblerCache.wf (cache_ s) →
  ScrobblerCache.wf
    (cache_ (ScrobbleRequestFinished authenticated initial_default reply r cache_items s)).
Proof.
  intros Hwf. unfold ScrobbleRequestFinished.
  destruct (negb (bool_decide (reply ∈ replies_ s))); [done|].
  set (s0 := set_submitted_ false (take_reply reply s)).
  pose proof (GetJsonObject_frame r s0) as (Hc & _).
  destruct (GetJsonObject r s0) as [[[res obj] msg] s1]. cbn [snd] in Hc.
  assert (ScrobblerCache.wf (cache_ s1)) as Hwf1 by (by rewrite Hc).
  apply quiet_StartSubmit. unfold Error.
  repeat match goal with |- context [if ?b then _ else _] => destruct b end;
    cbn [cache_ set_cache_ set_submit_error_ emit set_emitted];
    auto using wf_Flush, wf_SetError, wf_ClearSent.
Qed.

Lemma wf_handle (e : Event) (s : ListenBrainzScrobbler) :
  ScrobblerCache.wf (cache_ s) →
  ScrobblerCache.wf (cache_ (handle authenticated initial_default e s)).
Proof.
  intros Hwf.
  assert (∀ s', quiet s s' → ScrobblerCache.wf (cache_ s')) as Hq.
  { intros s' (_ & _ & _ & H). auto. }
  destruct e; cbn [handle].
  - by unfold ReloadSettings.
  - unfold LoadSession. by destruct (negb (isEmpty _)).
  - done.
  - unfold Authenticate. destruct (server_ s); [done|]. by destruct (negb listen_ok).
  - destruct (server_ s); [|done]. by apply (quiet_RedirectArrived (set_server_ _ s)).
  - destruct (QTimer.isActive (refresh_login_timer_ s)); [|done].
    by apply (quiet_RequestAccessToken QUrl.empty "" (set_refresh_login_timer_ _ s)).
  - destruct (UpdateNowPlaying_cache song now s) as (-> & _).
    by apply wf_CheckScrobblePrevSong.
  - destruct (ClearPlaying_cache now s) as (-> & _).
    by apply wf_CheckScrobblePrevSong.
  - by apply wf_Scrobble.
  - apply Hq, quiet_StartSubmit.
  - apply Hq, quiet_Submit.
  - destruct (QTimer.isActive (timer_submit_ s)); [|done].
    by apply (quiet_Submit (set_timer_submit_ _ s)).
  - apply Hq, quiet_Love.
  - destruct (connected s !! reply) as [[]|]; [| | | |done].
    + apply Hq, quiet_AuthenticateReplyFinished.
    + apply Hq, quiet_UpdateNowPlayingRequestFinished.
    + by apply wf_ScrobbleRequestFinished.
    + apply Hq, quiet_LoveRequestFinished.
Qed.

Lemma wf_run (events : list Event) :
  ∀ s : ListenBrainzScrobbler,
  ScrobblerCache.wf (cache_ s) →
  ScrobblerCache.wf (cache_ (run authenticated initial_default events s)).
Proof.
  induction events as [|e events IH]; intros s Hwf; [done|].
  change (run authenticated initial_default (e :: events) s)
    with (run authenticated initial_default events (handle authenticated initial_default e s)).
  by apply IH, wf_handle.
Qed.

Lemma reachable_queue_NoDup (events : list Event) (s : ListenBrainzScrobbler) :
  cache_ s = ScrobblerCache.empty →
  NoDup (ScrobblerCache.List (cache_ (run authenticated initial_default events s))).
Proof.
  intros Hempty. apply (wf_run events s). rewrite Hempty. apply wf_empty.
Qed.

(** ** Single flight *)

Lemma single_flight_same (s s' : ListenBrainzScrobbler) :
  submitted_ s' = submitted_ s → timer_submit_ s' = timer_submit_ s →
  replies_ s' = replies_ s → connected s' = connected s → next_reply s' = next_reply s →
  single_flight s → single_flight s'.
Proof.
  intros Hs Ht Hr Hc Hn. unfold single_flight, batches_in_flight, is_batch_reply.
  by rewrite Hs, Ht, Hr, Hc, Hn.
Qed.

(** Posting a request adds the reply to the batches in flight exactly if the
    slot connected to it is that of a batch. *)
Lemma batches_post (req : Request) (slot : Slot) (s : ListenBrainzScrobbler) :
  (∀ reply, reply ∈ replies_ s → reply < next_reply s) →
  batches_in_flight (connect (CreateReply req s).1 slot (CreateReply req s).2) =
    batches_in_flight s ++
      match slot with ScrobbleRequestFinishedSlot _ => [next_reply s] | _ => [] end.
Proof.
  intros Hbelow. unfold batches_in_flight, is_batch_reply. simpl.
  rewrite filter_app. f_equal.
  - apply filter_ext_in. intros r Hr.
    rewrite lookup_insert_ne; [done|]. specialize (Hbelow r Hr). lia.
  - rewrite filter_cons, filter_nil. rewrite lookup_insert_eq. by destruct slot.
Qed.

Lemma single_flight_post (req : Request) (slot : Slot) (s : ListenBrainzScrobbler) :
  (∀ batch, slot ≠ ScrobbleRequestFinishedSlot batch) →
  single_flight s →
  single_flight (connect (CreateReply req s).1 slot (CreateReply req s).2).
Proof.
  intros Hslot (Htimer & Hbatch & Hbelow).
  split_and!.
  - exact Htimer.
  - rewrite batches_post by done.
    destruct slot; rewrite ?app_nil_r; try exact Hbatch. by destruct (Hslot cache_items_sent).
  - simpl. intros r [Hr| ->%list_elem_of_singleton]%elem_of_app; [|lia].
    specialize (Hbelow r Hr). lia.
Qed.

(** Taking a reply off the list. *)
Lemma batches_take_reply (reply : nat) (s : ListenBrainzScrobbler) :
  batches_in_flight (take_reply reply s) = filter (λ r, r ≠ reply) (batches_in_flight s).
Proof.
  unfold batches_in_flight, is_batch_reply. simpl.
  rewrite !list_filter_filter.
  apply list_filter_iff. intros r. split.
  - intros [H Hne]. split; [done|]. by rewrite lookup_delete_ne in H.
  - intros [Hne H]. split; [|done]. by rewrite lookup_delete_ne.
Qed.

Lemma take_reply_below (reply : nat) (s : ListenBrainzScrobbler) :
  (∀ r, r ∈ replies_ s → r < next_reply s) →
  ∀ r, r ∈ replies_ (take_reply reply s) → r < next_reply (take_reply reply s).
Proof. intros H r [_ Hr]%list_elem_of_filter. by apply H. Qed.

Lemma single_flight_take_other (reply : nat) (s : ListenBrainzScrobbler) :
  is_batch_reply s reply = false →
  single_flight s → single_flight (take_reply reply s).
Proof.
  intros Hno (Htimer & Hbatch & Hbelow).
  assert (batches_in_flight (take_reply reply s) = batches_in_flight s) as Hsame.
  { rewrite batches_take_reply. unfold batches_in_flight.
    rewrite list_filter_filter. apply list_filter_iff. intros r. split; [tauto|].
    intros Hr. split; [|done]. intros ->. congruence. }
  split_and!; [exact Htimer|by rewrite Hsame|by apply take_reply_below].
Qed.

(** Taking the reply of the batch in flight and clearing [submitted_]. *)
Lemma single_flight_take_batch (reply : nat) (s : ListenBrainzScrobbler) :
  reply ∈ replies_ s → is_batch_reply s reply = true →
  single_flight s → single_flight (set_submitted_ false (take_reply reply s)).
Proof.
  intros Hin Hyes (Htimer & Hbatch & Hbelow).
  assert (reply ∈ batches_in_flight s) as Hb.
  { unfold batches_in_flight. by apply list_elem_of_filter. }
  split_and!; [done| |by apply take_reply_below].
  cbn [submitted_ set_submitted_].
  change (batches_in_flight (set_submitted_ false (take_reply reply s)))
    with (batches_in_flight (take_reply reply s)).
  rewrite batches_take_reply.
  destruct (submitted_ s).
  - destruct Hbatch as [r Hr]. rewrite Hr in Hb |- *.
    apply list_elem_of_singleton in Hb as ->.
    rewrite filter_cons_False; [done|]. by intros H.
  - rewrite Hbatch in Hb. inversion Hb.
Qed.

Lemma single_flight_Submit (s : ListenBrainzScrobbler) :
  submitted_ s = false → QTimer.isActive (timer_submit_ s) = false →
  single_flight s → single_flight (Submit authenticated s).
Proof.
  intros Hsub Hact Hinv. unfold Submit.
  destruct (negb (enabled s) || negb (authenticated s)
            || ScrobblerSettings.offline (settings_ s)); [done|].
  destruct (Submit_loop (ScrobblerCache.List (cache_ s)) (cache_ s) [] []) as [[c b] a].
  destruct (length b <=? 0).
  { revert Hinv. by apply single_flight_same. }
  destruct Hinv as (Htimer & Hbatch & Hbelow). rewrite Hsub in Hbatch.
  set (s1 := set_submitted_ true (set_cache_ c s)).
  change (single_flight
            (connect (CreateReply (mkRequest (kApiUrl +:+ "/1/submit-listens") (Import a)) s1).1
               (ScrobbleRequestFinishedSlot b)
               (CreateReply (mkRequest (kApiUrl +:+ "/1/submit-listens") (Import a)) s1).2)).
  split_and!.
  - done.
  - rewrite batches_post by done. simpl.
    change (batches_in_flight s1) with (batches_in_flight s). rewrite Hbatch. by eexists.
  - simpl. intros r [Hr| ->%list_elem_of_singleton]%elem_of_app; [|lia].
    specialize (Hbelow r Hr). lia.
Qed.

Lemma single_flight_StartSubmit (initial : bool) (s : ListenBrainzScrobbler) :
  single_flight s → single_flight (StartSubmit authenticated initial s).
Proof.
  intros Hinv. unfold StartSubmit.
  destruct (submitted_ s) eqn:Hsub; [done|]. cbn [negb andb].
  destruct (0 <? ScrobblerCache.Count (cache_ s)); [|done].
  destruct (initial && (ScrobblerSettings.submit_delay (settings_ s) <=? 0)%Z
            && negb (submit_error_ s)).
  - destruct (QTimer.isActive (timer_submit_ s)) eqn:Hact.
    + apply single_flight_Submit; [done|done|].
      destruct Hinv as (Htimer & Hbatch & Hbelow). split_and!; [done| |done].
      cbn [submitted_ set_timer_submit_].
      change (batches_in_flight (set_timer_submit_ (QTimer.stop (timer_submit_ s)) s))
        with (batches_in_flight s). done.
    + by apply single_flight_Submit.
  - destruct (negb (QTimer.isActive (timer_submit_ s))); [|done].
    destruct Hinv as (Htimer & Hbatch & Hbelow). split_and!; [|done|done].
    cbn [submitted_ set_timer_submit_]. congruence.
Qed.

Lemma single_flight_GetJsonObject (r : QNetworkReply.t) (s : ListenBrainzScrobbler) :
  single_flight s → single_flight (GetJsonObject r s).2.
Proof.
  destruct (GetJsonObject_frame r s) as (_ & Hs & _ & _ & Ht & _ & Hr & Hc & _).
  rewrite GetJsonObject_state in *. destruct (is_auth_error r); [|done].
  by apply single_flight_same.
Qed.

Lemma single_flight_Error (e : string) (s : ListenBrainzScrobbler) :
  single_flight s → single_flight (Error e s).
Proof. unfold Error. by destruct (ScrobblerSettings.show_error_dialog _). Qed.

Lemma single_flight_Scrobble (song : Song.t) (s : ListenBrainzScrobbler) :
  single_flight s → single_flight (Scrobble authenticated initial_default song s).
Proof.
  intros Hinv. unfold Scrobble.
  match goal with |- context [if ?b then _ else _] => destruct b end; [done|].
  match goal with |- context [if ?b then _ else _] => destruct b end; [done|].
  by apply single_flight_StartSubmit.
Qed.

Lemma single_flight_CheckScrobblePrevSong (now : Z) (s : ListenBrainzScrobbler) :
  single_flight s →
  single_flight (CheckScrobblePrevSong authenticated initial_default now s).
Proof.
  intros Hinv. rewrite CheckScrobblePrevSong_unfold. cbv zeta.
  match goal with |- context [if ?b then _ else _] => destruct b end; [|done].
  by apply single_flight_Scrobble.
Qed.

Lemma single_flight_RequestAccessToken (u : QUrl.t) (code : string)
    (s : ListenBrainzScrobbler) :
  single_flight s → single_flight (RequestAccessToken u code s).
Proof.
  intros Hinv. unfold RequestAccessToken.
  repeat match goal with |- context [if ?b then _ else _] => destruct b end; try done.
  all: by apply (single_flight_post _ AuthenticateReplyFinishedSlot
                   (set_refresh_login_timer_ _ s)).
Qed.

Lemma single_flight_RedirectArrived (s : ListenBrainzScrobbler) :
  single_flight s → single_flight (RedirectArrived s).
Proof.
  intros Hinv. unfold RedirectArrived. destruct (server_ s) as [server|]; [|done].
  repeat match goal with |- context [if ?b then _ else _] => destruct b end; try done.
  pose proof (single_flight_RequestAccessToken (LocalRedirectServer.request_url server)
    (QUrl.queryItemValue (LocalRedirectServer.request_url server) "code") s Hinv) as H.
  revert H. by apply single_flight_same.
Qed.

Lemma is_batch_reply_false (s : ListenBrainzScrobbler) (reply : nat) (slot : Slot) :
  connected s !! reply = Some slot →
  (∀ batch, slot ≠ ScrobbleRequestFinishedSlot batch) →
  is_batch_reply s reply = false.
Proof.
  intros H Hslot. unfold is_batch_reply. rewrite H.
  destruct slot; try done. by destruct (Hslot cache_items_sent).
Qed.

Lemma single_flight_AuthenticateReplyFinished (reply : nat) (r : QNetworkReply.t) (now : Z)
    (s : ListenBrainzScrobbler) :
  connected s !! reply = Some AuthenticateReplyFinishedSlot →
  single_flight s →
  single_flight (AuthenticateReplyFinished authenticated initial_default reply r now s).
Proof.
  intros Hslot Hinv. unfold AuthenticateReplyFinished.
  destruct (negb (bool_decide (reply ∈ replies_ s))); [done|].
  assert (single_flight (take_reply reply s)) as H0.
  { apply single_flight_take_other; [|done]. by eapply is_batch_reply_false. }
  apply (single_flight_GetJsonObject r) in H0.
  destruct (GetJsonObject r (take_reply reply s)) as [[[res obj] msg] s1]. cbn [snd] in H0.
  destruct (negb (bool_decide (res = Success))); [done|].
  match goal with |- context [if ?b then _ else _] => destruct b end; [done|].
  apply single_flight_StartSubmit.
  destruct (0 <? _)%Z; done.
Qed.

Lemma single_flight_UpdateNowPlayingRequestFinished (reply : nat) (r : QNetworkReply.t)
    (s : ListenBrainzScrobbler) :
  connected s !! reply = Some UpdateNowPlayingRequestFinishedSlot →
  single_flight s →
  single_flight (UpdateNowPlayingRequestFinished reply r s).
Proof.
  intros Hslot Hinv. unfold UpdateNowPlayingRequestFinished.
  destruct (negb (bool_decide (reply ∈ replies_ s))); [done|].
  assert (single_flight (take_reply reply s)) as H0.
  { apply single_flight_take_other; [|done]. by eapply is_batch_reply_false. }
  apply (single_flight_GetJsonObject r) in H0.
  destruct (GetJsonObject r (take_reply reply s)) as [[[res obj] msg] s1]. cbn [snd] in H0.
  repeat match goal with |- context [if ?b then _ else _] => destruct b end;
    try done; by apply single_flight_Error.
Qed.

Lemma single_flight_LoveRequestFinished (reply : nat) (r : QNetworkReply.t)
    (s : ListenBrainzScrobbler) :
  connected s !! reply = Some LoveRequestFinishedSlot →
  single_flight s →
  single_flight (LoveRequestFinished reply r s).
Proof.
  intros Hslot Hinv. unfold LoveRequestFinished.
  destruct (negb (bool_decide (reply ∈ replies_ s))); [done|].
  assert (single_flight (take_reply reply s)) as H0.
  { apply single_flight_take_other; [|done]. by eapply is_batch_reply_false. }
  apply (single_flight_GetJsonObject r) in H0.
  destruct (GetJsonObject r (take_reply reply s)) as [[[res obj] msg] s1]. cbn [snd] in H0.
  destruct (negb (bool_decide (res = Success))); [|done]. by apply single_flight_Error.
Qed.

Lemma single_flight_ScrobbleRequestFinished (reply : nat) (r : QNetworkReply.t)
    (cache_items : list nat) (s : ListenBrainzScrobbler) :
  connected s !! reply = Some (ScrobbleRequestFinishedSlot cache_items) →
  single_flight s →
  single_flight
    (ScrobbleRequestFinished authenticated initial_default reply r cache_items s).
Proof.
  intros Hslot Hinv. unfold ScrobbleRequestFinished.
  destruct (decide (reply ∈ replies_ s)) as [Hin|Hout].
  2:{ by rewrite (bool_decide_eq_false_2 _ Hout). }
  rewrite (bool_decide_eq_true_2 _ Hin). cbn [negb].
  assert (single_flight (set_submitted_ false (take_reply reply s))) as H0.
  { apply single_flight_take_batch; [done| |done]. unfold is_batch_reply. by rewrite Hslot. }
  apply (single_flight_GetJsonObject r) in H0.
  destruct (GetJsonObject r (set_submitted_ false (take_reply reply s)))
    as [[[res obj] msg] s1]. cbn [snd] in H0.
  apply single_flight_StartSubmit. unfold Error.
  repeat match goal with |- context [if ?b then _ else _] => destruct b end; done.
Qed.

Lemma single_flight_Love (s : ListenBrainzScrobbler) :
  single_flight s → single_flight (Love authenticated s).
Proof.
  intros Hinv. unfold Love.
  destruct (negb _ || negb _); [done|].
  assert (single_flight (if negb (authenticated s) then emit ShowConfig s else s)) as H0
    by (by destruct (negb (authenticated s))).
  destruct (isEmpty _); [by apply single_flight_Error|].
  by apply (single_flight_post _ LoveRequestFinishedSlot).
Qed.

Lemma single_flight_UpdateNowPlaying (song : Song.t) (now : Z) (s : ListenBrainzScrobbler) :
  single_flight s →
  single_flight (UpdateNowPlaying authenticated initial_default song now s).
Proof.
  intros Hinv. apply (single_flight_CheckScrobblePrevSong now) in Hinv.
  unfold UpdateNowPlaying.
  match goal with |- context [if ?b then _ else _] => destruct b end; [done|].
  by apply (single_flight_post _ UpdateNowPlayingRequestFinishedSlot (set_playback_ _ _)).
Qed.

(** Single flight is kept by everything that happens, as long as nothing
    but the scheduler and the timer calls [Submit]. *)
Lemma single_flight_handle (e : Event) (s : ListenBrainzScrobbler) :
  calls_Submit e = false →
  single_flight s → single_flight (handle authenticated initial_default e s).
Proof.
  intros He Hinv. destruct e; try discriminate; cbn [handle].
  - by unfold ReloadSettings.
  - unfold LoadSession. by destruct (negb (isEmpty _)).
  - done.
  - unfold Authenticate. destruct (server_ s); [done|]. by destruct (negb listen_ok).
  - destruct (server_ s); [|done]. by apply single_flight_RedirectArrived.
  - destruct (QTimer.isActive (refresh_login_timer_ s)); [|done].
    by apply single_flight_RequestAccessToken.
  - by apply single_flight_UpdateNowPlaying.
  - by apply (single_flight_CheckScrobblePrevSong now) in Hinv.
  - by apply single_flight_Scrobble.
  - by apply single_flight_StartSubmit.
  - destruct (QTimer.isActive (timer_submit_ s)) eqn:Hact; [|done].
    destruct Hinv as (Htimer & Hbatch & Hbelow).
    destruct (submitted_ s) eqn:Hsub; [by rewrite Htimer in Hact|].
    apply single_flight_Submit; [done|done|].
    split_and!; [done| |done]. cbn [submitted_ set_timer_submit_]. by rewrite Hsub.
  - by apply single_flight_Love.
  - destruct (connected s !! reply) as [[]|] eqn:Hslot; [| | | |done].
    + by apply single_flight_AuthenticateReplyFinished.
    + by apply single_flight_UpdateNowPlayingRequestFinished.
    + by apply single_flight_ScrobbleRequestFinished.
    + by apply single_flight_LoveRequestFinished.
Qed.

Lemma single_flight_run (events : list Event) :
  ∀ s : ListenBrainzScrobbler,
  forallb (λ e, negb (calls_Submit e)) events = true →
  single_flight s → single_flight (run authenticated initial_default events s).
Proof.
  induction events as [|e events IH]; intros s Hev Hinv; [done|].
  cbn [forallb] in Hev. apply andb_true_iff in Hev as [He Hev].
  apply negb_true_iff in He.
  change (run authenticated initial_default (e :: events) s)
    with (run authenticated initial_default events (handle authenticated initial_default e s)).
  by apply IH, single_flight_handle.
Qed.

(** When the reply to a batch arrives the timer is not running. *)
Lemma single_flight_timer_idle (reply : nat) (s : ListenBrainzScrobbler) :
  single_flight s → reply ∈ replies_ s → is_batch_reply s reply = true →
  submitted_ s = true ∧ QTimer.isActive (timer_submit_ s) = false.
Proof.
  intros (Htimer & Hbatch & _) Hin Hyes.
  assert (reply ∈ batches_in_flight s) as Hb.
  { unfold batches_in_flight. by apply list_elem_of_filter. }
  destruct (submitted_ s); [by split; [|apply Htimer]|].
  rewrite Hbatch in Hb. inversion Hb.
Qed.

Lemma single_flight_reachable (events : list Event) (s : ListenBrainzScrobbler) :
  submitted_ s = false → replies_ s = [] → next_reply s = 0 →
  forallb (λ e, negb (calls_Submit e)) events = true →
  single_flight (run authenticated initial_default events s).
Proof.
  intros Hsub Hr Hn Hev. apply single_flight_run; [done|].
  unfold single_flight, batches_in_flight. rewrite Hsub, Hr.
  split_and!; [done|done|]. intros r Hin. inversion Hin.
Qed.

(** C9.  A scrobble that is accepted sets the scrobbled flag.  Whatever
    happens while the item stays tracked, the tracked state stays as it is,
    and the event that then replaces the tracked item leaves the cache alone:
    no derived scrobble is synthesized.  Every event enqueues at most one
    record, and apart from an explicit scrobble only the events that replace
    the tracked item enqueue at all, so that a tracked item gets at most one
    derived scrobble. *)
Theorem no_derived_scrobble_after_scrobble (song : Song.t) (s : ListenBrainzScrobbler) :
  accepts song s = true →
  let s1 := Scrobble authenticated initial_default song s in
  scrobbled_ (playback_ s1) = true
  ∧ (∀ events e,
       forallb (λ e, negb (replaces_tracking e)) events = true →
       replaces_tracking e = true →
       let s2 := run authenticated initial_default events s1 in
       playback_ s2 = playback_ s1
       ∧ cache_ (handle authenticated initial_default e s2) = cache_ s2)
  ∧ (∀ e s0,
       ScrobblerCache.fresh (cache_ (handle authenticated initial_default e s0))
       ≤ S (ScrobblerCache.fresh (cache_ s0)))
  ∧ (∀ e s0,
       replaces_tracking e = false → is_explicit_scrobble e = false →
       ScrobblerCache.fresh (cache_ (handle authenticated initial_default e s0)) =
       ScrobblerCache.fresh (cache_ s0)).
Proof.
  intros Ha s1.
  assert (scrobbled_ (playback_ s1) = true) as Hs1.
  { unfold s1. by destruct (Scrobble_accepted song s Ha) as (-> & _). }
  split_and!; [done| |apply handle_enqueues_at_most_one|].
  - intros events e Hev He s2.
    assert (playback_ s2 = playback_ s1) as Hp by (by apply run_keeps_scrobbled).
    split; [done|].
    assert (scrobbled_ (playback_ s2) = true) as Hs2 by (by rewrite Hp).
    destruct e; try discriminate; cbn [handle].
    + destruct (UpdateNowPlaying_cache song0 now s2) as (-> & _).
      by rewrite CheckScrobblePrevSong_scrobbled.
    + destruct (ClearPlaying_cache now s2) as (-> & _).
      by rewrite CheckScrobblePrevSong_scrobbled.
  - intros e s0 Hr He. by destruct (handle_keeps_tracking e s0 Hr He).
Qed.

(** C10.  When the reply to a batch has been handled, the error flag of the
    last submission is set exactly if the reply was no success, whatever
    the kind of failure and the size of the batch.  After a failure the
    scheduler either leaves the timer as it is or, if the timer was not
    running, starts it with the floor of 30 seconds; it starts it whenever
    records remain and the timer was not running, and the timer is not
    running when the reply belongs to the one batch in flight.  A set flag is
    cleared only by a successful reply to a batch, and while it is set every
    timer the scheduler starts has the floor of 30 seconds. *)
Theorem submit_error_after_reply (reply : nat) (r : QNetworkReply.t)
    (cache_items : list nat) (s : ListenBrainzScrobbler) :
  reply ∈ replies_ s →
  let result := (GetJsonObject r s).1.1.1 in
  let s' := ScrobbleRequestFinished authenticated initial_default reply r cache_items s in
  let floor30 (s0 : ListenBrainzScrobbler) :=
    QTimer.mk (to_int (Z.max (ScrobblerSettings.submit_delay (settings_ s0)) 30 * kMsecPerSec))
              true in
  submit_error_ s' = negb (bool_decide (result = Success))
  ∧ (result ≠ Success →
     (timer_submit_ s' = timer_submit_ s
      ∨ (QTimer.isActive (timer_submit_ s) = false ∧ timer_submit_ s' = floor30 s))
     ∧ (0 < ScrobblerCache.Count (cache_ s') → QTimer.isActive (timer_submit_ s) = false →
        timer_submit_ s' = floor30 s)
     ∧ (0 < ScrobblerCache.Count (cache_ s') →
        single_flight s → is_batch_reply s reply = true →
        timer_submit_ s' = floor30 s))
  ∧ (∀ e s0,
       submit_error_ s0 = true →
       submit_error_ (handle authenticated initial_default e s0) = false →
       ∃ reply0 r0 now0 batch,
         e = ReplyFinished reply0 r0 now0
         ∧ connected s0 !! reply0 = Some (ScrobbleRequestFinishedSlot batch)
         ∧ reply0 ∈ replies_ s0
         ∧ (GetJsonObject r0 s0).1.1.1 = Success)
  ∧ (∀ initial s0,
       submit_error_ s0 = true →
       timer_submit_ (StartSubmit authenticated initial s0) = timer_submit_ s0
       ∨ timer_submit_ (StartSubmit authenticated initial s0) = floor30 s0).
Proof.
  intros Hreply result s' floor30.
  split_and!.
  - by destruct (ScrobbleRequestFinished_flag reply r cache_items s Hreply) as (? & _).
  - intros Hfail.
    enough ((timer_submit_ s' = timer_submit_ s
             ∨ (QTimer.isActive (timer_submit_ s) = false ∧ timer_submit_ s' = floor30 s))
            ∧ (0 < ScrobblerCache.Count (cache_ s') →
               QTimer.isActive (timer_submit_ s) = false → timer_submit_ s' = floor30 s))
      as [H1 H2].
    { split_and!; [exact H1|exact H2|]. intros Hcount Hinv Hbatch.
      apply H2; [done|]. by destruct (single_flight_timer_idle reply s Hinv Hreply Hbatch). }
    subst s'. unfold ScrobbleRequestFinished.
    rewrite (bool_decide_eq_true_2 _ Hreply). cbn [negb].
    set (s0 := set_submitted_ false (take_reply reply s)).
    assert (result = (GetJsonObject r s0).1.1.1) as Hres.
    { unfold result. by rewrite (GetJsonObject_result r s s0). }
    pose proof (GetJsonObject_frame r s0) as (_ & Hsub & _ & _ & Ht & Hset & _).
    destruct (GetJsonObject r s0) as [[[res obj] msg] s1].
    cbn [fst snd] in *. subst res.
    rewrite (bool_decide_eq_false_2 _ Hfail).
    set (s2 := if bool_decide (result = APIError) then _ else _).
    assert (submit_error_ s2 = true ∧ timer_submit_ s2 = timer_submit_ s
            ∧ settings_ s2 = settings_ s ∧ submitted_ s2 = false) as (He2 & Ht2 & Hs2 & Hb2).
    { unfold s2, Error.
      repeat match goal with |- context [if ?b then _ else _] => destruct b end;
        simpl; rewrite ?Ht, ?Hset, ?Hsub; done. }
    rewrite StartSubmit_errored by done. rewrite Hb2, Ht2, Hs2. cbn [negb andb].
    destruct (0 <? ScrobblerCache.Count (cache_ s2)) eqn:Hcount;
      destruct (QTimer.isActive (timer_submit_ s)) eqn:Hact; cbn [negb andb].
    + split; [by left|]. done.
    + split; [by right|]. done.
    + split; [by left|]. done.
    + split; [by left|]. intros H. apply Nat.ltb_ge in Hcount. lia.
  - intros e s0 He Hafter.
    assert ((∃ reply0 r0 now0 batch,
               e = ReplyFinished reply0 r0 now0
               ∧ connected s0 !! reply0 = Some (ScrobbleRequestFinishedSlot batch)
               ∧ reply0 ∈ replies_ s0)
            ∨ (∀ reply0 r0 now0 batch,
                 e = ReplyFinished reply0 r0 now0 →
                 connected s0 !! reply0 = Some (ScrobbleRequestFinishedSlot batch) →
                 reply0 ∉ replies_ s0)) as [(reply0 & r0 & now0 & batch & -> & Hslot & Hin)|Hno].
    { destruct e as [| | | | | | | | | | | | |reply1 r1 now1];
        try (right; intros; discriminate).
      destruct (connected s0 !! reply1) as [slot|] eqn:Hslot;
        [|right; intros ? ? ? ? [= <- <- <-] ?; congruence].
      destruct (decide (reply1 ∈ replies_ s0)) as [Hin|Hout];
        [|right; by intros ? ? ? ? [= <- <- <-] ?].
      destruct slot; try (right; intros ? ? ? ? [= <- <- <-] ?; congruence).
      left. eauto 10. }
    + exists reply0, r0, now0, batch. split_and!; try done.
      cbn [handle] in Hafter. rewrite Hslot in Hafter.
      destruct (ScrobbleRequestFinished_flag reply0 r0 batch s0 Hin) as (Hflag & _).
      rewrite Hflag in Hafter. apply negb_false_iff in Hafter.
      by apply bool_decide_eq_true_1 in Hafter.
    + rewrite handle_keeps_flag in Hafter; [congruence|done].
  - intros initial s0 He. rewrite StartSubmit_errored by done.
    destruct (_ && _); [by right|by left].
Qed.

Lemma stop_inactive (s : ListenBrainzScrobbler) :
  QTimer.isActive (timer_submit_ s) = false →
  set_timer_submit_ (QTimer.stop (timer_submit_ s)) s = s.
Proof. destruct s as [? ? ? ? ? ? ? ? ? ? [? ?] ? ? ? ? ? ? ?]. simpl. by intros ->. Qed.

(** C4, as amended.  Let no batch be in flight and the queue be non-empty.
    Unless the trigger is the initial one with a configured delay of at most
    zero and no error in the previous submission, the scheduler starts the
    timer, if it is not running, for [max(delay, F)] seconds, where [F] is 30
    after an error and 5 otherwise, provided that many seconds in
    milliseconds fit a signed 32-bit integer; a running timer is left as it
    is.  In the other case the scheduler stops the timer and submits at
    once. *)
Theorem StartSubmit_schedule (initial : bool) (s : ListenBrainzScrobbler) :
  submitted_ s = false →
  0 < ScrobblerCache.Count (cache_ s) →
  let delay := ScrobblerSettings.submit_delay (settings_ s) in
  let F := if submit_error_ s then 30%Z else 5%Z in
  let immediate := initial && (delay <=? 0)%Z && negb (submit_error_ s) in
  (immediate = false → QTimer.isActive (timer_submit_ s) = false →
   (Z.max delay F * kMsecPerSec ≤ INT_MAX)%Z →
   StartSubmit authenticated initial s =
     set_timer_submit_ (QTimer.mk (Z.max delay F * kMsecPerSec) true) s)
  ∧ (immediate = false → QTimer.isActive (timer_submit_ s) = true →
     StartSubmit authenticated initial s = s)
  ∧ (immediate = true →
     StartSubmit authenticated initial s =
       Submit authenticated (set_timer_submit_ (QTimer.stop (timer_submit_ s)) s)
     ∧ QTimer.isActive
         (timer_submit_ (set_timer_submit_ (QTimer.stop (timer_submit_ s)) s)) = false).
Proof.
  intros Hsub Hcount delay F immediate.
  apply Nat.ltb_lt in Hcount.
  unfold StartSubmit. rewrite Hsub, Hcount. cbn [negb andb].
  fold delay. fold immediate.
  split_and!.
  - intros -> Hact Hfit. rewrite Hact. cbn [negb].
    rewrite to_int_small; [done|].
    unfold kMsecPerSec, INT_MAX, F in *. destruct (submit_error_ s); lia.
  - intros -> Hact. by rewrite Hact.
  - intros ->. split; [|done].
    destruct (QTimer.isActive (timer_submit_ s)) eqn:Hact; [done|].
    by rewrite stop_inactive.
Qed.

(** C7, as amended.  When the restored session has a refresh token,
    [LoadSession] starts the refresh timer for
    [max(expires_in - (now - login_time), 6)] seconds, provided that many
    seconds in milliseconds fit a signed 32-bit integer; the interval is then
    positive.  With [expires_in = 3600] and [login_time = now - 3650] it is 6
    seconds. *)
Theorem LoadSession_refresh_timer (now : Z) (s : ListenBrainzScrobbler) :
  let expires_in := Variant.toInt (value (store s) "expires_in" (Some (VInt (-1)))) in
  let login_time := Variant.toLongLong (value (store s) "login_time" None) in
  let seconds := Z.max (expires_in - (now - login_time)) 6 in
  Variant.toString (value (store s) "refresh_token" None) ≠ "" →
  (seconds * kMsecPerSec ≤ INT_MAX)%Z →
  refresh_login_timer_ (LoadSession now s) = QTimer.mk (seconds * kMsecPerSec) true
  ∧ (0 < QTimer.interval (refresh_login_timer_ (LoadSession now s)))%Z
  ∧ (expires_in = 3600%Z → login_time = (now - 3650)%Z →
     QTimer.interval (refresh_login_timer_ (LoadSession now s)) = (6 * kMsecPerSec)%Z).
Proof.
  intros expires_in login_time seconds Htoken Hfit.
  assert (refresh_login_timer_ (LoadSession now s) = QTimer.mk (seconds * kMsecPerSec) true)
    as Htimer.
  { unfold LoadSession. cbn [session_ set_session_ refresh_token_ expires_in_ login_time_].
    unfold isEmpty. rewrite (bool_decide_eq_false_2 _ Htoken). cbn [negb].
    fold expires_in login_time.
    replace (if (expires_in - (now - login_time) <? 6)%Z then 6%Z
             else (expires_in - (now - login_time))%Z) with seconds
      by (unfold seconds; destruct (Z.ltb_spec (expires_in - (now - login_time)) 6); lia).
    cbn [refresh_login_timer_ set_refresh_login_timer_ set_session_].
    rewrite to_int_small; [done|].
    unfold kMsecPerSec, INT_MAX, seconds in *. lia. }
  rewrite Htimer. cbn [QTimer.interval]. split_and!; [done| |].
  - unfold seconds, kMsecPerSec. lia.
  - intros He Hl. unfold seconds. rewrite He, Hl. f_equal. lia.
Qed.

(** A reply whose transport error invalidates the session is never a
    success. *)
Lemma auth_error_no_success (r : QNetworkReply.t) (s : ListenBrainzScrobbler) :
  is_auth_error r = true → (GetJsonObject r s).1.1.1 ≠ Success.
Proof.
  unfold is_auth_error, GetJsonObject.
  unfold ContentAccessDenied, ContentOperationNotPermittedError,
    AuthenticationRequiredError, NoError.
  intros H.
  destruct (QNetworkReply.error r =? 0)%Z eqn:E0.
  { apply Z.eqb_eq in E0. rewrite E0 in H. done. }
  repeat match goal with
         | |- context [if ?b then _ else _] => destruct b
         | |- context [match ?d with DataEmpty => _ | _ => _ end] => destruct d
         end; simpl; congruence.
Qed.

Lemma Error_session (e : string) (s : ListenBrainzScrobbler) :
  session_ (Error e s) = session_ s ∧ store (Error e s) = store s.
Proof. unfold Error. by destruct (ScrobblerSettings.show_error_dialog _). Qed.

(** Whatever request a reply belongs to, a transport error of access denied,
    operation not permitted or authentication required runs [Logout]: the
    session fields in memory are cleared, and the keys of the access token,
    the expiry, the token type and the refresh token are removed from the
    store. *)
Lemma reply_with_auth_error_logs_out (reply : nat) (r : QNetworkReply.t) (now : Z)
    (slot : Slot) (s : ListenBrainzScrobbler) :
  connected s !! reply = Some slot →
  reply ∈ replies_ s →
  is_auth_error r = true →
  let s' := handle authenticated initial_default (ReplyFinished reply r now) s in
  session_ s' = mkSession "" (-1) "" "" 0
  ∧ store s' =
      delete "refresh_token"
        (delete "token_type" (delete "expires_in" (delete "access_token" (store s)))).
Proof.
  intros Hslot Hin Hauth. cbv zeta. cbn [handle]. rewrite Hslot.
  destruct slot.
  - unfold AuthenticateReplyFinished. rewrite (bool_decide_eq_true_2 _ Hin). cbn [negb].
    pose proof (GetJsonObject_state r (take_reply reply s)) as Hst.
    pose proof (auth_error_no_success r (take_reply reply s) Hauth) as Hno.
    rewrite Hauth in Hst.
    destruct (GetJsonObject r (take_reply reply s)) as [[[res obj] msg] s1].
    cbn [fst snd] in *. subst s1.
    by rewrite (bool_decide_eq_false_2 _ Hno).
  - unfold UpdateNowPlayingRequestFinished. rewrite (bool_decide_eq_true_2 _ Hin). cbn [negb].
    pose proof (GetJsonObject_state r (take_reply reply s)) as Hst.
    pose proof (auth_error_no_success r (take_reply reply s) Hauth) as Hno.
    rewrite Hauth in Hst.
    destruct (GetJsonObject r (take_reply reply s)) as [[[res obj] msg] s1].
    cbn [fst snd] in *. subst s1.
    rewrite (bool_decide_eq_false_2 _ Hno). cbn [negb].
    destruct (Error_session msg (Logout (take_reply reply s))) as (-> & ->). done.
  - unfold ScrobbleRequestFinished. rewrite (bool_decide_eq_true_2 _ Hin). cbn [negb].
    set (s0 := set_submitted_ false (take_reply reply s)).
    pose proof (GetJsonObject_state r s0) as Hst.
    pose proof (auth_error_no_success r s0 Hauth) as Hno.
    rewrite Hauth in Hst.
    destruct (GetJsonObject r s0) as [[[res obj] msg] s1].
    cbn [fst snd] in *. subst s1.
    rewrite (bool_decide_eq_false_2 _ Hno).
    match goal with |- context [StartSubmit _ _ ?x] =>
      destruct (StartSubmit_frame initial_default x) as (_ & _ & _ & _ & -> & -> & _) end.
    unfold Error.
    repeat match goal with |- context [if ?b then _ else _] => destruct b end; done.
  - unfold LoveRequestFinished. rewrite (bool_decide_eq_true_2 _ Hin). cbn [negb].
    pose proof (GetJsonObject_state r (take_reply reply s)) as Hst.
    pose proof (auth_error_no_success r (take_reply reply s) Hauth) as Hno.
    rewrite Hauth in Hst.
    destruct (GetJsonObject r (take_reply reply s)) as [[[res obj] msg] s1].
    cbn [fst snd] in *. subst s1.
    rewrite (bool_decide_eq_false_2 _ Hno). cbn [negb].
    destruct (Error_session msg (Logout (take_reply reply s))) as (-> & ->). done.
Qed.

(** C6, as amended.  When a token exchange fails -- the redirect carries an
    error or no code, or the token endpoint replies without success or
    without a required field -- and the reply of the token endpoint does not
    carry one of the transport errors that invalidate the session, an
    authentication failure is signalled with a reason and nothing else
    happens to the session: its fields in memory and in the store are as
    before, and so are the cache, the timers and the posted requests. *)
Theorem failed_exchange_keeps_session (e : Event) (s : ListenBrainzScrobbler) :
  exchange_fails s e →
  (∀ reply r now, e = ReplyFinished reply r now → is_auth_error r = false) →
  let s' := handle authenticated initial_default e s in
  session_ s' = session_ s
  ∧ store s' = store s
  ∧ (∃ reason, emitted s' = emitted s ++ [AuthenticationComplete false reason])
  ∧ cache_ s' = cache_ s
  ∧ refresh_login_timer_ s' = refresh_login_timer_ s
  ∧ timer_submit_ s' = timer_submit_ s
  ∧ posted s' = posted s.
Proof.
  intros Hfail Hnoauth. cbv zeta.
  destruct Hfail as [server [old Hold] Hfailed|reply r now Hslot Hin Hfailed]; cbn [handle].
  - rewrite Hold. unfold RedirectArrived. cbn [server_ set_server_].
    destruct Hfailed as [Herr|[Hinv|[Herror|Hcode]]].
    + unfold isEmpty. rewrite (bool_decide_eq_false_2 _ Herr).
      split_and!; try done. by eexists.
    + rewrite Hinv. destruct (isEmpty (LocalRedirectServer.error server));
        (split_and!; try done; by eexists).
    + rewrite Herror.
      destruct (isEmpty (LocalRedirectServer.error server)),
        (QUrl.isValid (LocalRedirectServer.request_url server));
        (split_and!; try done; by eexists).
    + rewrite Hcode.
      destruct (isEmpty (LocalRedirectServer.error server)),
        (QUrl.isValid (LocalRedirectServer.request_url server)),
        (QUrl.hasQueryItem (LocalRedirectServer.request_url server) "error");
        (split_and!; try done; by eexists).
  - rewrite Hslot. unfold AuthenticateReplyFinished.
    rewrite (bool_decide_eq_true_2 _ Hin). cbn [negb].
    unfold token_reply_failed in Hfailed. cbv zeta in Hfailed.
    rewrite (GetJsonObject_result r s (take_reply reply s)) in Hfailed.
    pose proof (GetJsonObject_state r (take_reply reply s)) as Hst.
    rewrite (Hnoauth reply r now eq_refl) in Hst.
    destruct (GetJsonObject r (take_reply reply s)) as [[[res obj] msg] s1].
    cbn [fst snd] in *. subst s1.
    destruct (decide (res = Success)) as [->|Hne].
    + rewrite bool_decide_eq_true_2 by done. cbn [negb].
      destruct Hfailed as [? | [-> | [-> | ->]]]; [done| | |]; rewrite ?orb_true_r; cbn [negb orb];
        (split_and!; try done; by eexists).
    + rewrite (bool_decide_eq_false_2 _ Hne). cbn [negb].
      split_and!; try done. by eexists.
Qed.
End Properties.

(** * The theorems at work *)

(** With the one record of the queue in flight, a further call of [Submit]
    finds nothing to send. *)
Lemma Submit_in_flight_witness :
  submitted_ in_flight = true
  ∧ Submit_batch (cache_ in_flight) = []
  ∧ Submit has_access_token in_flight = in_flight
  ∧ StartSubmit has_access_token true in_flight = in_flight.
Proof.
  assert (submitted_ in_flight = true) as H by reflexivity.
  destruct (Submit_in_flight has_access_token in_flight H) as (_ & Hsent & Hstart).
  destruct Hsent as [Hb Hs].
  { intros p i Hp. vm_compute in Hp. apply list_elem_of_singleton in Hp. subst p.
    vm_compute. by intros [= <-]. }
  split_and!; [exact H|exact Hb|exact Hs|exact (Hstart true)].
Defined.

(** C1 fails as stated: a record enqueued while a batch is in flight is
    unsent, and a call of [Submit] in that state marks it, posts a second
    request and so changes the state. *)
Lemma Submit_in_flight_sends_unsent :
  submitted_ in_flight_with_unsent = true
  ∧ connected in_flight_with_unsent !! 1 = Some (ScrobbleRequestFinishedSlot [0])
  ∧ 1 ∈ replies_ in_flight_with_unsent
  ∧ Submit_batch (cache_ in_flight_with_unsent) = [1]
  ∧ length (posted (Submit has_access_token in_flight_with_unsent)) =
    S (length (posted in_flight_with_unsent))
  ∧ Submit has_access_token in_flight_with_unsent ≠ in_flight_with_unsent.
Proof.
  split_and!; [reflexivity|reflexivity|by_evaluation|reflexivity|reflexivity|].
  intros H. apply (f_equal (λ s, length (posted s))) in H. vm_compute in H. discriminate.
Qed.

Lemma Submit_batch_as_specified_witness :
  let s := with_queue [ok_item 1; ok_item 2; error_item 3] logged_in in
  can_submit has_access_token s
  ∧ NoDup (ScrobblerCache.List (cache_ s))
  ∧ Submit_batch (cache_ s) = batch_spec (entries (cache_ s))
  ∧ Submit_batch (cache_ s) = [0; 1]
  ∧ connected (Submit has_access_token s) !! next_reply s =
      Some (ScrobbleRequestFinishedSlot [0; 1]).
Proof.
  intros s.
  assert (can_submit has_access_token s) as Hcan by (by repeat split).
  assert (NoDup (ScrobblerCache.List (cache_ s))) as Hnd by by_evaluation.
  destruct (Submit_batch_as_specified has_access_token s Hcan Hnd)
    as (Hspec & Hslot & _ & Habc).
  assert (Submit_batch (cache_ s) = [0; 1]) as Hb.
  { by apply (Habc 0 1 2 (ok_item 1) (ok_item 2) (error_item 3)). }
  split_and!; [exact Hcan|exact Hnd|exact Hspec|exact Hb|].
  rewrite <- Hb. apply Hslot. by rewrite Hb.
Defined.

(** The connection is refused while the batch [0] is in flight: the record
    stays queued and is unsent again. *)
Lemma ScrobbleRequestFinished_outcome_witness :
  let s' := ScrobbleRequestFinished has_access_token false 1 connection_refused [0] in_flight in
  1 ∈ replies_ in_flight
  ∧ 0 ∈ ScrobblerCache.List (cache_ s')
  ∧ ScrobblerCache.objects (cache_ s') !! 0 =
      ScrobblerCacheItem.set_sent false <$> ScrobblerCache.objects (cache_ in_flight) !! 0.
Proof.
  intros s'.
  assert (1 ∈ replies_ in_flight) as Hin by by_evaluation.
  destruct (ScrobbleRequestFinished_outcome has_access_token false 1 connection_refused [0]
              in_flight Hin) as (Hrm & _ & Hserver & _).
  split_and!; [exact Hin| |].
  - destruct (decide (0 ∈ ScrobblerCache.List (cache_ s'))) as [H|H]; [exact H|].
    apply Hrm in H; [|by_evaluation].
    destruct H as [_ [H|[H _]]]; vm_compute in H; discriminate.
  - apply Hserver; [reflexivity|by_evaluation].
Defined.

Lemma StartSubmit_schedule_witness :
  let s := with_queue [ok_item 1] logged_in in
  submitted_ s = false
  ∧ 0 < ScrobblerCache.Count (cache_ s)
  ∧ StartSubmit has_access_token false s = set_timer_submit_ (QTimer.mk 5000 true) s
  ∧ StartSubmit has_access_token true s =
      Submit has_access_token (set_timer_submit_ (QTimer.stop (timer_submit_ s)) s).
Proof.
  intros s.
  assert (submitted_ s = false) as Hsub by reflexivity.
  assert (0 < ScrobblerCache.Count (cache_ s)) as Hcount by (vm_compute; lia).
  split_and!; [exact Hsub|exact Hcount| |].
  - destruct (StartSubmit_schedule has_access_token false s Hsub Hcount) as (Harm & _).
    apply Harm; [reflexivity|reflexivity|vm_compute; discriminate].
  - destruct (StartSubmit_schedule has_access_token true s Hsub Hcount) as (_ & _ & Hnow).
    by apply Hnow.
Defined.

(** C4 fails as stated: with a configured delay of 2147484 seconds the
    timer is not started for that many seconds; the interval that is set is
    negative. *)
Lemma StartSubmit_long_delay :
  submitted_ long_delay = false
  ∧ 0 < ScrobblerCache.Count (cache_ long_delay)
  ∧ QTimer.isActive (timer_submit_ long_delay) = false
  ∧ QTimer.interval (timer_submit_ (StartSubmit has_access_token false long_delay)) =
      (-2147483296)%Z
  ∧ QTimer.interval (timer_submit_ (StartSubmit has_access_token false long_delay)) ≠
      (Z.max (ScrobblerSettings.submit_delay (settings_ long_delay)) 5 * kMsecPerSec)%Z.
Proof.
  split_and!; [reflexivity|vm_compute; lia|reflexivity|reflexivity|].
  vm_compute. discriminate.
Qed.

(** C5: the code at the failing input.  A batch is in flight for a session
    logged in at second 1000; the reply requires authentication.  [Logout]
    runs and clears the session in memory, the login time included, and
    removes the four token keys from the store, but the login time stays in
    the store. *)
Theorem Logout_leaves_login_time_in_store :
  let s' := step (ReplyFinished 1 authentication_required 2000) in_flight in
  store in_flight !! "login_time" = Some (VInt 1000)
  ∧ session_ s' = mkSession "" (-1) "" "" 0
  ∧ store s' !! "access_token" = None
  ∧ store s' !! "expires_in" = None
  ∧ store s' !! "token_type" = None
  ∧ store s' !! "refresh_token" = None
  ∧ store s' !! "login_time" = Some (VInt 1000).
Proof. by vm_compute. Qed.

(** The user denies access in the browser: a failure is signalled and the
    session stays as it was. *)
Lemma failed_exchange_keeps_session_witness :
  let s' := step (ServerFinished denied_redirect) awaiting_redirect in
  exchange_fails awaiting_redirect (ServerFinished denied_redirect)
  ∧ session_ s' = session_ awaiting_redirect
  ∧ store s' = store awaiting_redirect
  ∧ ∃ reason, emitted s' = emitted awaiting_redirect ++ [AuthenticationComplete false reason].
Proof.
  intros s'.
  assert (exchange_fails awaiting_redirect (ServerFinished denied_redirect)) as Hfail.
  { constructor; [by eexists|]. right. right. left. by_evaluation. }
  destruct (failed_exchange_keeps_session has_access_token false _ _ Hfail)
    as (Hs & Hst & He & _); [discriminate|].
  split_and!; [exact Hfail|exact Hs|exact Hst|exact He].
Defined.

(** C6 fails as stated: when the token endpoint answers that authentication
    is required, the exchange has failed and the stored session is gone. *)
Lemma failed_exchange_logs_out :
  let s' := step (ReplyFinished 0 authentication_required 2000) exchanging in
  connected exchanging !! 0 = Some AuthenticateReplyFinishedSlot
  ∧ 0 ∈ replies_ exchanging
  ∧ (GetJsonObject authentication_required exchanging).1.1.1 = ServerError
  ∧ emitted s' = [AuthenticationComplete false "Host requires authentication (204)"]
  ∧ session_ exchanging = mkSession "access" 3600 "Bearer" "refresh" 1000
  ∧ session_ s' = mkSession "" (-1) "" "" 0
  ∧ store exchanging !! "access_token" = Some (VString "access")
  ∧ store s' !! "access_token" = None.
Proof. split_and!; try reflexivity. by_evaluation. Qed.

(** The session of the specification: a token that lasts 3600 seconds,
    restored 3650 seconds after login. *)
Lemma LoadSession_refresh_timer_witness :
  Variant.toString (value (store logged_in) "refresh_token" None) ≠ ""
  ∧ refresh_login_timer_ (LoadSession 4650 logged_in) = QTimer.mk 6000 true.
Proof.
  assert (Variant.toString (value (store logged_in) "refresh_token" None) ≠ "") as Htoken
    by (vm_compute; discriminate).
  split; [exact Htoken|].
  destruct (LoadSession_refresh_timer 4650 logged_in Htoken) as (Htimer & _).
  { vm_compute. discriminate. }
  exact Htimer.
Defined.

(** C7 fails as stated: a token that lasts 2147484 seconds, restored at the
    moment of login, gives a negative interval. *)
Lemma LoadSession_long_expiry :
  Variant.toString (value (store long_expiry) "refresh_token" None) = "refresh"
  ∧ Variant.toInt (value (store long_expiry) "expires_in" (Some (VInt (-1)))) = 2147484%Z
  ∧ Variant.toLongLong (value (store long_expiry) "login_time" None) = 1000%Z
  ∧ QTimer.interval (refresh_login_timer_ (LoadSession 1000 long_expiry)) = (-2147483296)%Z
  ∧ QTimer.interval (refresh_login_timer_ (LoadSession 1000 long_expiry)) ≠
      (Z.max (2147484 - (1000 - 1000)) 6 * kMsecPerSec)%Z.
Proof. split_and!; try reflexivity. vm_compute. discriminate. Qed.

(** The stream has been on for 45 seconds when playback stops. *)
Lemma derived_scrobble_witness :
  let s' := ClearPlaying has_access_token false 1045 listening in
  Song.is_radio (song_playing_ (playback_ listening)) = true
  ∧ Song.is_metadata_good (song_playing_ (playback_ listening)) = true
  ∧ scrobbled_ (playback_ listening) = false
  ∧ ScrobblerCache.List (cache_ s') = ScrobblerCache.List (cache_ listening) ++ [0]
  ∧ ∃ item,
      ScrobblerCache.objects (cache_ s') !! 0 = Some item
      ∧ ScrobbleMetadata.length_nanosec (ScrobblerCacheItem.metadata item) = 45000000000%Z
      ∧ ScrobblerCacheItem.timestamp item = 1000%Z.
Proof.
  intros s'.
  destruct (derived_scrobble has_access_token false 1045 listening s')
    as (_ & _ & H45 & _); [reflexivity|reflexivity|reflexivity|by left|].
  destruct H45 as (Hl & item & Hi & _ & Hlen & Ht); [reflexivity|].
  split_and!; [reflexivity|reflexivity|reflexivity|exact Hl|].
  exists item. split_and!; [exact Hi|exact Hlen|exact Ht].
Defined.

(** The track is scrobbled, loved, and then stopped much later: nothing is
    enqueued at the stop. *)
Lemma no_derived_scrobble_after_scrobble_witness :
  let s1 := Scrobble has_access_token false track playing_track in
  let s2 := run has_access_token false [CallLove; SubmitTimeout] s1 in
  accepts track playing_track = true
  ∧ scrobbled_ (playback_ s1) = true
  ∧ cache_ (step (CallClearPlaying 5000) s2) = cache_ s2.
Proof.
  intros s1 s2.
  assert (accepts track playing_track = true) as Ha by reflexivity.
  destruct (no_derived_scrobble_after_scrobble has_access_token false track playing_track Ha)
    as (Hflag & Hrun & _).
  split_and!; [exact Ha|exact Hflag|].
  by apply (Hrun [CallLove; SubmitTimeout] (CallClearPlaying 5000)).
Defined.

(** The connection is refused while a batch is in flight: the flag is set and
    the timer is started with the floor of 30 seconds. *)
Lemma submit_error_after_reply_witness :
  let s' := ScrobbleRequestFinished has_access_token false 1 connection_refused [0] in_flight in
  1 ∈ replies_ in_flight
  ∧ submit_error_ s' = true
  ∧ timer_submit_ s' = QTimer.mk 30000 true.
Proof.
  intros s'.
  assert (1 ∈ replies_ in_flight) as Hin by by_evaluation.
  destruct (submit_error_after_reply has_access_token false 1 connection_refused [0]
              in_flight Hin) as (Hflag & Htimer & _).
  split_and!; [exact Hin|exact Hflag|].
  destruct Htimer as (_ & Harm & _); [vm_compute; discriminate|].
  apply Harm; [vm_compute; lia|reflexivity].
Defined.

(** * Further properties *)

Lemma take_while_sublist {A} (f : A → bool) (l : list A) : take_while f l `sublist_of` l.
Proof.
  induction l as [|x l IH]; simpl; [done|].
  destruct (f x); [by constructor|]. apply sublist_nil_l.
Qed.

Lemma take_while_holds {A} (f : A → bool) (l : list A) (x : A) :
  x ∈ take_while f l → f x = true.
Proof.
  induction l as [|y l IH]; simpl; [by intros H; inversion H|].
  destruct (f y) eqn:Hy; [|by intros H; inversion H].
  intros [->|Hx]%elem_of_cons; [done|by apply IH].
Qed.

Lemma entries_of_sublist (c : ScrobblerCache.t) (l : list nat) :
  (entries_of c l).*1 `sublist_of` l.
Proof.
  induction l as [|p l IH]; [done|].
  unfold entries_of in *. cbn [omap list_omap].
  destruct (ScrobblerCache.objects c !! p); cbn [fmap option_fmap option_map].
  - rewrite fmap_cons. by constructor.
  - by constructor.
Qed.

(** X2.  When no address is queued twice, the batch [Submit] assembles has at
    most ten records, keeps the order of the queue without repeating a
    record, and holds an error-flagged record only when that record is the
    whole batch. *)
Theorem Submit_batch_bounds (c : ScrobblerCache.t) :
  NoDup (ScrobblerCache.List c) →
  let batch := Submit_batch c in
  length batch ≤ 10
  ∧ batch `sublist_of` ScrobblerCache.List c
  ∧ NoDup batch
  ∧ (∀ p i, p ∈ batch → ScrobblerCache.objects c !! p = Some i →
       ScrobblerCacheItem.error i = true → batch = [p]).
Proof.
  intros Hnd batch.
  assert (batch = batch_spec (entries c)) as Hspec.
  { unfold batch, Submit_batch. rewrite Submit_loop_batch by (done || simpl; lia). done. }
  assert (batch `sublist_of` ScrobblerCache.List c) as Hsub.
  { rewrite Hspec. unfold batch_spec.
    destruct (filter (λ e, unsent e = true) (entries c)) as [|first rest] eqn:Hfil; [apply sublist_nil_l|].
    assert ((first :: rest).*1 `sublist_of` ScrobblerCache.List c) as Hel.
    { rewrite <- Hfil. etrans; [apply fmap_sublist, sublist_filter|].
      apply entries_of_sublist. }
    destruct (flagged first).
    - etrans; [|exact Hel]. rewrite fmap_cons. constructor. apply sublist_nil_l.
    - etrans; [|exact Hel]. apply fmap_sublist.
      etrans; [apply sublist_take|]. apply take_while_sublist. }
  split_and!; [| done | by eapply sublist_NoDup |].
  - rewrite Hspec. unfold batch_spec.
    destruct (filter (λ e, unsent e = true) (entries c)) as [|first rest]; [simpl; lia|].
    destruct (flagged first); [simpl; lia|].
    rewrite length_fmap, length_take. lia.
  - intros p i Hp Hi Herr. rewrite Hspec in Hp |- *. unfold batch_spec in *.
    destruct (filter (λ e, unsent e = true) (entries c)) as [|first rest] eqn:Hfil;
      [by inversion Hp|].
    destruct (flagged first) eqn:Hflag.
    + by apply list_elem_of_singleton in Hp as ->.
    + apply list_elem_of_fmap in Hp as (e & -> & He).
      assert (e ∈ take_while (λ e, negb (flagged e)) (first :: rest)) as Htw.
      { eapply elem_of_sublist; [done|apply sublist_take]. }
      pose proof (take_while_holds _ _ _ Htw) as Hok.
      assert (e ∈ entries c) as Hent.
      { eapply elem_of_sublist; [exact Htw|].
        etrans; [apply take_while_sublist|]. rewrite <- Hfil. apply sublist_filter. }
      apply elem_of_entries_of in Hent as [_ Hobj]. rewrite Hobj in Hi. injection Hi as <-.
      unfold flagged in Hok. rewrite Herr in Hok. done.
Qed.

Lemma split_not_nil (sep : Ascii.ascii) (s : string) : split sep s ≠ [].
Proof. destruct s as [|c s]; simpl; [done|]. by destruct (Ascii.eqb c sep), (split sep s). Qed.

Lemma join_split (sep : Ascii.ascii) (s : string) : join sep (split sep s) = s.
Proof.
  induction s as [|c s IH]; [done|].
  simpl. destruct (Ascii.eqb_spec c sep) as [->|Hne].
  - pose proof (split_not_nil sep s). destruct (split sep s) as [|p ps] eqn:E; [done|].
    simpl in *. by rewrite IH.
  - pose proof (split_not_nil sep s). destruct (split sep s) as [|p ps] eqn:E; [done|].
    destruct ps; simpl in *; by rewrite <- IH.
Qed.



Section Further.
Variable authenticated : ListenBrainzScrobbler → bool.
Variable initial_default : bool.

(** The listens the loop collects are those of the records it adds, read
    before the loop. *)
Lemma Submit_loop_array (l : list nat) :
  ∀ (c : ScrobblerCache.t) (acc : list nat) (arr : list (Z * ScrobbleMetadata.t)),
  (Submit_loop l c acc arr).2 =
    arr ++ omap (listen_of c) (drop (length acc) (Submit_loop l c acc arr).1.2).
Proof.
  induction l as [|q l IH]; intros c acc arr; cbn [Submit_loop].
  { cbn [fst snd]. by rewrite drop_all, app_nil_r. }
  destruct (ScrobblerCache.objects c !! q) as [item|] eqn:Hq; [|apply IH].
  destruct (ScrobblerCacheItem.sent item) eqn:Hsent; [apply IH|].
  destruct (ScrobblerCacheItem.error item && (0 <? length acc)).
  { cbn [fst snd]. by rewrite drop_all, app_nil_r. }
  set (c1 := ScrobblerCache.write q (ScrobblerCacheItem.set_sent true item) c).
  assert (listen_of c q =
          Some (ScrobblerCacheItem.timestamp item, ScrobblerCacheItem.metadata item)) as Hlq.
  { unfold listen_of. by rewrite Hq. }
  destruct ((kScrobblesPerRequest <=? length (acc ++ [q])) || ScrobblerCacheItem.error item).
  { cbn [fst snd]. rewrite drop_app_length. cbn [omap list_omap]. by rewrite Hlq. }
  rewrite IH.
  destruct (Submit_loop_effect l c1 (acc ++ [q])
              (arr ++ [(ScrobblerCacheItem.timestamp item, ScrobblerCacheItem.metadata item)]))
    as (added & Hb & _ & _ & Hin & _).
  rewrite Hb. rewrite drop_app_length.
  rewrite <- (app_assoc acc [q] added). rewrite drop_app_length.
  cbn [app omap list_omap]. rewrite Hlq. rewrite <- app_assoc. cbn [app].
  do 2 f_equal. apply list_omap_ext. apply Forall2_same_length_lookup_2; [done|].
  intros i x y Hx Hy. rewrite Hx in Hy. injection Hy as <-.
  assert (x ∈ added) as Hxa by (by eapply list_elem_of_lookup_2).
  destruct (Hin x Hxa) as (_ & j & Hj & Hs & _).
  unfold listen_of. unfold c1 in *. simpl in *.
  rewrite lookup_insert_ne; [done|]. intros ->. rewrite lookup_insert_eq in Hj.
  injection Hj as <-. done.
Qed.

(** X1.  With its preconditions met and a batch that is not empty, [Submit]
    posts exactly one request, which carries the listens of the batch
    records in batch order, marks exactly the batch records sent, leaves the
    queue as a list alone and sets [submitted_]. *)
Theorem Submit_posts_the_batch (s : ListenBrainzScrobbler) :
  can_submit authenticated s →
  Submit_batch (cache_ s) ≠ [] →
  let batch := Submit_batch (cache_ s) in
  let s' := Submit authenticated s in
  submitted_ s' = true
  ∧ posted s' =
      posted s ++ [mkRequest (kApiUrl +:+ "/1/submit-listens")
                             (Import (omap (listen_of (cache_ s)) batch))]
  ∧ replies_ s' = replies_ s ++ [next_reply s]
  ∧ connected s' !! next_reply s = Some (ScrobbleRequestFinishedSlot batch)
  ∧ ScrobblerCache.List (cache_ s') = ScrobblerCache.List (cache_ s)
  ∧ ∀ p, ScrobblerCache.objects (cache_ s') !! p =
         (if bool_decide (p ∈ batch) then ScrobblerCacheItem.set_sent true else id)
           <$> ScrobblerCache.objects (cache_ s) !! p.
Proof.
  intros Hcan Hne batch s'. subst s'. rewrite (Submit_unfold authenticated s Hcan).
  fold batch. destruct batch as [|p0 b] eqn:Hbatch; [done|]. rewrite <- Hbatch. clear Hne.
  pose proof (Submit_loop_array (ScrobblerCache.List (cache_ s)) (cache_ s) [] []) as Harr.
  destruct (Submit_loop_effect (ScrobblerCache.List (cache_ s)) (cache_ s) [] [])
    as (added & Hb & Hl & _ & Hin & Hout).
  fold (Submit_batch (cache_ s)) in Harr, Hb. fold batch in Harr, Hb.
  cbn [app length drop] in Harr, Hb. subst added.
  cbv zeta. unfold connect, CreateReply. cbn -[Submit_loop batch kApiUrl String.append].
  split_and!; [done|by rewrite Harr|done|by rewrite lookup_insert_eq|done|].
  intros p. case_bool_decide as Hp.
  - destruct (Hin p Hp) as (_ & i & -> & _ & ->). done.
  - rewrite (Hout p Hp). by destruct (ScrobblerCache.objects (cache_ s) !! p).
Qed.

(** The members that never touch the cache. *)
Lemma Error_cache (e : string) (s : ListenBrainzScrobbler) : cache_ (Error e s) = cache_ s.
Proof. unfold Error. by destruct (ScrobblerSettings.show_error_dialog _). Qed.

Lemma RequestAccessToken_cache (u : QUrl.t) (code : string) (s : ListenBrainzScrobbler) :
  cache_ (RequestAccessToken u code s) = cache_ s.
Proof.
  unfold RequestAccessToken.
  repeat match goal with |- context [if ?b then _ else _] => destruct b end; done.
Qed.

Lemma RedirectArrived_cache (s : ListenBrainzScrobbler) : cache_ (RedirectArrived s) = cache_ s.
Proof.
  unfold RedirectArrived. destruct (server_ s) as [server|]; [|done].
  repeat match goal with |- context [if ?b then _ else _] => destruct b end; try done.
  apply (RequestAccessToken_cache _ _ s).
Qed.

Lemma GetJsonObject_cache (r : QNetworkReply.t) (s : ListenBrainzScrobbler) :
  cache_ (GetJsonObject r s).2 = cache_ s.
Proof. by destruct (GetJsonObject_frame r s) as (? & _). Qed.

Lemma UpdateNowPlayingRequestFinished_cache (reply : nat) (r : QNetworkReply.t)
    (s : ListenBrainzScrobbler) :
  cache_ (UpdateNowPlayingRequestFinished reply r s) = cache_ s.
Proof.
  unfold UpdateNowPlayingRequestFinished.
  destruct (negb (bool_decide (reply ∈ replies_ s))); [done|].
  pose proof (GetJsonObject_cache r (take_reply reply s)) as HG.
  destruct (GetJsonObject r (take_reply reply s)) as [[[res obj] msg] s1]. cbn [snd] in HG.
  repeat match goal with |- context [if ?b then _ else _] => destruct b end;
    rewrite ?Error_cache; exact HG.
Qed.

Lemma LoveRequestFinished_cache (reply : nat) (r : QNetworkReply.t)
    (s : ListenBrainzScrobbler) :
  cache_ (LoveRequestFinished reply r s) = cache_ s.
Proof.
  unfold LoveRequestFinished.
  destruct (negb (bool_decide (reply ∈ replies_ s))); [done|].
  pose proof (GetJsonObject_cache r (take_reply reply s)) as HG.
  destruct (GetJsonObject r (take_reply reply s)) as [[[res obj] msg] s1]. cbn [snd] in HG.
  destruct (negb (bool_decide (res = Success))); rewrite ?Error_cache; exact HG.
Qed.

Lemma Love_cache (s : ListenBrainzScrobbler) : cache_ (Love authenticated s) = cache_ s.
Proof.
  unfold Love. destruct (negb _ || negb _); [done|].
  destruct (isEmpty _); rewrite ?Error_cache; by destruct (negb (authenticated s)).
Qed.

(** The queue after [AuthenticateReplyFinished] is the queue before, read as
    a list. *)
Lemma AuthenticateReplyFinished_queue (reply : nat) (r : QNetworkReply.t) (now : Z)
    (s : ListenBrainzScrobbler) :
  ScrobblerCache.List
    (cache_ (AuthenticateReplyFinished authenticated initial_default reply r now s)) =
  ScrobblerCache.List (cache_ s).
Proof.
  unfold AuthenticateReplyFinished.
  destruct (negb (bool_decide (reply ∈ replies_ s))); [done|].
  pose proof (GetJsonObject_cache r (take_reply reply s)) as HG.
  destruct (GetJsonObject r (take_reply reply s)) as [[[res obj] msg] s1]. cbn [snd] in HG.
  change (cache_ (take_reply reply s)) with (cache_ s) in HG.
  destruct (negb (bool_decide (res = Success))); [simpl; by rewrite HG|].
  match goal with |- context [if ?b then _ else _] => destruct b end; [simpl; by rewrite HG|].
  match goal with |- context [StartSubmit _ _ ?x] =>
    destruct (StartSubmit_frame authenticated initial_default x) as (Hl & _) end.
  unfold ScrobblerCache.List. rewrite Hl. destruct (0 <? _)%Z; simpl; by rewrite HG.
Qed.

(** What an event does to the queue when it is not the reply to a batch:
    nothing, or one record is appended. *)
Lemma Scrobble_queue (song : Song.t) (s : ListenBrainzScrobbler) :
  let s' := Scrobble authenticated initial_default song s in
  ScrobblerCache.List (cache_ s') = ScrobblerCache.List (cache_ s)
  ∨ ScrobblerCache.List (cache_ s') =
    ScrobblerCache.List (cache_ s) ++ [ScrobblerCache.fresh (cache_ s)].
Proof.
  cbv zeta. destruct (accepts song s) eqn:Ha.
  - right. by destruct (Scrobble_accepted authenticated initial_default song s Ha)
      as (_ & _ & _ & ? & _).
  - left. by rewrite Scrobble_rejected.
Qed.

Lemma CheckScrobblePrevSong_queue (now : Z) (s : ListenBrainzScrobbler) :
  let s' := CheckScrobblePrevSong authenticated initial_default now s in
  ScrobblerCache.List (cache_ s') = ScrobblerCache.List (cache_ s)
  ∨ ScrobblerCache.List (cache_ s') =
    ScrobblerCache.List (cache_ s) ++ [ScrobblerCache.fresh (cache_ s)].
Proof.
  cbv zeta. rewrite CheckScrobblePrevSong_unfold. cbv zeta.
  match goal with |- context [if ?b then _ else _] => destruct b end; [|by left].
  apply Scrobble_queue.
Qed.

(** X3.  Records leave the queue only when the reply to a batch is handled:
    every other event leaves the queue as it is or appends one record at its
    end. *)
Theorem only_batch_replies_remove_records (e : Event) (s : ListenBrainzScrobbler) :
  (∀ reply r now, e = ReplyFinished reply r now → is_batch_reply s reply = false) →
  let s' := handle authenticated initial_default e s in
  ScrobblerCache.List (cache_ s') = ScrobblerCache.List (cache_ s)
  ∨ ScrobblerCache.List (cache_ s') =
    ScrobblerCache.List (cache_ s) ++ [ScrobblerCache.fresh (cache_ s)].
Proof.
  intros Hno. cbv zeta. destruct e; cbn [handle].
  - left. by unfold ReloadSettings.
  - left. unfold LoadSession. by destruct (negb (isEmpty _)).
  - by left.
  - left. unfold Authenticate. destruct (server_ s); [done|]. by destruct (negb listen_ok).
  - left. destruct (server_ s); [|done]. by rewrite RedirectArrived_cache.
  - left. destruct (QTimer.isActive (refresh_login_timer_ s)); [|done].
    unfold RequestNewAccessToken. by rewrite RequestAccessToken_cache.
  - destruct (UpdateNowPlaying_cache authenticated initial_default song now s) as (-> & _).
    apply CheckScrobblePrevSong_queue.
  - destruct (ClearPlaying_cache authenticated initial_default now s) as (-> & _).
    apply CheckScrobblePrevSong_queue.
  - apply Scrobble_queue.
  - left. by destruct (StartSubmit_frame authenticated initial s) as (? & _).
  - left. by destruct (Submit_frame authenticated s) as (? & _).
  - left. destruct (QTimer.isActive (timer_submit_ s)); [|done].
    by destruct (Submit_frame authenticated
                   (set_timer_submit_ (QTimer.stop (timer_submit_ s)) s)) as (? & _).
  - left. by rewrite Love_cache.
  - specialize (Hno reply r now eq_refl). unfold is_batch_reply in Hno.
    destruct (connected s !! reply) as [[]|]; try discriminate; left.
    + apply AuthenticateReplyFinished_queue.
    + by rewrite UpdateNowPlayingRequestFinished_cache.
    + by rewrite LoveRequestFinished_cache.
    + done.
Qed.

Lemma keeps_records_refl (c : ScrobblerCache.t) : keeps_records c c.
Proof. intros p i Hi. eauto. Qed.

Lemma keeps_records_trans (c1 c2 c3 : ScrobblerCache.t) :
  keeps_records c1 c2 → keeps_records c2 c3 → keeps_records c1 c3.
Proof.
  intros H1 H2 p i Hi. destruct (H1 p i Hi) as (i' & Hi' & Hm & Ht).
  destruct (H2 p i' Hi') as (i'' & Hi'' & Hm' & Ht').
  exists i''. split_and!; [done|congruence|congruence].
Qed.

Lemma keeps_records_alter (f : ScrobblerCacheItem.t → ScrobblerCacheItem.t)
    (c c' : ScrobblerCache.t) (l : list nat) :
  (∀ i, ScrobblerCacheItem.metadata (f i) = ScrobblerCacheItem.metadata i
        ∧ ScrobblerCacheItem.timestamp (f i) = ScrobblerCacheItem.timestamp i) →
  (∀ p, ScrobblerCache.objects c' !! p =
        (if bool_decide (p ∈ l) then f else id) <$> ScrobblerCache.objects c !! p) →
  keeps_records c c'.
Proof.
  intros Hf Hl p i Hi. rewrite Hl, Hi. simpl.
  destruct (bool_decide (p ∈ l)); eexists; (split; [reflexivity|]); [apply Hf|done].
Qed.

Lemma keeps_records_StartSubmit (initial : bool) (s : ListenBrainzScrobbler) :
  keeps_records (cache_ s) (cache_ (StartSubmit authenticated initial s)).
Proof. intros p i Hi. by apply StartSubmit_lookup. Qed.

Lemma keeps_records_Add (song : Song.t) (t : Z) (c : ScrobblerCache.t) :
  ScrobblerCache.wf c → keeps_records c (ScrobblerCache.Add song t c).
Proof.
  intros (_ & _ & Hfresh) p i Hi. exists i. split; [|done].
  simpl. rewrite lookup_insert_ne; [done|].
  assert (p < ScrobblerCache.fresh c) by (apply Hfresh; by eexists). lia.
Qed.

Lemma keeps_records_Scrobble (song : Song.t) (s : ListenBrainzScrobbler) :
  ScrobblerCache.wf (cache_ s) →
  keeps_records (cache_ s) (cache_ (Scrobble authenticated initial_default song s)).
Proof.
  intros Hwf. unfold Scrobble.
  match goal with |- context [if ?b then _ else _] => destruct b end;
    [apply keeps_records_refl|].
  set (s1 := set_cache_ _ _).
  assert (keeps_records (cache_ s) (cache_ s1)) as H1 by (by apply keeps_records_Add).
  destruct (ScrobblerSettings.offline (settings_ s1) || negb (authenticated s1)); [done|].
  eapply keeps_records_trans; [exact H1|apply keeps_records_StartSubmit].
Qed.

Lemma keeps_records_CheckScrobblePrevSong (now : Z) (s : ListenBrainzScrobbler) :
  ScrobblerCache.wf (cache_ s) →
  keeps_records (cache_ s)
    (cache_ (CheckScrobblePrevSong authenticated initial_default now s)).
Proof.
  intros Hwf. rewrite CheckScrobblePrevSong_unfold. cbv zeta.
  match goal with |- context [if ?b then _ else _] => destruct b end;
    [|apply keeps_records_refl].
  by apply keeps_records_Scrobble.
Qed.

Lemma keeps_records_Flush (l : list nat) (c : ScrobblerCache.t) :
  keeps_records c (ScrobblerCache.Flush l c).
Proof. intros p i Hi. by exists i. Qed.

Lemma keeps_records_ClearSent (l : list nat) (c : ScrobblerCache.t) :
  keeps_records c (ScrobblerCache.ClearSent l c).
Proof.
  apply (keeps_records_alter (ScrobblerCacheItem.set_sent false) _ _ l); [done|].
  apply ClearSent_lookup.
Qed.

Lemma keeps_records_SetError (l : list nat) (c : ScrobblerCache.t) :
  keeps_records c (ScrobblerCache.SetError l c).
Proof.
  apply (keeps_records_alter (ScrobblerCacheItem.set_error true) _ _ l); [done|].
  apply SetError_lookup.
Qed.

Lemma keeps_records_ScrobbleRequestFinished (reply : nat) (r : QNetworkReply.t)
    (cache_items : list nat) (s : ListenBrainzScrobbler) :
  keeps_records (cache_ s)
    (cache_ (ScrobbleRequestFinished authenticated initial_default reply r cache_items s)).
Proof.
  unfold ScrobbleRequestFinished.
  destruct (negb (bool_decide (reply ∈ replies_ s))); [apply keeps_records_refl|].
  set (s0 := set_submitted_ false (take_reply reply s)).
  pose proof (GetJsonObject_cache r s0) as HG.
  destruct (GetJsonObject r s0) as [[[res obj] msg] s1]. cbn [snd] in HG.
  change (cache_ s0) with (cache_ s) in HG.
  eapply keeps_records_trans; [|apply keeps_records_StartSubmit].
  unfold Error.
  repeat match goal with |- context [if ?b then _ else _] => destruct b end;
    cbn [cache_ set_cache_ set_submit_error_ emit set_emitted]; rewrite HG;
    first [ apply keeps_records_Flush
          | apply keeps_records_ClearSent
          | eapply keeps_records_trans;
            [apply keeps_records_SetError|apply keeps_records_ClearSent] ].
Qed.

Lemma keeps_records_handle (e : Event) (s : ListenBrainzScrobbler) :
  ScrobblerCache.wf (cache_ s) →
  keeps_records (cache_ s) (cache_ (handle authenticated initial_default e s)).
Proof.
  intros Hwf. destruct e; cbn [handle].
  - apply keeps_records_refl.
  - unfold LoadSession. destruct (negb (isEmpty _)); apply keeps_records_refl.
  - apply keeps_records_refl.
  - unfold Authenticate. destruct (server_ s); [apply keeps_records_refl|].
    destruct (negb listen_ok); apply keeps_records_refl.
  - destruct (server_ s); [|apply keeps_records_refl].
    rewrite RedirectArrived_cache. apply keeps_records_refl.
  - destruct (QTimer.isActive (refresh_login_timer_ s)); [|apply keeps_records_refl].
    unfold RequestNewAccessToken. rewrite RequestAccessToken_cache. apply keeps_records_refl.
  - destruct (UpdateNowPlaying_cache authenticated initial_default song now s) as (-> & _).
    by apply keeps_records_CheckScrobblePrevSong.
  - destruct (ClearPlaying_cache authenticated initial_default now s) as (-> & _).
    by apply keeps_records_CheckScrobblePrevSong.
  - by apply keeps_records_Scrobble.
  - apply keeps_records_StartSubmit.
  - intros p i Hi. by apply Submit_lookup.
  - destruct (QTimer.isActive (timer_submit_ s)); [|apply keeps_records_refl].
    intros p i Hi. by apply (Submit_lookup authenticated (set_timer_submit_ _ s)).
  - rewrite Love_cache. apply keeps_records_refl.
  - destruct (connected s !! reply) as [[]|]; [| | | |apply keeps_records_refl].
    + unfold AuthenticateReplyFinished.
      destruct (negb (bool_decide (reply ∈ replies_ s))); [apply keeps_records_refl|].
      pose proof (GetJsonObject_cache r (take_reply reply s)) as HG.
      destruct (GetJsonObject r (take_reply reply s)) as [[[res obj] msg] s1].
      cbn [snd] in HG. change (cache_ (take_reply reply s)) with (cache_ s) in HG.
      destruct (negb (bool_decide (res = Success)));
        [simpl; rewrite HG; apply keeps_records_refl|].
      match goal with |- context [if ?b then _ else _] => destruct b end;
        [simpl; rewrite HG; apply keeps_records_refl|].
      eapply keeps_records_trans; [|apply keeps_records_StartSubmit].
      destruct (0 <? _)%Z; simpl; rewrite HG; apply keeps_records_refl.
    + rewrite UpdateNowPlayingRequestFinished_cache. apply keeps_records_refl.
    + apply keeps_records_ScrobbleRequestFinished.
    + rewrite LoveRequestFinished_cache. apply keeps_records_refl.
Qed.

(** X4.  Starting from a well-formed cache, whatever happens, the record
    behind an address stays there with the metadata and the timestamp it
    was enqueued with; only its flags change. *)
Theorem queued_records_keep_their_content (events : list Event) :
  ∀ s : ListenBrainzScrobbler,
  ScrobblerCache.wf (cache_ s) →
  keeps_records (cache_ s) (cache_ (run authenticated initial_default events s)).
Proof.
  induction events as [|e events IH]; intros s Hwf; [apply keeps_records_refl|].
  change (run authenticated initial_default (e :: events) s)
    with (run authenticated initial_default events (handle authenticated initial_default e s)).
  eapply keeps_records_trans; [by apply keeps_records_handle|].
  apply IH. by apply wf_handle.
Qed.

(** X5.  Start with no batch in flight and no outstanding reply, and let
    [Submit] be reached only through the scheduler and the timer.  Then at
    every moment there is exactly one outstanding batch reply when
    [submitted_] is set and none when it is not, and the submit timer does
    not run while a batch is in flight. *)
Theorem at_most_one_batch_in_flight (events : list Event) (s : ListenBrainzScrobbler) :
  submitted_ s = false → replies_ s = [] →
  forallb (λ e, negb (calls_Submit e)) events = true →
  let s' := run authenticated initial_default events s in
  length (batches_in_flight s') = (if submitted_ s' then 1 else 0)
  ∧ (submitted_ s' = true → QTimer.isActive (timer_submit_ s') = false).
Proof.
  intros Hsub Hr Hev s'.
  assert (single_flight s) as Hinv.
  { unfold single_flight, batches_in_flight. rewrite Hsub, Hr.
    split_and!; [done|done|]. intros r Hin. inversion Hin. }
  destruct (single_flight_run authenticated initial_default events s Hev Hinv)
    as (Htimer & Hbatch & _).
  fold s' in Htimer, Hbatch. split; [|done].
  destruct (submitted_ s'); [by destruct Hbatch as [r ->]|by rewrite Hbatch].
Qed.

(** X6.  Starting from an empty cache, whatever happens, no address is queued
    twice and every queued address refers to a record. *)
Theorem queue_without_duplicates (events : list Event) (s : ListenBrainzScrobbler) :
  cache_ s = ScrobblerCache.empty →
  let c := cache_ (run authenticated initial_default events s) in
  NoDup (ScrobblerCache.List c)
  ∧ ∀ p, p ∈ ScrobblerCache.List c → is_Some (ScrobblerCache.objects c !! p).
Proof.
  intros Hempty c.
  destruct (wf_run authenticated initial_default events s) as (Hnd & Hlive & _);
    [rewrite Hempty; apply wf_empty|]. done.
Qed.

(** Connections of replies already issued are left alone by [Submit] and by
    the scheduler. *)
Lemma Submit_connected (s : ListenBrainzScrobbler) (reply : nat) :
  reply < next_reply s →
  connected (Submit authenticated s) !! reply = connected s !! reply
  ∧ next_reply s ≤ next_reply (Submit authenticated s).
Proof.
  intros Hlt. unfold Submit.
  destruct (negb (enabled s) || negb (authenticated s)
            || ScrobblerSettings.offline (settings_ s)); [done|].
  destruct (Submit_loop (ScrobblerCache.List (cache_ s)) (cache_ s) [] []) as [[c b] a].
  destruct (length b <=? 0); [done|]. simpl.
  rewrite lookup_insert_ne by lia. split; [done|lia].
Qed.

Lemma StartSubmit_connected (initial : bool) (s : ListenBrainzScrobbler) (reply : nat) :
  reply < next_reply s →
  connected (StartSubmit authenticated initial s) !! reply = connected s !! reply.
Proof.
  intros Hlt. unfold StartSubmit.
  repeat match goal with |- context [if ?b then _ else _] => destruct b end; try done.
  - by apply (Submit_connected (set_timer_submit_ _ s)).
  - by apply Submit_connected.
Qed.

Lemma GetJsonObject_connected (r : QNetworkReply.t) (s : ListenBrainzScrobbler) :
  connected (GetJsonObject r s).2 = connected s
  ∧ next_reply (GetJsonObject r s).2 = next_reply s.
Proof. rewrite GetJsonObject_state. by destruct (is_auth_error r). Qed.

Lemma Error_connected (e : string) (s : ListenBrainzScrobbler) :
  connected (Error e s) = connected s.
Proof. unfold Error. by destruct (ScrobblerSettings.show_error_dialog _). Qed.

(** Once a reply has been handled its connection is gone. *)
Lemma handled_reply_disconnected (reply : nat) (r : QNetworkReply.t) (now : Z)
    (s : ListenBrainzScrobbler) :
  reply < next_reply s → reply ∈ replies_ s →
  connected (handle authenticated initial_default (ReplyFinished reply r now) s) !! reply = None.
Proof.
  intros Hlt Hin. cbn [handle].
  destruct (connected s !! reply) as [[]|] eqn:Hslot; [| | | |done].
  - unfold AuthenticateReplyFinished. rewrite (bool_decide_eq_true_2 _ Hin). cbn [negb].
    destruct (GetJsonObject_connected r (take_reply reply s)) as (Hc & Hn).
    destruct (GetJsonObject r (take_reply reply s)) as [[[res obj] msg] s1].
    cbn [snd] in Hc, Hn.
    assert (connected s1 !! reply = None) as Hgone.
    { rewrite Hc. simpl. apply lookup_delete_eq. }
    destruct (negb (bool_decide (res = Success))); [done|].
    match goal with |- context [if ?b then _ else _] => destruct b end; [done|].
    rewrite StartSubmit_connected; [by destruct (0 <? _)%Z|].
    destruct (0 <? _)%Z; simpl; rewrite Hn; done.
  - unfold UpdateNowPlayingRequestFinished. rewrite (bool_decide_eq_true_2 _ Hin).
    cbn [negb].
    destruct (GetJsonObject_connected r (take_reply reply s)) as (Hc & Hn).
    destruct (GetJsonObject r (take_reply reply s)) as [[[res obj] msg] s1].
    cbn [snd] in Hc, Hn.
    assert (connected s1 !! reply = None) as Hgone.
    { rewrite Hc. simpl. apply lookup_delete_eq. }
    repeat match goal with |- context [if ?b then _ else _] => destruct b end;
      rewrite ?Error_connected; done.
  - unfold ScrobbleRequestFinished. rewrite (bool_decide_eq_true_2 _ Hin). cbn [negb].
    set (s0 := set_submitted_ false (take_reply reply s)).
    destruct (GetJsonObject_connected r s0) as (Hc & Hn).
    destruct (GetJsonObject r s0) as [[[res obj] msg] s1]. cbn [snd] in Hc, Hn.
    assert (connected s1 !! reply = None) as Hgone.
    { rewrite Hc. simpl. apply lookup_delete_eq. }
    rewrite StartSubmit_connected.
    + unfold Error.
      repeat match goal with |- context [if ?b then _ else _] => destruct b end; done.
    + unfold Error.
      repeat match goal with |- context [if ?b then _ else _] => destruct b end;
        simpl; rewrite Hn; done.
  - unfold LoveRequestFinished. rewrite (bool_decide_eq_true_2 _ Hin). cbn [negb].
    destruct (GetJsonObject_connected r (take_reply reply s)) as (Hc & Hn).
    destruct (GetJsonObject r (take_reply reply s)) as [[[res obj] msg] s1].
    cbn [snd] in Hc, Hn.
    assert (connected s1 !! reply = None) as Hgone.
    { rewrite Hc. simpl. apply lookup_delete_eq. }
    destruct (negb (bool_decide (res = Success))); rewrite ?Error_connected; done.
Qed.

(** A reply that is not in [replies_] is ignored. *)
Lemma unknown_reply_ignored (reply : nat) (r : QNetworkReply.t) (now : Z)
    (s : ListenBrainzScrobbler) :
  reply ∉ replies_ s →
  handle authenticated initial_default (ReplyFinished reply r now) s = s.
Proof.
  intros Hout. cbn [handle].
  destruct (connected s !! reply) as [[]|]; [| | | |done].
  - unfold AuthenticateReplyFinished. by rewrite (bool_decide_eq_false_2 _ Hout).
  - unfold UpdateNowPlayingRequestFinished. by rewrite (bool_decide_eq_false_2 _ Hout).
  - unfold ScrobbleRequestFinished. by rewrite (bool_decide_eq_false_2 _ Hout).
  - unfold LoveRequestFinished. by rewrite (bool_decide_eq_false_2 _ Hout).
Qed.

(** X7.  A reply is handled once: when the [finished] signal of a reply
    that the network has issued is delivered a second time, with whatever
    content, nothing happens; and a reply that is not in [replies_] is
    ignored altogether. *)
Theorem reply_handled_once (reply : nat) (r r' : QNetworkReply.t) (now now' : Z)
    (s : ListenBrainzScrobbler) :
  reply < next_reply s →
  let s1 := handle authenticated initial_default (ReplyFinished reply r now) s in
  handle authenticated initial_default (ReplyFinished reply r' now') s1 = s1
  ∧ (reply ∉ replies_ s → s1 = s).
Proof.
  intros Hlt s1. split; [|by apply unknown_reply_ignored].
  destruct (decide (reply ∈ replies_ s)) as [Hin|Hout].
  - pose proof (handled_reply_disconnected reply r now s Hlt Hin) as Hgone.
    fold s1 in Hgone. cbn [handle]. by rewrite Hgone.
  - assert (s1 = s) as -> by (by apply unknown_reply_ignored).
    by apply unknown_reply_ignored.
Qed.


Lemma success_leaves_state (r : QNetworkReply.t) (s : ListenBrainzScrobbler) :
  (GetJsonObject r s).1.1.1 = Success → (GetJsonObject r s).2 = s.
Proof.
  intros Hs. rewrite GetJsonObject_state.
  destruct (is_auth_error r) eqn:Ha; [|done].
  by destruct (auth_error_no_success r s Ha).
Qed.

(** X9.  The handlers of the replies to a now-playing notification, a batch
    and a love touch the session only by logging out: after a reply with
    one of the transport errors that invalidate the session the session in
    memory is the logged-out one and the four token keys are gone from the
    store; after any other reply the session and the store are as before. *)
Theorem replies_touch_session_by_logout_only (reply : nat) (r : QNetworkReply.t) (now : Z)
    (slot : Slot) (s : ListenBrainzScrobbler) :
  connected s !! reply = Some slot →
  slot ≠ AuthenticateReplyFinishedSlot →
  reply ∈ replies_ s →
  let s' := handle authenticated initial_default (ReplyFinished reply r now) s in
  session_ s' = (if is_auth_error r then logged_out else session_ s)
  ∧ store s' = (if is_auth_error r then without_tokens (store s) else store s).
Proof.
  intros Hslot Hne Hin. cbv zeta.
  destruct (is_auth_error r) eqn:Hauth.
  { by apply (reply_with_auth_error_logs_out authenticated initial_default reply r now slot s). }
  cbn [handle]. rewrite Hslot. destruct slot; [done| | |].
  - unfold UpdateNowPlayingRequestFinished. rewrite (bool_decide_eq_true_2 _ Hin). cbn [negb].
    pose proof (GetJsonObject_state r (take_reply reply s)) as Hst. rewrite Hauth in Hst.
    destruct (GetJsonObject r (take_reply reply s)) as [[[res obj] msg] s1].
    cbn [snd] in Hst. subst s1.
    repeat match goal with |- context [if ?b then _ else _] => destruct b end; try done.
    all: match goal with |- context [Error ?e ?x] =>
           by destruct (Error_session e x) as (-> & ->) end.
  - unfold ScrobbleRequestFinished. rewrite (bool_decide_eq_true_2 _ Hin). cbn [negb].
    set (s0 := set_submitted_ false (take_reply reply s)).
    pose proof (GetJsonObject_state r s0) as Hst. rewrite Hauth in Hst.
    destruct (GetJsonObject r s0) as [[[res obj] msg] s1]. cbn [snd] in Hst. subst s1.
    match goal with |- context [StartSubmit _ _ ?x] =>
      destruct (StartSubmit_frame authenticated initial_default x)
        as (_ & _ & _ & _ & -> & -> & _) end.
    unfold Error.
    repeat match goal with |- context [if ?b then _ else _] => destruct b end; done.
  - unfold LoveRequestFinished. rewrite (bool_decide_eq_true_2 _ Hin). cbn [negb].
    pose proof (GetJsonObject_state r (take_reply reply s)) as Hst. rewrite Hauth in Hst.
    destruct (GetJsonObject r (take_reply reply s)) as [[[res obj] msg] s1].
    cbn [snd] in Hst. subst s1.
    destruct (negb (bool_decide (res = Success))); [|done].
    by destruct (Error_session msg (take_reply reply s)) as (-> & ->).
Qed.

(** The scheduler and [Submit] leave the refresh timer alone. *)
Lemma StartSubmit_refresh_timer (initial : bool) (s : ListenBrainzScrobbler) :
  refresh_login_timer_ (StartSubmit authenticated initial s) = refresh_login_timer_ s.
Proof.
  assert (∀ x, refresh_login_timer_ (Submit authenticated x) = refresh_login_timer_ x) as HS.
  { intros x. unfold Submit.
    destruct (negb (enabled x) || negb (authenticated x)
              || ScrobblerSettings.offline (settings_ x)); [done|].
    destruct (Submit_loop (ScrobblerCache.List (cache_ x)) (cache_ x) [] []) as [[c b] a].
    by destruct (length b <=? 0). }
  unfold StartSubmit.
  repeat match goal with |- context [if ?b then _ else _] => destruct b end;
    rewrite ?HS; done.
Qed.

(** What a successful token exchange leaves behind, before the scheduler is
    started. *)
Lemma AuthenticateReplyFinished_success (reply : nat) (r : QNetworkReply.t) (now : Z)
    (s : ListenBrainzScrobbler) :
  reply ∈ replies_ s →
  (GetJsonObject r s).1.1.1 = Success →
  has_token_fields (GetJsonObject r s).1.1.2 = true →
  let json_obj := (GetJsonObject r s).1.1.2 in
  let session :=
    mkSession (Json.toString (json_obj !! "access_token"))
              (Json.toInt (json_obj !! "expires_in"))
              (Json.toString (json_obj !! "token_type"))
              (if Json.contains json_obj "refresh_token"
               then Json.toString (json_obj !! "refresh_token")
               else refresh_token_ (session_ s))
              now in
  let s' := AuthenticateReplyFinished authenticated initial_default reply r now s in
  session_ s' = session
  ∧ store s' =
      <["login_time" := VInt now]>
        (<["refresh_token" := VString (refresh_token_ session)]>
           (<["token_type" := VString (token_type_ session)]>
              (<["expires_in" := VInt (expires_in_ session)]>
                 (<["access_token" := VString (access_token_ session)]> (store s)))))
  ∧ emitted s' = emitted s ++ [AuthenticationComplete true ""]
  ∧ refresh_login_timer_ s' =
      (if (0 <? expires_in_ session)%Z
       then QTimer.mk (to_int (expires_in_ session * kMsecPerSec)) true
       else refresh_login_timer_ s).
Proof.
  intros Hin Hres Hfields. cbv zeta.
  unfold AuthenticateReplyFinished. rewrite (bool_decide_eq_true_2 _ Hin). cbn [negb].
  rewrite (GetJsonObject_result r s (take_reply reply s)) in Hres, Hfields |- *.
  pose proof (success_leaves_state r (take_reply reply s) Hres) as Hst.
  destruct (GetJsonObject r (take_reply reply s)) as [[[res obj] msg] s1].
  cbn [fst snd] in *. subst res s1.
  rewrite bool_decide_eq_true_2 by done. cbn [negb].
  unfold has_token_fields in Hfields.
  apply andb_true_iff in Hfields as [[H1 H2]%andb_true_iff H3].
  rewrite H1, H2, H3. cbn [negb orb].
  match goal with |- context [StartSubmit _ _ ?x] =>
    destruct (StartSubmit_frame authenticated initial_default x)
      as (_ & _ & _ & _ & -> & -> & -> & _);
    rewrite (StartSubmit_refresh_timer initial_default x) end.
  cbn [expires_in_].
  destruct (0 <? Json.toInt (obj !! "expires_in"))%Z; done.
Qed.

(** X10.  A successful token exchange stores what the token endpoint sent
    and stamps the login time; a reply without a refresh token keeps the
    refresh token held before, in memory and in the store.  Success is
    signalled once.  The refresh timer is started for the lifetime of the
    token when that is positive, and left as it is otherwise. *)
Theorem token_exchange_success (reply : nat) (r : QNetworkReply.t) (now : Z)
    (s : ListenBrainzScrobbler) :
  reply ∈ replies_ s →
  (GetJsonObject r s).1.1.1 = Success →
  has_token_fields (GetJsonObject r s).1.1.2 = true →
  let json_obj := (GetJsonObject r s).1.1.2 in
  let s' := AuthenticateReplyFinished authenticated initial_default reply r now s in
  access_token_ (session_ s') = Json.toString (json_obj !! "access_token")
  ∧ expires_in_ (session_ s') = Json.toInt (json_obj !! "expires_in")
  ∧ token_type_ (session_ s') = Json.toString (json_obj !! "token_type")
  ∧ login_time_ (session_ s') = now
  ∧ (Json.contains json_obj "refresh_token" = false →
     refresh_token_ (session_ s') = refresh_token_ (session_ s)
     ∧ store s' !! "refresh_token" = Some (VString (refresh_token_ (session_ s))))
  ∧ (Json.contains json_obj "refresh_token" = true →
     refresh_token_ (session_ s') = Json.toString (json_obj !! "refresh_token"))
  ∧ emitted s' = emitted s ++ [AuthenticationComplete true ""]
  ∧ ((0 < expires_in_ (session_ s'))%Z →
     refresh_login_timer_ s' =
       QTimer.mk (to_int (expires_in_ (session_ s') * kMsecPerSec)) true)
  ∧ ((expires_in_ (session_ s') ≤ 0)%Z → refresh_login_timer_ s' = refresh_login_timer_ s).
Proof.
  intros Hin Hres Hfields. cbv zeta.
  destruct (AuthenticateReplyFinished_success reply r now s Hin Hres Hfields)
    as (Hs & Hst & He & Ht).
  cbv zeta in Hs, Hst, He, Ht. revert Hs Hst He Ht.
  generalize (AuthenticateReplyFinished authenticated initial_default reply r now s).
  generalize ((GetJsonObject r s).1.1.2).
  intros json_obj s' Hs Hst He Ht.
  rewrite Hs, Hst, He, Ht. cbn [access_token_ expires_in_ token_type_ login_time_
    refresh_token_].
  split_and!; try done.
  - intros ->. split; [done|]. rewrite lookup_insert_ne by done. by rewrite lookup_insert_eq.
  - by intros ->.
  - intros Hpos. apply Z.ltb_lt in Hpos. by rewrite Hpos.
  - intros Hle. apply Z.ltb_ge in Hle. by rewrite Hle.
Qed.

Lemma Json_toInt_range (v : option QJsonValue) :
  (-2147483648 ≤ Json.toInt v ≤ INT_MAX)%Z.
Proof.
  unfold Json.toInt, INT_MAX. destruct v as [[| z |]|]; try lia.
  destruct (-2147483648 <=? z)%Z eqn:E1; destruct (z <=? 2147483647)%Z eqn:E2;
    cbn [andb]; lia.
Qed.

(** What [LoadSession] reads, and what it leaves alone. *)
Lemma LoadSession_fields (now : Z) (s : ListenBrainzScrobbler) :
  session_ (LoadSession now s) =
    mkSession (Variant.toString (value (store s) "access_token" None))
              (Variant.toInt (value (store s) "expires_in" (Some (VInt (-1)))))
              (Variant.toString (value (store s) "token_type" None))
              (Variant.toString (value (store s) "refresh_token" None))
              (Variant.toLongLong (value (store s) "login_time" None))
  ∧ store (LoadSession now s) = store s.
Proof. unfold LoadSession. by destruct (negb (isEmpty _)). Qed.

Lemma LoadSession_without_refresh_token (now : Z) (s : ListenBrainzScrobbler) :
  Variant.toString (value (store s) "refresh_token" None) = "" →
  refresh_login_timer_ (LoadSession now s) = refresh_login_timer_ s.
Proof.
  intros H. unfold LoadSession. cbn [session_ set_session_ refresh_token_].
  by rewrite H.
Qed.

Lemma without_tokens_lookup (st : gmap string QVariant) :
  without_tokens st !! "access_token" = None
  ∧ without_tokens st !! "expires_in" = None
  ∧ without_tokens st !! "token_type" = None
  ∧ without_tokens st !! "refresh_token" = None
  ∧ without_tokens st !! "login_time" = st !! "login_time".
Proof.
  unfold without_tokens. split_and!;
    repeat (rewrite lookup_delete_eq || rewrite lookup_delete_ne by done); done.
Qed.

(** X11.  What a successful token exchange writes to the store is what
    [LoadSession] reads back: restoring the session right after the exchange,
    at whatever time, gives the same session fields. *)
Theorem stored_session_is_restored (reply : nat) (r : QNetworkReply.t) (now now' : Z)
    (s : ListenBrainzScrobbler) :
  reply ∈ replies_ s →
  (GetJsonObject r s).1.1.1 = Success →
  has_token_fields (GetJsonObject r s).1.1.2 = true →
  let s' := AuthenticateReplyFinished authenticated initial_default reply r now s in
  session_ (LoadSession now' s') = session_ s'.
Proof.
  intros Hin Hres Hfields. cbv zeta.
  destruct (AuthenticateReplyFinished_success reply r now s Hin Hres Hfields)
    as (Hs & Hst & _).
  cbv zeta in Hs, Hst.
  cbn [access_token_ expires_in_ token_type_ refresh_token_ login_time_] in Hst.
  revert Hs Hst.
  generalize (AuthenticateReplyFinished authenticated initial_default reply r now s).
  generalize (Json.toString ((GetJsonObject r s).1.1.2 !! "access_token")).
  generalize (Json.toString ((GetJsonObject r s).1.1.2 !! "token_type")).
  generalize (if Json.contains (GetJsonObject r s).1.1.2 "refresh_token"
              then Json.toString ((GetJsonObject r s).1.1.2 !! "refresh_token")
              else refresh_token_ (session_ s)).
  pose proof (Json_toInt_range ((GetJsonObject r s).1.1.2 !! "expires_in")) as Hrange.
  revert Hrange.
  generalize (Json.toInt ((GetJsonObject r s).1.1.2 !! "expires_in")).
  intros expires Hrange refresh type access s' Hs Hst.
  destruct (LoadSession_fields now' s') as (-> & _).
  rewrite Hs, Hst. unfold value.
  repeat (rewrite lookup_insert_eq || rewrite lookup_insert_ne by done).
  unfold Variant.toString, Variant.toInt, Variant.toLongLong.
  by rewrite to_int_small.
Qed.

(** X12.  Logging out and restoring the session afterwards gives the
    logged-out token fields and starts no refresh timer, but the login time
    that is restored is the one that was stored before the log-out: [Logout]
    leaves that key in the store. *)
Theorem session_restored_after_Logout (now : Z) (s : ListenBrainzScrobbler) :
  let s' := LoadSession now (Logout s) in
  session_ s' =
    mkSession "" (-1) "" "" (Variant.toLongLong (store s !! "login_time"))
  ∧ refresh_login_timer_ s' = refresh_login_timer_ s
  ∧ store s' = without_tokens (store s)
  ∧ store s' !! "login_time" = store s !! "login_time".
Proof.
  cbv zeta.
  assert (store (Logout s) = without_tokens (store s)) as Hst by done.
  destruct (without_tokens_lookup (store s)) as (H1 & H2 & H3 & H4 & H5).
  destruct (LoadSession_fields now (Logout s)) as (-> & ->).
  rewrite LoadSession_without_refresh_token.
  2:{ unfold value. by rewrite Hst, H4. }
  unfold value. rewrite Hst, H1, H2, H3, H4, H5.
  split_and!; try done.
  by destruct (store s !! "login_time").
Qed.

(** [RequestAccessToken] always stops the refresh timer and never
    touches the session.  With a code and a redirect URL it posts the
    exchange of the code, also when a refresh token is held; without them
    it posts the exchange of the refresh token if one is held and the
    service is enabled, and nothing at all otherwise. *)
Lemma RequestAccessToken_grant (u : QUrl.t) (code : string) (s : ListenBrainzScrobbler) :
  let s' := RequestAccessToken u code s in
  let with_code := negb (isEmpty code) && negb (QUrl.isEmpty u) in
  let can_refresh := negb (isEmpty (refresh_token_ (session_ s))) && enabled_ s in
  QTimer.isActive (refresh_login_timer_ s') = false
  ∧ session_ s' = session_ s ∧ store s' = store s ∧ emitted s' = emitted s
  ∧ (with_code = true →
     posted s' = posted s ++ [code_request u code]
     ∧ replies_ s' = replies_ s ++ [next_reply s]
     ∧ connected s' !! next_reply s = Some AuthenticateReplyFinishedSlot)
  ∧ (with_code = false → can_refresh = true →
     posted s' = posted s ++ [refresh_request (refresh_token_ (session_ s))]
     ∧ replies_ s' = replies_ s ++ [next_reply s]
     ∧ connected s' !! next_reply s = Some AuthenticateReplyFinishedSlot)
  ∧ (with_code = false → can_refresh = false →
     posted s' = posted s ∧ replies_ s' = replies_ s ∧ connected s' = connected s).
Proof.
  cbv zeta. unfold RequestAccessToken.
  cbn [session_ set_refresh_login_timer_ enabled_].
  destruct (negb (isEmpty code) && negb (QUrl.isEmpty u));
    [|destruct (negb (isEmpty (refresh_token_ (session_ s))) && enabled_ s)];
    (split_and!; try done; intros; split_and!; try done; simpl; by rewrite lookup_insert_eq).
Qed.

(** X13.  The authorization flow from end to end.  With no listener open,
    [Authenticate] opens one; when the redirect brings a code, the exchange
    of that code is posted and the listener is closed; when the token
    endpoint then answers with success and the required fields, the session
    holds the tokens of the answer with the time of the answer as login
    time, and the only signal of the whole flow is one authentication
    success. *)
Theorem authorization_flow_completes (listening redirect : LocalRedirectServer.t)
    (r : QNetworkReply.t) (now : Z) (s : ListenBrainzScrobbler) :
  server_ s = None →
  brings_code redirect →
  (GetJsonObject r s).1.1.1 = Success →
  has_token_fields (GetJsonObject r s).1.1.2 = true →
  let json_obj := (GetJsonObject r s).1.1.2 in
  let s1 := handle authenticated initial_default (CallAuthenticate listening true) s in
  let s2 := handle authenticated initial_default (ServerFinished redirect) s1 in
  let s3 := handle authenticated initial_default (ReplyFinished (next_reply s) r now) s2 in
  server_ s1 = Some listening
  ∧ server_ s2 = None
  ∧ posted s2 =
      posted s ++ [code_request (LocalRedirectServer.request_url redirect)
                     (QUrl.queryItemValue (LocalRedirectServer.request_url redirect) "code")]
  ∧ access_token_ (session_ s3) = Json.toString (json_obj !! "access_token")
  ∧ expires_in_ (session_ s3) = Json.toInt (json_obj !! "expires_in")
  ∧ token_type_ (session_ s3) = Json.toString (json_obj !! "token_type")
  ∧ login_time_ (session_ s3) = now
  ∧ emitted s3 = emitted s ++ [AuthenticationComplete true ""].
Proof.
  intros Hserver (Herr & Hvalid & Hnonempty & Hnoerror & Hcode & Hvalue) Hres Hfields.
  cbv zeta.
  assert (handle authenticated initial_default (CallAuthenticate listening true) s =
          set_server_ (Some listening) s) as ->.
  { cbn [handle]. unfold Authenticate. by rewrite Hserver. }
  set (url := LocalRedirectServer.request_url redirect) in *.
  set (code := QUrl.queryItemValue url "code") in *.
  assert (handle authenticated initial_default (ServerFinished redirect)
            (set_server_ (Some listening) s) =
          set_server_ None (RequestAccessToken url code (set_server_ (Some redirect) s)))
    as ->.
  { cbn [handle server_ set_server_]. unfold RedirectArrived. cbn [server_ set_server_].
    fold url. unfold isEmpty at 1. rewrite bool_decide_eq_true_2 by done.
    rewrite Hvalid, Hnoerror, Hcode. done. }
  destruct (RequestAccessToken_grant url code (set_server_ (Some redirect) s))
    as (_ & Hs & Hst & He & Hpost & _).
  destruct Hpost as (Hp & Hr & Hc).
  { rewrite Hnonempty. unfold isEmpty. by rewrite (bool_decide_eq_false_2 _ Hvalue). }
  cbn [next_reply replies_ posted set_server_] in Hp, Hr, Hc.
  set (s2 := set_server_ None _) in *.
  assert (next_reply s ∈ replies_ s2) as Hin.
  { unfold s2. cbn [replies_ set_server_]. rewrite Hr. apply elem_of_app. right. by left. }
  assert (connected s2 !! next_reply s = Some AuthenticateReplyFinishedSlot) as Hslot by done.
  assert ((GetJsonObject r s2).1.1.1 = Success) as Hres2
    by (by rewrite (GetJsonObject_result r s2 s)).
  assert (has_token_fields (GetJsonObject r s2).1.1.2 = true) as Hfields2
    by (by rewrite (GetJsonObject_result r s2 s)).
  cbn [handle]. rewrite Hslot.
  unfold AuthenticateReplyFinished. rewrite (bool_decide_eq_true_2 _ Hin). cbn [negb].
  rewrite (GetJsonObject_result r s2 (take_reply (next_reply s) s2)) in Hres2, Hfields2.
  rewrite (GetJsonObject_result r s (take_reply (next_reply s) s2)).
  pose proof (GetJsonObject_state r (take_reply (next_reply s) s2)) as Hstate.
  destruct (is_auth_error r) eqn:Hauth.
  { by destruct (auth_error_no_success r (take_reply (next_reply s) s2) Hauth). }
  destruct (GetJsonObject r (take_reply (next_reply s) s2)) as [[[res obj] msg] s3].
  cbn [fst snd] in *. subst res s3.
  rewrite bool_decide_eq_true_2 by done. cbn [negb].
  unfold has_token_fields in Hfields2.
  apply andb_true_iff in Hfields2 as [[H1 H2]%andb_true_iff H3].
  rewrite H1, H2, H3. cbn [negb orb].
  match goal with |- context [StartSubmit _ _ ?x] =>
    destruct (StartSubmit_frame authenticated initial_default x)
      as (_ & _ & _ & _ & -> & _ & -> & _) end.
  cbn [expires_in_].
  destruct (0 <? Json.toInt (obj !! "expires_in"))%Z;
    (split_and!; [done|done|exact Hp|done|done|done|done|]);
    cbn [emitted emit set_emitted set_refresh_login_timer_ set_store set_session_
         take_reply set_connected set_replies_];
    unfold s2; cbn [emitted set_server_]; by rewrite He.
Qed.

Lemma UpdateNowPlaying_playback (song : Song.t) (now : Z) (s : ListenBrainzScrobbler) :
  playback_ (UpdateNowPlaying authenticated initial_default song now s) =
    mkPlayback song false now.
Proof.
  unfold UpdateNowPlaying.
  match goal with |- context [if ?b then _ else _] => destruct b end; done.
Qed.

(** X14.  A scrobble of the song that was announced as playing is queued
    with the time of the announcement as its timestamp.  [Scrobble] does not
    look at the scrobbled flag: a second call for the same song queues a
    second record with the same metadata and the same timestamp. *)
Theorem Scrobble_after_UpdateNowPlaying (song : Song.t) (now : Z)
    (s : ListenBrainzScrobbler) :
  Song.is_metadata_good song = true →
  let s1 := UpdateNowPlaying authenticated initial_default song now s in
  let s2 := Scrobble authenticated initial_default song s1 in
  let s3 := Scrobble authenticated initial_default song s2 in
  let first := ScrobblerCache.fresh (cache_ s1) in
  scrobbled_ (playback_ s2) = true
  ∧ ScrobblerCache.List (cache_ s2) = ScrobblerCache.List (cache_ s1) ++ [first]
  ∧ ScrobblerCache.List (cache_ s3) = ScrobblerCache.List (cache_ s1) ++ [first; S first]
  ∧ (∃ item, ScrobblerCache.objects (cache_ s2) !! first = Some item
             ∧ ScrobblerCacheItem.metadata item = ScrobbleMetadata.of_song song
             ∧ ScrobblerCacheItem.timestamp item = now)
  ∧ (∃ item, ScrobblerCache.objects (cache_ s3) !! S first = Some item
             ∧ ScrobblerCacheItem.metadata item = ScrobbleMetadata.of_song song
             ∧ ScrobblerCacheItem.timestamp item = now).
Proof.
  intros Hgood. cbv zeta.
  pose proof (UpdateNowPlaying_playback song now s) as Hp1.
  set (s1 := UpdateNowPlaying authenticated initial_default song now s) in *.
  assert (accepts song s1 = true) as Hacc1.
  { unfold accepts. rewrite Hp1. cbn [song_playing_]. rewrite Z.eqb_refl, Hgood.
    by rewrite bool_decide_eq_true_2. }
  destruct (Scrobble_accepted authenticated initial_default song s1 Hacc1)
    as (Hp2 & _ & Hf2 & Hl2 & Hi2).
  set (s2 := Scrobble authenticated initial_default song s1) in *.
  rewrite Hp1 in Hp2. cbn [song_playing_ timestamp_] in Hp2, Hi2.
  assert (accepts song s2 = true) as Hacc2.
  { unfold accepts. rewrite Hp2. cbn [song_playing_]. rewrite Z.eqb_refl, Hgood.
    by rewrite bool_decide_eq_true_2. }
  destruct (Scrobble_accepted authenticated initial_default song s2 Hacc2)
    as (_ & _ & _ & Hl3 & Hi3).
  rewrite Hp2, Hf2 in Hi3. rewrite Hl2, Hf2, <- app_assoc in Hl3.
  rewrite Hp1 in Hi2. cbn [timestamp_] in Hi2, Hi3.
  rewrite Hp2. split_and!; done.
Qed.

End Further.

(** * The further theorems at work *)

Lemma Submit_posts_the_batch_witness :
  let s' := Submit has_access_token two_queued in
  submitted_ s' = true
  ∧ posted s' =
      [mkRequest (kApiUrl +:+ "/1/submit-listens")
         (Import [(1%Z, ScrobbleMetadata.of_song track); (2%Z, ScrobbleMetadata.of_song track)])]
  ∧ connected s' !! 0 = Some (ScrobbleRequestFinishedSlot [0; 1]).
Proof.
  intros s'.
  destruct (Submit_posts_the_batch has_access_token two_queued)
    as (Hs & Hp & _ & Hc & _).
  { split_and!; reflexivity. }
  { vm_compute. discriminate. }
  split_and!; [exact Hs|exact Hp|exact Hc].
Defined.

Lemma Submit_batch_bounds_witness :
  let c := cache_of [error_item 1; ok_item 2] in
  NoDup (ScrobblerCache.List c)
  ∧ length (Submit_batch c) ≤ 10
  ∧ Submit_batch c `sublist_of` ScrobblerCache.List c.
Proof.
  intros c.
  assert (NoDup (ScrobblerCache.List c)) as Hnd by by_evaluation.
  destruct (Submit_batch_bounds c Hnd) as (Hlen & Hsub & _).
  split_and!; [exact Hnd|exact Hlen|exact Hsub].
Defined.

Lemma only_batch_replies_remove_records_witness :
  let s' := step (CallScrobble track) playing_track in
  ScrobblerCache.List (cache_ s') = ScrobblerCache.List (cache_ playing_track)
  ∨ ScrobblerCache.List (cache_ s') =
    ScrobblerCache.List (cache_ playing_track) ++ [ScrobblerCache.fresh (cache_ playing_track)].
Proof.
  intros s'.
  apply (only_batch_replies_remove_records has_access_token false
           (CallScrobble track) playing_track).
  intros reply r now H. discriminate H.
Defined.

Lemma queued_records_keep_their_content_witness :
  ScrobblerCache.wf (cache_ in_flight_with_unsent)
  ∧ keeps_records (cache_ in_flight_with_unsent)
      (cache_ (run has_access_token false
                 [ReplyFinished 1 connection_refused 200; SubmitTimeout]
                 in_flight_with_unsent)).
Proof.
  assert (ScrobblerCache.wf (cache_ in_flight_with_unsent)) as Hwf.
  { apply wf_handle, wf_run. exact wf_empty. }
  split; [exact Hwf|].
  exact (queued_records_keep_their_content has_access_token false _ _ Hwf).
Defined.

Lemma at_most_one_batch_in_flight_witness :
  submitted_ logged_in = false ∧ replies_ logged_in = []
  ∧ length (batches_in_flight in_flight) = (if submitted_ in_flight then 1 else 0)
  ∧ (submitted_ in_flight = true → QTimer.isActive (timer_submit_ in_flight) = false).
Proof.
  destruct (at_most_one_batch_in_flight has_access_token false
              [CallUpdateNowPlaying track 100; CallScrobble track; SubmitTimeout] logged_in)
    as [Hn Ht]; [reflexivity|reflexivity|reflexivity|].
  split_and!; [reflexivity|reflexivity|exact Hn|exact Ht].
Defined.

Lemma queue_without_duplicates_witness :
  let s' := run has_access_token false
              [CallUpdateNowPlaying track 100; CallScrobble track; SubmitTimeout;
               CallScrobble track] logged_in in
  cache_ logged_in = ScrobblerCache.empty
  ∧ NoDup (ScrobblerCache.List (cache_ s')).
Proof.
  intros s'.
  destruct (queue_without_duplicates has_access_token false
              [CallUpdateNowPlaying track 100; CallScrobble track; SubmitTimeout;
               CallScrobble track] logged_in)
    as [Hnd _]; [reflexivity|].
  split; [reflexivity|exact Hnd].
Defined.

Lemma reply_handled_once_witness :
  let s1 := step (ReplyFinished 1 connection_refused 200) in_flight in
  1 < next_reply in_flight
  ∧ step (ReplyFinished 1 authentication_required 300) s1 = s1.
Proof.
  intros s1.
  assert (1 < next_reply in_flight) as Hlt by (vm_compute; lia).
  destruct (reply_handled_once has_access_token false 1 connection_refused
              authentication_required 200 300 in_flight Hlt) as [Hagain _].
  split; [exact Hlt|exact Hagain].
Defined.

Lemma replies_touch_session_by_logout_only_witness :
  let s' := handle has_access_token false (ReplyFinished 1 authentication_required 200)
              in_flight in
  connected in_flight !! 1 = Some (ScrobbleRequestFinishedSlot [0])
  ∧ 1 ∈ replies_ in_flight
  ∧ session_ s' = logged_out
  ∧ store s' = without_tokens (store in_flight).
Proof.
  intros s'. subst s'.
  assert (connected in_flight !! 1 = Some (ScrobbleRequestFinishedSlot [0])) as Hslot
    by reflexivity.
  assert (1 ∈ replies_ in_flight) as Hin by by_evaluation.
  destruct (replies_touch_session_by_logout_only has_access_token false 1
              authentication_required 200 _ in_flight Hslot) as [Hs Hst];
    [discriminate|exact Hin|].
  split_and!; [exact Hslot|exact Hin|rewrite Hs; reflexivity|rewrite Hst; reflexivity].
Defined.

Lemma token_exchange_success_witness :
  let s' := AuthenticateReplyFinished has_access_token false 0 token_reply 5000 exchanging in
  0 ∈ replies_ exchanging
  ∧ access_token_ (session_ s') = "new"
  ∧ expires_in_ (session_ s') = 7200%Z
  ∧ login_time_ (session_ s') = 5000%Z
  ∧ refresh_token_ (session_ s') = "refresh".
Proof.
  intros s'.
  assert (0 ∈ replies_ exchanging) as Hin by by_evaluation.
  destruct (token_exchange_success has_access_token false 0 token_reply 5000 exchanging Hin)
    as (Ha & He & _ & Hl & Hr & _); [reflexivity|reflexivity|].
  destruct Hr as [Hr _]; [reflexivity|].
  split_and!; [exact Hin|exact Ha|exact He|exact Hl|exact Hr].
Defined.

Lemma stored_session_is_restored_witness :
  let s' := AuthenticateReplyFinished has_access_token false 0 token_reply 5000 exchanging in
  0 ∈ replies_ exchanging
  ∧ session_ (LoadSession 6000 s') = session_ s'.
Proof.
  intros s'.
  assert (0 ∈ replies_ exchanging) as Hin by by_evaluation.
  split; [exact Hin|].
  apply (stored_session_is_restored has_access_token false 0 token_reply 5000 6000
           exchanging Hin); reflexivity.
Defined.

Lemma authorization_flow_completes_witness :
  let s3 := run has_access_token false
              [CallAuthenticate listening_server true; ServerFinished code_redirect;
               ReplyFinished 0 token_reply 5000] logged_in in
  brings_code code_redirect
  ∧ access_token_ (session_ s3) = "new"
  ∧ login_time_ (session_ s3) = 5000%Z
  ∧ emitted s3 = [AuthenticationComplete true ""].
Proof.
  intros s3.
  assert (brings_code code_redirect) as Hcode.
  { unfold brings_code. split_and!; try reflexivity. by_evaluation. }
  destruct (authorization_flow_completes has_access_token false listening_server
              code_redirect token_reply 5000 logged_in)
    as (_ & _ & _ & Ha & _ & _ & Hl & He);
    [reflexivity|exact Hcode|reflexivity|reflexivity|].
  split_and!; [exact Hcode|exact Ha|exact Hl|exact He].
Defined.

Lemma Scrobble_after_UpdateNowPlaying_witness :
  let s1 := UpdateNowPlaying has_access_token false track 100 logged_in in
  let s3 := Scrobble has_access_token false track (Scrobble has_access_token false track s1) in
  Song.is_metadata_good track = true
  ∧ ScrobblerCache.List (cache_ s3) = [0; 1].
Proof.
  intros s1 s3.
  destruct (Scrobble_after_UpdateNowPlaying has_access_token false track 100 logged_in)
    as (_ & _ & Hl & _); [reflexivity|].
  split; [reflexivity|exact Hl].
Defined.
